(** * Getcircle_Img: the circle detection pipeline of [circle_detector.py]

    A shallow embedding of the class [CircleDetector]: [detect_circles],
    [draw_circles], [extract_circles] and [get_circle_info], followed by the
    properties of the pipeline.

    Conventions.
    - numpy arrays are lists of rows; a colour image is a list of rows of
      pixels, a pixel the list of its channel values (B, G, R).
    - Python and numpy integers are [Z]; indices that reach a slice keep
      Python's treatment of negative and oversized bounds.
    - [float] values are the numbers they denote: the rationals [Q] for the
      inputs of the detector and for what [cv.HoughCircles] returns (every
      float is a rational, so rounding is exact), the reals [R] for the
      results of [np.mean] and [np.std], which involve a square root.
    - OpenCV is not part of the repository.  What its algorithms compute
      (grey conversion, blur, the Hough search, which pixels a drawing call
      touches) is an interface, [OpenCV]; the glue around them follows the
      source line by line.
    - Array buffers that are copied or drawn on live in a store, so that
      aliasing and in-place drawing are visible; files live in [files]. *)

From Stdlib Require Import ZArith QArith Qround Qabs Reals Lqa Lra Lia Ascii String.
From stdpp Require Import base list strings gmap pretty.

Local Open Scope Z_scope.
Local Set Warnings "-register-all".

(** ** Arrays *)

Abbreviation ndarray A := (list (list A)) (only parsing).

Abbreviation Pixel := (list Z) (only parsing).
Abbreviation Image := (ndarray Pixel) (only parsing).
Abbreviation Mask := (ndarray Z) (only parsing).

(** A row of the N x 3 integer array of circles: (x, y, r). *)
Definition Circle : Type := (Z * Z * Z)%type.

(** What [detect_circles] returns, [Optional[np.ndarray]]: the array of
    circles, or [None] when the search finds no circle. *)
Abbreviation DetectionResult := (option (list Circle)) (only parsing).

Section Arrays.
Context {A : Type}.

(** [a.shape[0]] and [a.shape[1]]. *)
Definition shape0 (a : ndarray A) : Z := Z.of_nat (length a).
Definition shape1 (a : ndarray A) : Z := Z.of_nat (length (default [] (head a))).

(** Every row has [w] entries, as in any numpy array. *)
Definition rect (w : nat) (a : ndarray A) : Prop :=
  Forall (λ row, length row = w) a.

(** Python normalises a slice bound [i] against a length [len]: a negative
    bound counts from the end, and the result is clipped to [0, len]. *)
Definition slice_index (len i : Z) : Z :=
  if i <? 0 then Z.max 0 (i + len) else Z.min i len.

(** Where the slice [i:j] of a list of length [len] starts, and how many
    entries it has. *)
Definition slice_start (len : nat) (i : Z) : nat :=
  Z.to_nat (slice_index (Z.of_nat len) i).

Definition slice_len (len : nat) (i j : Z) : nat :=
  Z.to_nat (slice_index (Z.of_nat len) j - slice_index (Z.of_nat len) i).

(** [l[a:b]] *)
Definition py_slice {B : Type} (l : list B) (a b : Z) : list B :=
  let n := Z.of_nat (length l) in
  let lo := slice_index n a in
  let hi := slice_index n b in
  take (Z.to_nat (hi - lo)) (drop (Z.to_nat lo) l).

(** [a[y1:y2, x1:x2]] *)
Definition slice2 (a : ndarray A) (y1 y2 x1 x2 : Z) : ndarray A :=
  (λ row, py_slice row x1 x2) <$> py_slice a y1 y2.

(** [a[j][i]] for indices inside the array. *)
Definition at2 (a : ndarray A) (j i : nat) : option A :=
  a !! j ≫= (λ row, row !! i).

(** An in-place drawing call with a solid colour: the pixels (col, row)
    for which [hit] holds take the value [color]. *)
Definition paint (hit : Z → Z → bool) (color : A) (a : ndarray A) : ndarray A :=
  imap (λ j row, imap (λ i p, if hit (Z.of_nat i) (Z.of_nat j) then color else p) row) a.
End Arrays.

(** [np.zeros((h, w), dtype=np.uint8)] *)
Definition np_zeros (h w : Z) : Mask :=
  replicate (Z.to_nat h) (replicate (Z.to_nat w) 0).

(** [cv.bitwise_and(src1, src2, mask=mask)] without [dst]: the result is a
    new array, zero where the mask is zero, [src1 & src2] channel by channel
    where it is not. *)
Definition bitwise_and_px (p q : Pixel) (m : Z) : Pixel :=
  if m =? 0 then (λ _, 0) <$> p else zip_with Z.land p q.

Definition bitwise_and (src1 src2 : Image) (mask : Mask) : Image :=
  zip_with (λ '(r1, r2) mrow, zip_with (λ '(p, q) m, bitwise_and_px p q m) (zip r1 r2) mrow)
           (zip src1 src2) mask.

(** [np.round] rounds half to even; [astype("int")] of the rounded value. *)
Definition np_round (q : Q) : Z :=
  let f := Qfloor q in
  match Qcompare (q - inject_Z f) (1 # 2) with
  | Lt => f
  | Gt => f + 1
  | Eq => if Z.even f then f else f + 1
  end.

Definition round_circle (c : Q * Q * Q) : Circle :=
  let '(x, y, r) := c in (np_round x, np_round y, np_round r).

(** ** Strings *)

(** [c in s] for a character and a string. *)
Fixpoint contains (c : ascii) (s : string) : bool :=
  match s with
  | EmptyString => false
  | String a s' => bool_decide (a = c) || contains c s'
  end.

(** [s.rsplit(".", 1)]: the part before the last "." and the part after
    it, or [s] alone when it has no ".". *)
Fixpoint rsplit_dot (s : string) : list string :=
  match s with
  | EmptyString => [EmptyString]
  | String a s' =>
      match rsplit_dot s' with
      | [before; after] => [String a before; after]
      | _ => if bool_decide (a = "."%char) then [EmptyString; s'] else [s]
      end
  end.

(** [s.lower()]: the letters A to Z become a to z.  (Outside ASCII Python
    lowers further letters, none of them to a letter of the extensions
    below.) *)
Definition lower_ascii (c : ascii) : ascii :=
  let n := nat_of_ascii c in
  if (65 <=? n)%nat && (n <=? 90)%nat then ascii_of_nat (n + 32) else c.

Fixpoint lower (s : string) : string :=
  match s with
  | EmptyString => EmptyString
  | String a s' => String (lower_ascii a) (lower s')
  end.

(** ** Exceptions, files and the store *)

Inductive exn : Type :=
  | ValueError (msg : string)
  | AttributeError (msg : string)
  | TypeError (msg : string)
  | SystemError (msg : string)
  | cv2_error (msg : string).

Inductive result (A : Type) : Type :=
  | Ok (a : A)
  | Raise (e : exn).
Arguments Ok {A} a.
Arguments Raise {A} e.

(** The content of a file as [cv.imread] sees it: an encoded raster, or
    bytes that no decoder accepts (the empty file is [Blob ""]). *)
Inductive File : Type :=
  | Raster (img : Image)
  | Blob (bytes : string).

Definition loc : Type := nat.

Record World : Type := mkWorld {
  files : gmap string File;
  dirs : gset string;
  heap : list Image;
  stdout : list string
}.

Definition M (A : Type) : Type := World → result A * World.

Definition ret {A} (a : A) : M A := λ w, (Ok a, w).
Definition raise {A} (e : exn) : M A := λ w, (Raise e, w).
Definition bind {A B} (m : M A) (k : A → M B) : M B :=
  λ w, match m w with
       | (Ok a, w') => k a w'
       | (Raise e, w') => (Raise e, w')
       end.
Definition lift {A} (r : result A) : M A := λ w, (r, w).

Notation "x <- c1 ;; c2" := (bind c1 (λ x, c2))
  (at level 100, c1 at next level, right associativity).
Notation "c1 ;;; c2" := (bind c1 (λ _, c2))
  (at level 100, right associativity).

(** What [cv.imread] yields for a path: [None] when the file is missing,
    cannot be decoded, or decodes to an empty matrix. *)
Definition decode (fs : gmap string File) (path : string) : option Image :=
  match fs !! path with
  | Some (Raster img) =>
      if bool_decide (shape0 img = 0 ∨ shape1 img = 0) then None else Some img
  | _ => None
  end.

Definition alloc (img : Image) : M loc :=
  λ w, (Ok (length (heap w)),
        mkWorld (files w) (dirs w) (heap w ++ [img]) (stdout w)).

(** [cv.imread(path)]: a fresh buffer, or [None]. *)
Definition imread (path : string) : M (option loc) :=
  λ w, match decode (files w) path with
       | Some img => (a <- alloc img ;; ret (Some a)) w
       | None => (Ok None, w)
       end.

(** The array in the buffer at [l]. *)
Definition load (l : loc) : M Image :=
  λ w, match heap w !! l with
       | Some img => (Ok img, w)
       | None => (Raise (SystemError "invalid buffer"), w)
       end.

(** Reading attribute [attr] of the array behind an [Optional] reference:
    [None] has no attributes. *)
Definition deref (attr : string) (a : option loc) : M Image :=
  match a with
  | None =>
      raise (AttributeError
        ("'NoneType' object has no attribute '" +:+ attr +:+ "'"))
  | Some l => load l
  end.

(** An in-place update of the buffer at [l]. *)
Definition modify (l : loc) (f : Image → Image) : M unit :=
  λ w, (Ok (), mkWorld (files w) (dirs w) (alter f l (heap w)) (stdout w)).

(** [Path(d).mkdir(parents=True, exist_ok=True)] *)
Definition mkdir (d : string) : M unit :=
  λ w, (Ok (), mkWorld (files w) ({[d]} ∪ dirs w) (heap w) (stdout w)).

Definition print (line : string) : M unit :=
  λ w, (Ok (), mkWorld (files w) (dirs w) (heap w) (stdout w ++ [line])).

(** [os.path.join(a, b)] on POSIX. *)
Definition endswith_sep (a : string) : bool :=
  match head (reverse (String.list_ascii_of_string a)) with
  | Some c => bool_decide (c = "/"%char)
  | None => false
  end.

Definition os_path_join (a b : string) : string :=
  match b with
  | String "/" _ => b
  | _ => if bool_decide (a = "") || endswith_sep a then a +:+ b else a +:+ "/" +:+ b
  end.

(** ** The OpenCV interface *)

Definition COLOR_BGR2GRAY : Z := 6.
Definition HOUGH_GRADIENT : Z := 3.
Definition FONT_HERSHEY_SIMPLEX : Z := 0.

(** The algorithms of the library, as functions of their arguments.
    [HoughCircles src method dp minDist param1 param2 minRadius maxRadius]
    returns the rows of its 1 x N x 3 float array, [None] when it finds no
    circle, or raises its own error; it does so whenever [dp] or [minDist]
    is not positive.  [circle_raster center radius thickness]
    and [text_raster text org font scale thickness] tell which pixels
    (col, row) [cv.circle] and [cv.putText] set.

    For [cv.imwrite]: [encoder ext] is the encoder the build has for the
    extension [ext] of a file name, given by the array [cv.imread] decodes
    from what the encoder writes (the array itself for a lossless format,
    another one for JPEG), or [None] when the build has no encoder for
    [ext]; the PNG encoder is there and lossless.  [writable path] tells
    whether the file can be opened for writing (its directory exists and
    may be written to) when [cv.imwrite] is called on it. *)
Class OpenCV : Type := {
  cvtColor : Image → Z → Mask;
  medianBlur : Mask → Z → Mask;
  HoughCircles :
    Mask → Z → Q → Z → Z → Z → Z → Z → result (option (list (Q * Q * Q)));
  circle_raster : Z * Z → Z → Z → Z → Z → bool;
  text_raster : string → Z * Z → Z → Q → Z → Z → Z → bool;
  encoder : string → option (Image → Image);
  writable : string → bool;
  HoughCircles_positive :
    ∀ src method dp minDist param1 param2 minRadius maxRadius,
      (dp <= 0)%Q ∨ minDist ≤ 0 →
      ∃ msg, HoughCircles src method dp minDist param1 param2 minRadius maxRadius
             = Raise (cv2_error msg);
  encoder_png : encoder "png" = Some (λ img, img)
}.

(** [Mat::empty()] *)
Definition mat_empty (img : Image) : bool :=
  bool_decide (shape0 img = 0 ∨ shape1 img = 0).

(** The extension [cv.imwrite] looks an encoder up by: the letters and
    digits (at most 128) that follow the last "." of the file name,
    compared without regard to case. *)
Definition is_alnum (c : ascii) : bool :=
  let n := nat_of_ascii c in
  ((48 <=? n) && (n <=? 57) || (65 <=? n) && (n <=? 90)
   || (97 <=? n) && (n <=? 122))%nat.

Fixpoint take_alnum (n : nat) (s : string) : string :=
  match n, s with
  | S n', String c s' =>
      if is_alnum c then String c (take_alnum n' s') else EmptyString
  | _, _ => EmptyString
  end.

Definition imwrite_ext (filename : string) : option string :=
  if (String.length filename <=? 1)%nat then None
  else match rsplit_dot filename with
       | [_; after] => Some (lower (take_alnum 128 after))
       | _ => None
       end.

(** [findEncoder(filename)] *)
Definition find_encoder `{cv : OpenCV} (filename : string) : option (Image → Image) :=
  imwrite_ext filename ≫= encoder.

(** The two errors of [cv.imwrite]. *)
Definition imwrite_empty : exn :=
  cv2_error "(-215:Assertion failed) !_img.empty() in function 'imwrite'".

Definition imwrite_no_writer : exn :=
  cv2_error "could not find a writer for the specified extension in function 'imwrite_'".

(** [cv.imwrite(path, img)]: it raises on an empty array and on a file
    name for which it finds no encoder, and returns [False] when the file
    cannot be written; the source ignores what it returns. *)
Definition imwrite `{cv : OpenCV} (path : string) (img : Image) : M bool :=
  λ w,
    if mat_empty img
    then (Raise imwrite_empty, w)
    else
      match find_encoder path with
      | None => (Raise imwrite_no_writer, w)
      | Some codec =>
          if writable path
          then (Ok true,
                mkWorld (<[path := Raster (codec img)]> (files w))
                        (dirs w) (heap w) (stdout w))
          else (Ok false, w)
      end.

(** ** Values of the statistics dictionary *)

Inductive value : Type :=
  | VInt (n : Z)
  | VFloat (x : R)
  | VList (l : list value)
  | VDict (d : gmap string value).

(** [np.mean], [np.min], [np.max], [np.std] on a one-dimensional integer
    array.  [np.min] and [np.max] raise on an empty array. *)
Definition np_sum (l : list R) : R := foldr Rplus 0%R l.

Definition np_mean (l : list Z) : R :=
  (np_sum (IZR <$> l) / INR (length l))%R.

Definition np_min (l : list Z) : result Z :=
  match l with
  | [] => Raise (ValueError
            "zero-size array to reduction operation minimum which has no identity")
  | x :: xs => Ok (foldr Z.min x xs)
  end.

Definition np_max (l : list Z) : result Z :=
  match l with
  | [] => Raise (ValueError
            "zero-size array to reduction operation maximum which has no identity")
  | x :: xs => Ok (foldr Z.max x xs)
  end.

(** numpy's [_var]: the mean, the deviations from it, their squares, and
    the sum of the squares over [max(N - ddof, 0)]. *)
Definition np_var (ddof : Z) (l : list Z) : R :=
  let arrmean := np_mean l in
  let x := (λ a, (IZR a - arrmean)%R) <$> l in
  let x := (λ d, (d * d)%R) <$> x in
  (np_sum x / IZR (Z.max (Z.of_nat (length l) - ddof) 0))%R.

(** [np.std(a)], with the default [ddof=0]. *)
Definition np_std (l : list Z) : R := sqrt (np_var 0 l).

(** The population standard deviation in the words of the specification:
    the sum of the squared deviations from the mean, divided by N, under a
    square root. *)
Definition mean_of (l : list Z) : R :=
  (np_sum (IZR <$> l) / INR (length l))%R.

Definition population_std (l : list Z) : R :=
  sqrt (np_sum ((λ a, Rsqr (IZR a - mean_of l)) <$> l) / INR (length l)).

(** ** class CircleDetector *)

Record CircleDetector : Type := {
  min_radius : Z;
  max_radius : Z
}.

(** [CircleDetector(min_radius=10, max_radius=200)] *)
Definition init (min_radius max_radius : Z) : CircleDetector :=
  {| min_radius := min_radius; max_radius := max_radius |}.

(** [image.copy()] *)
Definition ndarray_copy (a : option loc) : M loc :=
  img <- deref "copy" a ;; alloc img.

(** Iterating over an [Optional] array: [None] is not iterable. *)
Definition iter {A} (o : option (list A)) : M (list A) :=
  match o with
  | None => raise (TypeError "'NoneType' object is not iterable")
  | Some l => ret l
  end.

(** [for x in l: body(x)] *)
Fixpoint for_ {A} (l : list A) (body : A → M unit) : M unit :=
  match l with
  | [] => ret ()
  | x :: l' => body x ;;; for_ l' body
  end.

(** A loop that carries its local variables [s]. *)
Fixpoint for_fold {A S} (l : list A) (s : S) (body : S → A → M S) : M S :=
  match l with
  | [] => ret s
  | x :: l' => s' <- body s x ;; for_fold l' s' body
  end.

Fixpoint enumerate_from {A} (i : nat) (l : list A) : list (nat * A) :=
  match l with
  | [] => []
  | x :: l' => (i, x) :: enumerate_from (S i) l'
  end.

(** [enumerate(l)] *)
Definition enumerate {A} (l : list A) : list (nat * A) := enumerate_from 0 l.

(** Truth value of an [Optional[str]]. *)
Definition truthy (s : option string) : option string :=
  match s with
  | Some "" => None
  | _ => s
  end.

Section Detector.
Context `{cv : OpenCV}.

(** [detect_circles(self, image_path, dp, min_dist, param1, param2)];
    the defaults of the source are [dp=1.2], [min_dist=100],
    [param1=50], [param2=30]. *)
Definition detect_circles (self : CircleDetector) (image_path : string)
    (dp : Q) (min_dist param1 param2 : Z) : M DetectionResult :=
  image <- imread image_path ;;
  match image with
  | None => raise (ValueError ("Cannot read image from " +:+ image_path))
  | Some image =>
      img <- load image ;;
      let gray := cvtColor img COLOR_BGR2GRAY in
      let gray := medianBlur gray 5 in
      circles <- lift (HoughCircles gray HOUGH_GRADIENT dp min_dist
                         param1 param2 (min_radius self) (max_radius self)) ;;
      match circles with
      | Some circles => ret (Some (round_circle <$> circles))
      | None => ret None
      end
  end.

(** What [detect_circles] computes once the image is in memory. *)
Definition search (self : CircleDetector) (img : Image) (dp : Q)
    (min_dist param1 param2 : Z) : result DetectionResult :=
  match HoughCircles (medianBlur (cvtColor img COLOR_BGR2GRAY) 5) HOUGH_GRADIENT
          dp min_dist param1 param2 (min_radius self) (max_radius self) with
  | Raise e => Raise e
  | Ok None => Ok None
  | Ok (Some circles) => Ok (Some (round_circle <$> circles))
  end.

(** [cv.circle(buf, center, radius, color, thickness)] on a buffer. *)
Definition cv_circle (buf : loc) (center : Z * Z) (radius : Z)
    (color : Pixel) (thickness : Z) : M unit :=
  modify buf (paint (circle_raster center radius thickness) color).

(** [cv.putText(buf, text, org, font, scale, color, thickness)] *)
Definition cv_putText (buf : loc) (text : string) (org : Z * Z) (font : Z)
    (scale : Q) (color : Pixel) (thickness : Z) : M unit :=
  modify buf (paint (text_raster text org font scale thickness) color).

(** The body of the loop of [draw_circles]: the outline, the centre dot
    and the label of one circle, drawn on [output]. *)
Definition draw_one (output : loc) (c : Circle) : M unit :=
  let '(x, y, r) := c in
  cv_circle output (x, y) r [0; 255; 0] 2 ;;;
  cv_circle output (x, y) 3 [0; 0; 255] (-1) ;;;
  cv_putText output ("r=" +:+ pretty r) (x - 20, y - r - 10)
    FONT_HERSHEY_SIMPLEX (1 # 2) [255; 255; 255] 2.

(** [draw_circles(self, image_path, circles, output_path=None)] *)
Definition draw_circles (image_path : string) (circles : DetectionResult)
    (output_path : option string) : M loc :=
  image <- imread image_path ;;
  output <- ndarray_copy image ;;
  rows <- iter circles ;;
  for_ rows (draw_one output) ;;;
  match truthy output_path with
  | Some p =>
      out <- load output ;;
      imwrite p out ;;;
      print ("Output saved to " +:+ p)
  | None => ret ()
  end ;;;
  ret output.

(** What the three drawing calls for one circle do to the pixels of a
    buffer, and what the whole loop does. *)
Definition annotate_one (c : Circle) (buf : Image) : Image :=
  let '(x, y, r) := c in
  paint (text_raster ("r=" +:+ pretty r) (x - 20, y - r - 10)
           FONT_HERSHEY_SIMPLEX (1 # 2) 2) [255; 255; 255]
    (paint (circle_raster (x, y) 3 (-1)) [0; 0; 255]
       (paint (circle_raster (x, y) r 2) [0; 255; 0] buf)).

Definition annotated (circles : list Circle) (img : Image) : Image :=
  foldl (λ buf c, annotate_one c buf) img circles.

(** The corners [x1, y1, x2, y2] of the crop in [extract_circles]. *)
Definition crop_box (image : Image) (c : Circle) : Z * Z * Z * Z :=
  let '(x, y, r) := c in
  let x1 := Z.max 0 (x - r) in
  let y1 := Z.max 0 (y - r) in
  let x2 := Z.min (shape1 image) (x + r) in
  let y2 := Z.min (shape0 image) (y + r) in
  (x1, y1, x2, y2).

(** The mask of one iteration: zeros of the image's height and width
    with the filled disc drawn on them. *)
Definition circle_mask (image : Image) (c : Circle) : Mask :=
  let '(x, y, r) := c in
  let mask := np_zeros (shape0 image) (shape1 image) in
  paint (circle_raster (x, y) r (-1)) 255 mask.

(** The body of the loop of [extract_circles] up to [result]. *)
Definition extract_region (image : Image) (c : Circle) : Image :=
  let mask := circle_mask image c in
  let '(x1, y1, x2, y2) := crop_box image c in
  let cropped := slice2 image y1 y2 x1 x2 in
  let mask_cropped := slice2 mask y1 y2 x1 x2 in
  bitwise_and cropped cropped mask_cropped.

Definition circle_file (output_dir : string) (i : nat) : string :=
  os_path_join output_dir ("circle_" +:+ pretty (i + 1)%nat +:+ ".png").

(** The body of the loop of [extract_circles]; [extracted_paths] is the
    list the loop appends to. *)
Definition extract_one (image : option loc) (output_dir : string)
    (extracted_paths : list string) (ic : nat * Circle) : M (list string) :=
  let '(i, c) := ic in
  img <- deref "shape" image ;;
  let result := extract_region img c in
  let output_path := circle_file output_dir i in
  imwrite output_path result ;;;
  ret (extracted_paths ++ [output_path]).

(** Whether [cv.imwrite] finds an encoder for the output path of
    [draw_circles], where one is given. *)
Definition can_save (output_path : option string) : Prop :=
  ∀ p, truthy output_path = Some p → is_Some (find_encoder p).

(** The circles the loop of [extract_circles] gets through: those before
    the first one whose crop has no pixel. *)
Fixpoint until_empty (img : Image) (ics : list (nat * Circle)) : list (nat * Circle) :=
  match ics with
  | [] => []
  | ic :: ics' =>
      if mat_empty (extract_region img ic.2) then []
      else ic :: until_empty img ics'
  end.

(** Whether every crop has pixels. *)
Definition all_crops (img : Image) (circles : list Circle) : bool :=
  forallb (λ c, negb (mat_empty (extract_region img c))) circles.

(** The files written by the loop of [extract_circles] over [ics]. *)
Definition written (img : Image) (dir : string) (ics : list (nat * Circle))
    (fs : gmap string File) : gmap string File :=
  foldl (λ fs ic,
           if writable (circle_file dir ic.1)
           then <[circle_file dir ic.1 := Raster (extract_region img ic.2)]> fs
           else fs)
        fs ics.

(** [extract_circles(self, image_path, circles, output_dir)] *)
Definition extract_circles (image_path : string) (circles : DetectionResult)
    (output_dir : string) : M (list string) :=
  image <- imread image_path ;;
  mkdir output_dir ;;;
  rows <- iter circles ;;
  extracted_paths <-
    for_fold (enumerate rows) [] (extract_one image output_dir) ;;
  print ("Extracted " +:+ pretty (length extracted_paths) +:+ " circles to "
           +:+ output_dir +:+ "/") ;;;
  ret extracted_paths.
End Detector.

(** [get_circle_info(self, circles)] *)
Definition circle_entry (c : Circle) : value :=
  let '(x, y, r) := c in
  VDict (<["x" := VInt x]> (<["y" := VInt y]> (<["radius" := VInt r]> ∅))).

Definition get_circle_info (circles : DetectionResult) : result (gmap string value) :=
  match circles with
  | None => Ok {[ "count" := VInt 0 ]}
  | Some circles =>
      if bool_decide (length circles = 0%nat) then Ok {[ "count" := VInt 0 ]}
      else
        let radii := (λ c : Circle, c.2) <$> circles in
        match np_min radii, np_max radii with
        | Ok mn, Ok mx =>
            Ok (<["count" := VInt (Z.of_nat (length circles))]>
               (<["average_radius" := VFloat (np_mean radii)]>
               (<["min_radius" := VInt mn]>
               (<["max_radius" := VInt mx]>
               (<["std_radius" := VFloat (np_std radii)]>
               (<["circles" := VList (circle_entry <$> circles)]> ∅))))))
        | Raise e, _ => Raise e
        | _, Raise e => Raise e
        end
  end.

(** The number of circles of a detection result; [None] has none. *)
Definition num_circles (circles : DetectionResult) : nat :=
  match circles with
  | None => 0
  | Some cs => length cs
  end.

(** The three ways of the specification in which an input is no image:
    no readable file, bytes that do not decode, zero height or width. *)
Definition unreadable (fs : gmap string File) (path : string) : Prop :=
  fs !! path = None
  ∨ (∃ bytes, fs !! path = Some (Blob bytes))
  ∨ (∃ img, fs !! path = Some (Raster img) ∧ (shape0 img = 0 ∨ shape1 img = 0)).

(** ** The callers: Python values and errors outside the detector *)

(** Errors raised by the code around the detector; [Core] carries what the
    detector or OpenCV raised. *)
Inductive pyexn : Type :=
  | Core (e : exn)
  | IndexError (msg : string)
  | KeyError (key : string)
  | NameError (msg : string)
  | FileNotFoundError (path : string)
  | UnidentifiedImageError (msg : string).

Inductive outcome (A : Type) : Type :=
  | Done (a : A)
  | Fail (e : pyexn).
Arguments Done {A} a.
Arguments Fail {A} e.

(** [l[1]] *)
Definition getitem1 (l : list string) : outcome string :=
  match l !! 1%nat with
  | Some x => Done x
  | None => Fail (IndexError "list index out of range")
  end.

(** The body shared by the two [allowed_file] functions:
    ['.' in filename and filename.rsplit('.', 1)[1].lower() in exts]. *)
Definition allowed_in (exts : gset string) (filename : string) : outcome bool :=
  if contains "." filename then
    match getitem1 (rsplit_dot filename) with
    | Done ext => Done (bool_decide (lower ext ∈ exts))
    | Fail e => Fail e
    end
  else Done false.

(** circle_api.py *)
Module Api.
Definition ALLOWED_EXTENSIONS : gset string :=
  {[ "png"; "jpg"; "jpeg"; "gif"; "bmp" ]}.

Definition allowed_file (filename : string) : outcome bool :=
  allowed_in ALLOWED_EXTENSIONS filename.
End Api.

(** Code around the detector runs on a state [S] and may fail with a
    [pyexn]. *)
Definition P (S A : Type) : Type := S → outcome A * S.

Definition pret {S A} (a : A) : P S A := λ s, (Done a, s).
Definition pfail {S A} (e : pyexn) : P S A := λ s, (Fail e, s).
Definition pbind {S A B} (m : P S A) (k : A → P S B) : P S B :=
  λ s, match m s with
       | (Done a, s') => k a s'
       | (Fail e, s') => (Fail e, s')
       end.

Notation "x <~ c1 ;; c2" := (pbind c1 (λ x, c2))
  (at level 100, c1 at next level, right associativity).
Notation "c1 ;;~ c2" := (pbind c1 (λ _, c2))
  (at level 100, right associativity).

(** A call of a method of the detector from code that runs on [World]. *)
Definition call {A} (m : M A) : P World A :=
  λ w, match m w with
       | (Ok a, w') => (Done a, w')
       | (Raise e, w') => (Fail (Core e), w')
       end.

Definition of_result {S A} (r : result A) : P S A :=
  match r with
  | Ok a => pret a
  | Raise e => pfail (Core e)
  end.

(** [d[k]] on a dictionary. *)
Definition getitem {S} (d : gmap string value) (k : string) : P S value :=
  match d !! k with
  | Some v => pret v
  | None => pfail (KeyError k)
  end.

(** The text Python produces for a value: [format_1f v] is [f"{v:.1f}"],
    [str_value v] is [f"{v}"] for a value that is not an integer. *)
Class PyFormat : Type := {
  format_1f : value → string;
  str_value : value → string
}.

(** [f"{v}"] *)
Definition fstr `{PyFormat} (v : value) : string :=
  match v with
  | VInt n => pretty n
  | _ => str_value v
  end.

Definition NL : string := String (ascii_of_nat 10) EmptyString.

(** The default [dp=1.2] of [detect_circles]: the double nearest to 1.2. *)
Definition dp_default : Q := 5404319552844595 # 4503599627370496.

(** The parsed command line of [main]. *)
Record Args : Type := {
  args_image : string;
  args_output : option string;
  args_extract : bool;
  args_min_radius : Z;
  args_max_radius : Z;
  args_show : bool
}.

(** [cv.imshow], [cv.waitKey] and [cv.destroyAllWindows] act on the screen
    and the keyboard, not on the state modelled here. *)
Definition highgui : P World unit := pret ().

(** [main()] of circle_detector.py after [parser.parse_args()]. *)
Definition main `{cv : OpenCV} `{fmt : PyFormat} (args : Args) : P World unit :=
  let detector := init (args_min_radius args) (args_max_radius args) in
  call (print ("Detecting circles in " +:+ args_image args +:+ "...")) ;;~
  circles <~ call (detect_circles detector (args_image args) dp_default 100 50 30) ;;
  match circles with
  | None => call (print "No circles detected!")
  | Some _ =>
      info <~ of_result (get_circle_info circles) ;;
      count <~ getitem info "count" ;;
      call (print (NL +:+ "Detected " +:+ fstr count +:+ " circles:")) ;;~
      average_radius <~ getitem info "average_radius" ;;
      call (print ("  Average radius: " +:+ format_1f average_radius)) ;;~
      min_r <~ getitem info "min_radius" ;;
      max_r <~ getitem info "max_radius" ;;
      call (print ("  Radius range: " +:+ fstr min_r +:+ " - " +:+ fstr max_r)) ;;~
      output <~ call (draw_circles (args_image args) circles (args_output args)) ;;
      (if args_extract args
       then call (extract_circles (args_image args) circles "extracted_circles") ;;~
            pret ()
       else pret ()) ;;~
      if args_show args
      then highgui ;;~
           call (print (NL +:+ "Press any key to close...")) ;;~
           highgui ;;~
           highgui
      else pret ()
  end.

(** The state in which [main] calls [detect_circles]. *)
Definition announced (args : Args) (w : World) : World :=
  mkWorld (files w) (dirs w) (heap w)
          (stdout w ++ ["Detecting circles in " +:+ args_image args +:+ "..."]).

(** A computation that leaves the files and the directories as they are,
    whether it returns or fails. *)
Definition keeps_files {A} (m : P World A) : Prop :=
  ∀ w, files (m w).2 = files w ∧ dirs (m w).2 = dirs w.

(** ** The web layer: circle_api.py and app/app.py *)

(** An uploaded file (werkzeug's [FileStorage]): its name as sent by the
    client and its content. *)
Record Upload : Type := {
  filename : string;
  content : File
}.

(** What a route reads of [flask.request]. *)
Record Request : Type := {
  req_files : gmap string Upload;
  req_form : gmap string string
}.

(** The argument of [jsonify]; [JInfo] is the dictionary of
    [get_circle_info]. *)
Inductive json : Type :=
  | JBool (b : bool)
  | JInt (n : Z)
  | JStr (s : string)
  | JInfo (d : gmap string value)
  | JList (l : list json)
  | JObj (d : gmap string json).

(** A response: the body and the status code. *)
Definition Response : Type := (json * Z)%type.

(** Library functions of the web layer: werkzeug's [secure_filename],
    Python's [int] on a string ([None] for a [ValueError]), and the
    base64 text of the PNG encoding of an array and of the bytes of a
    file. *)
Class Web : Type := {
  secure_filename : string → string;
  int_of_str : string → option Z;
  imencode_base64 : Image → string;
  read_base64 : File → string
}.

(** The libraries app/app.py calls: the width and height Pillow's
    [Image.open] finds in a stream ([None] when it cannot identify an
    image), and the error [cv.imread] raises for an argument that is not a
    path (a [TypeError] or a [cv2.error], depending on the version of the
    binding). *)
Class Pillow : Type := {
  Image_open : File → option (Z * Z);
  imread_not_a_path : exn
}.

(** The global [detector] of circle_api.py and the rest of the state. *)
Record Server : Type := mkServer {
  detector : CircleDetector;
  world : World
}.

(** [str(e)] *)
Definition str_exn (e : pyexn) : string :=
  match e with
  | Core (ValueError m) | Core (AttributeError m) | Core (TypeError m)
  | Core (SystemError m) | Core (cv2_error m) => m
  | IndexError m | NameError m | UnidentifiedImageError m => m
  | KeyError k => "'" +:+ k +:+ "'"
  | FileNotFoundError path =>
      "[Errno 2] No such file or directory: '" +:+ path +:+ "'"
  end.

(** A call of detector code on the state of the server. *)
Definition core {A} (m : M A) : P Server A :=
  λ s, match m (world s) with
       | (Ok a, w') => (Done a, mkServer (detector s) w')
       | (Raise e, w') => (Fail (Core e), mkServer (detector s) w')
       end.

(** A call of a method of the global detector. *)
Definition method {A} (f : CircleDetector → M A) : P Server A :=
  λ s, core (f (detector s)) s.

Definition set_files (fs : gmap string File) (s : Server) : Server :=
  mkServer (detector s)
    (mkWorld fs (dirs (world s)) (heap (world s)) (stdout (world s))).

(** [file.save(path)].  The folders of the routes exist (the module
    creates them when it is loaded), and the write is taken to succeed. *)
Definition save (file : Upload) (path : string) : P Server unit :=
  λ s, (Done (), set_files (<[path := content file]> (files (world s))) s).

(** [os.remove(path)] *)
Definition os_remove (path : string) : P Server unit :=
  λ s, match files (world s) !! path with
       | Some _ => (Done (), set_files (delete path (files (world s))) s)
       | None => (Fail (FileNotFoundError path), s)
       end.

(** [open(path, 'rb')] followed by [f.read()] *)
Definition read_file (path : string) : P Server File :=
  λ s, match files (world s) !! path with
       | Some f => (Done f, s)
       | None => (Fail (FileNotFoundError path), s)
       end.

(** [detector.min_radius = a; detector.max_radius = b] *)
Definition set_radii (a b : Z) : P Server unit :=
  λ s, (Done (), mkServer {| min_radius := a; max_radius := b |} (world s)).

(** [request.form.get(key, default, type=int)] *)
Definition form_get_int `{web : Web} (req : Request) (key : string) (default : Z) : Z :=
  match req_form req !! key with
  | Some text =>
      match int_of_str text with
      | Some n => n
      | None => default
      end
  | None => default
  end.

(** [try: m except Exception as e: h(e)] *)
Definition try_except {S A} (m : P S A) (h : pyexn → P S A) : P S A :=
  λ s, match m s with
       | (Fail e, s') => h e s'
       | r => r
       end.

Definition lift_outcome {S A} (o : outcome A) : P S A :=
  match o with
  | Done a => pret a
  | Fail e => pfail e
  end.

(** [l[i]] on an array of circles. *)
Definition circle_at {S} (circles : list Circle) (i : nat) : P S Circle :=
  match circles !! i with
  | Some c => pret c
  | None => pfail (IndexError "index out of bounds")
  end.

(** A loop that carries its local variables, in code that may fail. *)
Fixpoint pfor_fold {S A B} (l : list A) (b : B) (body : B → A → P S B) : P S B :=
  match l with
  | [] => pret b
  | x :: l' => b' <~ body b x ;; pfor_fold l' b' body
  end.

Definition error_response (msg : string) (status : Z) : Response :=
  (JObj {[ "error" := JStr msg ]}, status).

(** The body returned by both routes when no circle is found. *)
Definition no_circles_response : Response :=
  (JObj (<["success" := JBool false]>
        (<["message" := JStr "No circles detected"]>
        (<["count" := JInt 0]> ∅))), 200).

Abbreviation CircleDetector_detect_circles := detect_circles (only parsing).
Abbreviation CircleDetector_draw_circles := draw_circles (only parsing).
Abbreviation CircleDetector_extract_circles := extract_circles (only parsing).

(** The routes of circle_api.py. *)
Module Routes.
Section Routes.
Context `{cv : OpenCV} `{fmt : PyFormat} `{web : Web}.

(** The body of the [try] of [/detect]. *)
Definition detect_circles_try (req : Request) (file : Upload) : P Server Response :=
  let filename := secure_filename (filename file) in
  let filepath := os_path_join "uploads" filename in
  save file filepath ;;~
  let min_radius := form_get_int req "min_radius" 10 in
  let max_radius := form_get_int req "max_radius" 200 in
  set_radii min_radius max_radius ;;~
  circles <~ method (λ self,
    CircleDetector_detect_circles self filepath dp_default 100 50 30) ;;
  match circles with
  | None => pret no_circles_response
  | Some _ =>
      info <~ of_result (get_circle_info circles) ;;
      let output_path := os_path_join "outputs" ("result_" +:+ filename) in
      output_image <~ core (CircleDetector_draw_circles filepath circles
                              (Some output_path)) ;;
      buffer <~ core (load output_image) ;;
      let image_base64 := imencode_base64 buffer in
      os_remove filepath ;;~
      count <~ getitem info "count" ;;
      pret (JObj (<["success" := JBool true]>
                 (<["message" := JStr ("Detected " +:+ fstr count +:+ " circles")]>
                 (<["data" := JInfo info]>
                 (<["result_image" := JStr ("data:image/png;base64," +:+ image_base64)]>
                  ∅)))), 200)
  end.

(** [@app.route('/detect', methods=['POST'])] *)
Definition detect_circles (req : Request) : P Server Response :=
  match req_files req !! "image" with
  | None => pret (error_response "No image file provided" 400)
  | Some file =>
      if bool_decide (filename file = "")
      then pret (error_response "No file selected" 400)
      else
        allowed <~ lift_outcome (Api.allowed_file (filename file)) ;;
        if negb allowed
        then pret (error_response "Invalid file type" 400)
        else try_except (detect_circles_try req file)
               (λ e, pret (error_response (str_exn e) 500))
  end.

(** One turn of the loop of [/extract] over [enumerate(extracted_paths)]. *)
Definition extract_entry (circles : list Circle) (extracted_images : list json)
    (ip : nat * string) : P Server (list json) :=
  let '(i, path) := ip in
  f <~ read_file path ;;
  let img_base64 := read_base64 f in
  c2 <~ circle_at circles i ;;
  c0 <~ circle_at circles i ;;
  c1 <~ circle_at circles i ;;
  pret (extracted_images ++
        [JObj (<["id" := JInt (Z.of_nat i + 1)]>
              (<["radius" := JInt c2.2]>
              (<["center" := JObj (<["x" := JInt c0.1.1]>
                                  (<["y" := JInt c1.1.2]> ∅))]>
              (<["image" := JStr ("data:image/png;base64," +:+ img_base64)]>
               ∅))))]).

(** The body of the [try] of [/extract]. *)
Definition extract_circles_try (file : Upload) : P Server Response :=
  let filename := secure_filename (filename file) in
  let filepath := os_path_join "uploads" filename in
  save file filepath ;;~
  circles <~ method (λ self,
    CircleDetector_detect_circles self filepath dp_default 100 50 30) ;;
  match circles with
  | None =>
      os_remove filepath ;;~
      pret no_circles_response
  | Some rows =>
      let extracted_dir := os_path_join "outputs" "extracted" in
      extracted_paths <~ core (CircleDetector_extract_circles filepath circles
                                 extracted_dir) ;;
      extracted_images <~
        pfor_fold (enumerate extracted_paths) [] (extract_entry rows) ;;
      os_remove filepath ;;~
      pfor_fold extracted_paths () (λ _ path, os_remove path) ;;~
      pret (JObj (<["success" := JBool true]>
                 (<["message" := JStr ("Extracted "
                                       +:+ pretty (length extracted_images)
                                       +:+ " circles")]>
                 (<["count" := JInt (Z.of_nat (length extracted_images))]>
                 (<["circles" := JList extracted_images]> ∅)))), 200)
  end.

(** [@app.route('/extract', methods=['POST'])] *)
Definition extract_circles (req : Request) : P Server Response :=
  match req_files req !! "image" with
  | None => pret (error_response "No image file provided" 400)
  | Some file =>
      allowed <~ lift_outcome (Api.allowed_file (filename file)) ;;
      if negb allowed
      then pret (error_response "Invalid file type" 400)
      else try_except (extract_circles_try file)
             (λ e, pret (error_response (str_exn e) 500))
  end.
End Routes.
End Routes.

(** What [cv.imread] yields for an upload once it is saved. *)
Definition upload_image (file : Upload) : option Image :=
  decode {[ filename file := content file ]} (filename file).

(** The paths the two routes use for an upload. *)
Definition upload_path `{web : Web} (file : Upload) : string :=
  os_path_join "uploads" (secure_filename (filename file)).

Definition result_path `{web : Web} (file : Upload) : string :=
  os_path_join "outputs" ("result_" +:+ secure_filename (filename file)).

(** The radii [/detect] reads from the form. *)
Definition form_radii `{web : Web} (req : Request) : CircleDetector :=
  {| min_radius := form_get_int req "min_radius" 10;
     max_radius := form_get_int req "max_radius" 200 |}.

(** A request that [/detect] answers with status 400. *)
Definition rejected (req : Request) : Prop :=
  match req_files req !! "image" with
  | None => True
  | Some file => filename file = "" ∨ Api.allowed_file (filename file) = Done false
  end.

(** The entry of [/extract] for circle number [i]. *)
Definition circle_json `{cv : OpenCV} `{web : Web} (img : Image) (i : nat) (c : Circle) : json :=
  JObj (<["id" := JInt (Z.of_nat i + 1)]>
       (<["radius" := JInt c.2]>
       (<["center" := JObj (<["x" := JInt c.1.1]> (<["y" := JInt c.1.2]> ∅))]>
       (<["image" := JStr ("data:image/png;base64,"
                           +:+ read_base64 (Raster (extract_region img c)))]>
        ∅)))).

(** The body [/detect] sends for the circles [rows] found in [img]. *)
Definition detected_body `{cv : OpenCV} `{web : Web} (rows : list Circle)
    (img : Image) (info : gmap string value) : json :=
  JObj (<["success" := JBool true]>
       (<["message" := JStr ("Detected " +:+ pretty (Z.of_nat (length rows))
                             +:+ " circles")]>
       (<["data" := JInfo info]>
       (<["result_image" := JStr ("data:image/png;base64,"
                                  +:+ imencode_base64 (annotated rows img))]>
        ∅)))).

(** The body [/extract] sends for the circles [rows] found in [img]. *)
Definition extracted_body `{cv : OpenCV} `{web : Web} (rows : list Circle)
    (img : Image) : json :=
  JObj (<["success" := JBool true]>
       (<["message" := JStr ("Extracted " +:+ pretty (length rows) +:+ " circles")]>
       (<["count" := JInt (Z.of_nat (length rows))]>
       (<["circles" := JList ((λ ic, circle_json img ic.1 ic.2) <$> enumerate rows)]>
        ∅)))).

(** The files left when [paths] are removed one after the other. *)
Definition removed (paths : list string) (fs : gmap string File) : gmap string File :=
  foldl (λ fs p, delete p fs) fs paths.

(** app/app.py *)
Module App.
Definition ALLOWED_EXTENSIONS : gset string :=
  {[ "txt"; "pdf"; "png"; "jpg"; "jpeg"; "gif" ]}.

Definition allowed_file (filename : string) : outcome bool :=
  allowed_in ALLOWED_EXTENSIONS filename.

Section Upload.
Context {S : Type} `{pil : Pillow}.

(** One turn of the loop of [upload_file]; the loop carries [success] and
    [errors].  A [FileStorage] is false when its name is empty. *)
Definition check_file (vars : bool * gmap string json) (file : Upload)
    : P S (bool * gmap string json) :=
  let '(success, errors) := vars in
  accepted <~ (if bool_decide (filename file = "") then pret false
               else lift_outcome (allowed_file (filename file))) ;;
  if accepted : bool
  then pret (true, errors)
  else pret (success,
             <[filename file := JStr "File type is not allowed"]> errors).

(** [Image.open(file.stream)]: the size of the image. *)
Definition PIL_Image_open (file : Upload) : P S (Z * Z) :=
  match Image_open (content file) with
  | Some size => pret size
  | None => pfail (UnidentifiedImageError "cannot identify image file")
  end.

(** [cv.imread(file.stream)]: a stream is no path. *)
Definition imread_stream (file : Upload) : P S (option Image) :=
  pfail (Core imread_not_a_path).

(** Reading a name that is bound nowhere. *)
Definition unbound (name : string) : P S Z :=
  pfail (NameError ("name '" +:+ name +:+ "' is not defined")).

(** [upload_file()]; [files] is [request.files.getlist('fileUpload')],
    empty when ['fileUpload'] is not in [request.files]. *)
Definition upload_file (files : list Upload) : P S Response :=
  match files with
  | [] => pret (JObj {[ "message" := JStr "No file part in the request" ]}, 400)
  | _ =>
      vars <~ pfor_fold files (false, ∅) check_file ;;
      let '(success, errors) := vars in
      if success && negb (bool_decide (size errors = 0%nat))
      then
        let errors :=
          <["message" :=
              JStr "File(s) successfully uploaded But Something went wrong !"]>
            errors in
        pret (JObj errors, 500)
      else if success
      then
        match last files with
        | None => pfail (NameError "name 'file' is not defined")
        | Some file =>
            img <~ PIL_Image_open file ;;
            image <~ imread_stream file ;;
            h <~ unbound "h" ;;
            w <~ unbound "w" ;;
            pret (JObj (<["message" := JStr "Files successfully uploaded"]>
                       (<["size" := JList [JInt img.1; JInt img.2]]>
                       (<["Centroid" := JList [JInt (h / 2); JInt (w / 2)]]>
                       (<["Path_img" := JStr "/Upload"]> ∅)))), 201)
        end
      else pret (JObj errors, 500)
  end.
End Upload.
End App.

(** Whether a file passes the test of the loop of [upload_file]. *)
Definition accepted (file : Upload) : bool :=
  if bool_decide (filename file = "") then false
  else match App.allowed_file (filename file) with
       | Done b => b
       | Fail _ => false
       end.

(** A computation of the server that leaves the detector as it is and
    whose value, when it returns, satisfies [post]. *)
Definition keeps_detector {A} (m : P Server A) (post : A → Prop) : Prop :=
  ∀ s, detector (m s).2 = detector s ∧ ∀ a, (m s).1 = Done a → post a.

(** The dictionary [errors] after the loop of [upload_file]. *)
Definition rejections (files : list Upload) (errors : gmap string json)
    : gmap string json :=
  foldl (λ errors file,
           if accepted file then errors
           else <[filename file := JStr "File type is not allowed"]> errors)
        errors files.

(** Whether one of the three drawing calls of [draw_circles] for the
    circle [c] sets the pixel (col, row) = (i, j). *)
Definition touches `{cv : OpenCV} (c : Circle) (i j : Z) : bool :=
  let '(x, y, r) := c in
  circle_raster (x, y) r 2 i j
  || circle_raster (x, y) 3 (-1) i j
  || text_raster ("r=" +:+ pretty r) (x - 20, y - r - 10)
       FONT_HERSHEY_SIMPLEX (1 # 2) 2 i j.

(** ** A sample OpenCV

    One concrete library, used to run the model on explicit inputs: the
    luminance formula for the grey conversion, no smoothing, a search that
    rejects non-positive [dp], [minDist], [param1], [param2] and otherwise
    reports the circle inscribed in the image when its radius is within
    the bounds, the Euclidean disc or ring for [cv.circle] and a box for
    the text. *)
Module Sample.
Definition luminance (p : Pixel) : Z :=
  match p with
  | [b; g; r] => (114 * b + 587 * g + 299 * r + 500) / 1000
  | _ => 0
  end.

Definition disc (center : Z * Z) (radius thickness px py : Z) : bool :=
  let d2 := (px - center.1) * (px - center.1) + (py - center.2) * (py - center.2) in
  if thickness <? 0 then d2 <=? radius * radius
  else ((radius - thickness) * (radius - thickness) <=? d2)
       && (d2 <=? (radius + thickness) * (radius + thickness)).

Definition text_box (text : string) (org : Z * Z) (font : Z) (scale : Q)
    (thickness px py : Z) : bool :=
  (org.1 <=? px) && (px <? org.1 + 10 * Z.of_nat (String.length text))
  && (org.2 - 10 <=? py) && (py <=? org.2).

Definition hough (src : Mask) (method : Z) (dp : Q) (minDist param1 param2
    minRadius maxRadius : Z) : result (option (list (Q * Q * Q))) :=
  if Qle_bool dp 0 || (minDist <=? 0) || (param1 <=? 0) || (param2 <=? 0)
  then Raise (cv2_error "dp, min_dist, canny_threshold and acc_threshold must be all positive numbers")
  else
    let h := shape0 src in
    let w := shape1 src in
    let r := Z.min h w in
    if (2 * minRadius <=? r) && (r <=? 2 * maxRadius)
    then Ok (Some [(w # 2, h # 2, r # 2)])
    else Ok None.

(** Stand-ins for the codecs and the file system: PNG and BMP keep the
    array, JPEG drops the lowest bit of every value, nothing else can be
    encoded, and only files under [missing/] cannot be written. *)
Definition codec (ext : string) : option (Image → Image) :=
  if bool_decide (ext = "png") then Some (λ img, img)
  else if bool_decide (ext = "bmp") then Some (λ img, img)
  else if bool_decide (ext = "jpg" ∨ ext = "jpeg")
  then Some (λ img : Image,
               (λ row : list Pixel, (λ px : Pixel, (λ v, 2 * (v / 2)) <$> px) <$> row)
               <$> img)
  else None.

Definition can_write (path : string) : bool :=
  negb (String.prefix "missing/" path).

Definition hough_positive :
  ∀ src method dp minDist param1 param2 minRadius maxRadius,
    (dp <= 0)%Q ∨ minDist ≤ 0 →
    ∃ msg, hough src method dp minDist param1 param2 minRadius maxRadius
           = Raise (cv2_error msg) :=
  ltac:(intros src method dp minDist param1 param2 minRadius maxRadius H;
        unfold hough;
        assert (Qle_bool dp 0 || (minDist <=? 0) = true) as E
          by (destruct H as [H|H];
              [apply Qle_bool_iff in H; rewrite H; reflexivity
              |apply Z.leb_le in H; rewrite H; apply orb_true_r]);
        rewrite E; eexists; reflexivity).

#[export] Instance cv : OpenCV := {|
  cvtColor := λ (img : Image) _, (λ row : list Pixel, luminance <$> row) <$> img;
  medianBlur := λ g _, g;
  HoughCircles := hough;
  circle_raster := disc;
  text_raster := text_box;
  encoder := codec;
  writable := can_write;
  HoughCircles_positive := hough_positive;
  encoder_png := eq_refl
|}.

(** A 5 x 5 colour image whose pixel at (col, row) is (10*row + col, 1, 2). *)
Definition image5 : Image :=
  (λ j, (λ i, [10 * j + i; 1; 2]) <$> [0; 1; 2; 3; 4]) <$> [0; 1; 2; 3; 4].

Definition world5 : World :=
  mkWorld {[ "disc.png" := Raster image5 ]} ∅ [] [].

Definition empty_world : World := mkWorld ∅ ∅ [] [].

(** A stand-in for Python's formatting: integers only. *)
#[export] Instance fmt : PyFormat := {|
  format_1f := λ v, match v with VInt n => pretty n +:+ ".0" | _ => "float" end;
  str_value := λ _, "value"
|}.

(** Stand-ins for the libraries of the web layer: a [secure_filename]
    that keeps letters, digits, "_", "-" and ".", an [int] for unsigned
    decimal numbers, and encodings that only tell the size. *)
Definition safe_char (c : ascii) : bool :=
  let n := nat_of_ascii c in
  ((48 <=? n) && (n <=? 57) || (65 <=? n) && (n <=? 90) || (97 <=? n) && (n <=? 122)
   || (n =? 95) || (n =? 45) || (n =? 46))%nat.

Fixpoint keep_safe (s : string) : string :=
  match s with
  | EmptyString => EmptyString
  | String c s' => if safe_char c then String c (keep_safe s') else keep_safe s'
  end.

Fixpoint decimal (s : string) (acc : Z) : option Z :=
  match s with
  | EmptyString => Some acc
  | String c s' =>
      let n := nat_of_ascii c in
      if ((48 <=? n) && (n <=? 57))%nat
      then decimal s' (10 * acc + Z.of_nat (n - 48))
      else None
  end.

Definition size_text (img : Image) : string :=
  pretty (shape0 img) +:+ "x" +:+ pretty (shape1 img).

#[export] Instance web : Web := {|
  secure_filename := keep_safe;
  int_of_str := λ s, match s with EmptyString => None | _ => decimal s 0 end;
  imencode_base64 := size_text;
  read_base64 := λ f, match f with Raster img => size_text img | Blob b => b end
|}.

#[export] Instance pil : Pillow := {|
  Image_open := λ f, match f with
                     | Raster img => Some (shape1 img, shape0 img)
                     | Blob _ => None
                     end;
  imread_not_a_path := TypeError "Can't convert object to 'str' for 'filename'"
|}.

(** A server that has handled no request. *)
Definition server0 : Server := mkServer (init 10 200) empty_world.

Definition upload5 : Upload := {| filename := "disc.png"; content := Raster image5 |}.

(** A request with the 5 x 5 image and a form. *)
Definition request5 (form : gmap string string) : Request :=
  {| req_files := {[ "image" := upload5 ]}; req_form := form |}.
End Sample.

(** ** Slices *)

Section SliceFacts.
Context {A : Type}.
Implicit Types (l : list A).

Lemma slice_index_range len i : 0 ≤ len → 0 ≤ slice_index len i ≤ len.
Proof. unfold slice_index. destruct (Z.ltb_spec i 0); lia. Qed.

Lemma slice_index_id len i : 0 ≤ i ≤ len → slice_index len i = i.
Proof. unfold slice_index. destruct (Z.ltb_spec i 0); lia. Qed.

Lemma py_slice_length l i j :
  length (py_slice l i j) = slice_len (length l) i j.
Proof.
  unfold py_slice, slice_len. rewrite length_take, length_drop.
  pose proof (slice_index_range (Z.of_nat (length l)) i).
  pose proof (slice_index_range (Z.of_nat (length l)) j). lia.
Qed.

Lemma py_slice_lookup l i j k x :
  py_slice l i j !! k = Some x →
  l !! (slice_start (length l) i + k)%nat = Some x
  ∧ (k < slice_len (length l) i j)%nat.
Proof.
  unfold py_slice, slice_start, slice_len. intros H.
  apply lookup_take_Some in H as [H Hk]. rewrite lookup_drop in H. done.
Qed.
End SliceFacts.

Section Slice2Facts.
Context {A : Type}.
Implicit Types (a : ndarray A).

Lemma slice2_lookup a y1 y2 x1 x2 w j i x :
  rect w a →
  at2 (slice2 a y1 y2 x1 x2) j i = Some x →
  at2 a (slice_start (length a) y1 + j) (slice_start w x1 + i) = Some x
  ∧ (j < slice_len (length a) y1 y2)%nat ∧ (i < slice_len w x1 x2)%nat.
Proof.
  intros Hrect. unfold at2, slice2. rewrite list_lookup_fmap.
  destruct (py_slice a y1 y2 !! j) as [row|] eqn:Hrow; [|done]. simpl.
  apply py_slice_lookup in Hrow as [Hrow Hj]. intros Hx.
  apply py_slice_lookup in Hx as [Hx Hi].
  assert (length row = w) as <-.
  { eapply (Forall_lookup_1 _ _ _ _ Hrect Hrow). }
  rewrite Hrow. simpl. done.
Qed.

Lemma slice2_rows a y1 y2 x1 x2 :
  length (slice2 a y1 y2 x1 x2) = slice_len (length a) y1 y2.
Proof. unfold slice2. by rewrite length_fmap, py_slice_length. Qed.

Lemma slice2_cols a y1 y2 x1 x2 w :
  rect w a → rect (slice_len w x1 x2) (slice2 a y1 y2 x1 x2).
Proof.
  intros Hrect. unfold rect, slice2. apply Forall_fmap, Forall_forall.
  intros row Hrow. simpl. rewrite py_slice_length.
  assert (row ∈ a) as Hin.
  { unfold py_slice in Hrow.
    apply list_elem_of_lookup in Hrow as [k Hk].
    apply lookup_take_Some in Hk as [Hk _]. rewrite lookup_drop in Hk.
    eapply list_elem_of_lookup_2, Hk. }
  unfold rect in Hrect. rewrite Forall_forall in Hrect. by rewrite (Hrect _ Hin).
Qed.
End Slice2Facts.

(** ** Masks and the masked copy *)

Section PaintFacts.
Context {A : Type}.
Implicit Types (a : ndarray A).

Lemma at2_paint hit (c : A) a j i :
  at2 (paint hit c a) j i
  = (λ p, if hit (Z.of_nat i) (Z.of_nat j) then c else p) <$> at2 a j i.
Proof.
  unfold at2, paint. rewrite list_lookup_imap.
  destruct (a !! j) as [row|]; [|done]. simpl.
  by rewrite list_lookup_imap.
Qed.

Lemma paint_rows hit (c : A) a : length (paint hit c a) = length a.
Proof. unfold paint. apply length_imap. Qed.

Lemma paint_rect hit (c : A) a w : rect w a → rect w (paint hit c a).
Proof.
  unfold rect, paint. rewrite !Forall_lookup. intros H j row Hrow.
  rewrite list_lookup_imap in Hrow.
  destruct (a !! j) as [row'|] eqn:E; [|done]. simpl in Hrow.
  injection Hrow as <-. rewrite length_imap. eauto.
Qed.

Lemma rect_shape1 a w : rect w a → a ≠ [] → shape1 a = Z.of_nat w.
Proof.
  intros H Hne. destruct a as [|row a']; [done|].
  unfold shape1. simpl. by inversion H; subst.
Qed.
End PaintFacts.

Lemma np_zeros_rows h w : length (np_zeros h w) = Z.to_nat h.
Proof. unfold np_zeros. apply length_replicate. Qed.

Lemma np_zeros_rect h w : rect (Z.to_nat w) (np_zeros h w).
Proof.
  unfold rect, np_zeros. apply Forall_forall. intros row Hrow.
  apply elem_of_replicate in Hrow as [-> _]. apply length_replicate.
Qed.

Lemma zip_with_land_diag (p : Pixel) : zip_with Z.land p p = p.
Proof. induction p as [|c p IH]; simpl; [done|]. by rewrite Z.land_diag, IH. Qed.

(** [cv.bitwise_and(src, src, mask=m)] at one pixel. *)
Lemma bitwise_and_px_diag (p : Pixel) (m : Z) :
  bitwise_and_px p p m = if m =? 0 then (λ _, 0) <$> p else p.
Proof. unfold bitwise_and_px. destruct (m =? 0); [done|apply zip_with_land_diag]. Qed.

Lemma at2_bitwise_and (src : Image) (mask : Mask) j i p :
  at2 (bitwise_and src src mask) j i = Some p →
  ∃ s m, at2 src j i = Some s ∧ at2 mask j i = Some m
         ∧ p = if m =? 0 then (λ _, 0) <$> s else s.
Proof.
  unfold at2, bitwise_and. intros H.
  destruct (zip_with _ (zip src src) mask !! j) as [orow|] eqn:Hrow; [|done].
  simpl in H.
  apply lookup_zip_with_Some in Hrow as ([r1 r2] & mrow & -> & Hz & Hm).
  apply lookup_zip_with_Some in Hz as (a & b & Hab & Ha & Hb).
  injection Hab as -> ->. rewrite Ha in Hb. injection Hb as <-.
  apply lookup_zip_with_Some in H as ([p1 p2] & m & -> & Hz' & Hmi).
  apply lookup_zip_with_Some in Hz' as (s & s' & Hss & Hp1 & Hp2).
  injection Hss as -> ->. rewrite Hp1 in Hp2. injection Hp2 as <-.
  exists s, m. rewrite Ha, Hm. simpl. split_and!; [done..|].
  apply bitwise_and_px_diag.
Qed.

Lemma bitwise_and_rows (src : Image) (mask : Mask) :
  length mask = length src → length (bitwise_and src src mask) = length src.
Proof.
  intros H. unfold bitwise_and. rewrite length_zip_with, length_zip_with. lia.
Qed.

Lemma bitwise_and_rect (src : Image) (mask : Mask) w :
  rect w src → rect w mask → rect w (bitwise_and src src mask).
Proof.
  unfold rect, bitwise_and. rewrite !Forall_lookup. intros Hs Hm j row Hrow.
  apply lookup_zip_with_Some in Hrow as ([r1 r2] & mrow & -> & Hz & Hmr).
  apply lookup_zip_with_Some in Hz as (a & b & Hab & Ha & Hb).
  injection Hab as -> ->.
  rewrite length_zip_with, length_zip_with.
  rewrite (Hs _ _ Ha), (Hs _ _ Hb), (Hm _ _ Hmr). lia.
Qed.

Section ExtractFacts.
Context `{cv : OpenCV}.

Lemma circle_mask_rows image c : length (circle_mask image c) = length image.
Proof.
  destruct c as [[x y] r]. unfold circle_mask.
  rewrite paint_rows, np_zeros_rows. unfold shape0. lia.
Qed.

Lemma circle_mask_rect image c w :
  rect w image → rect w (circle_mask image c).
Proof.
  intros Hrect. destruct c as [[x y] r]. unfold circle_mask.
  apply paint_rect. destruct (decide (image = [])) as [->|Hne].
  { unfold rect. by apply Forall_nil. }
  rewrite (rect_shape1 _ _ Hrect Hne).
  replace w with (Z.to_nat (Z.of_nat w)) at 1 by lia. apply np_zeros_rect.
Qed.

(** The array written for a circle has as many rows and columns as the
    slice [y1:y2, x1:x2] of the source. *)
Lemma extract_region_shape image c w :
  rect w image →
  let '(x1, y1, x2, y2) := crop_box image c in
  length (extract_region image c) = slice_len (length image) y1 y2
  ∧ rect (slice_len w x1 x2) (extract_region image c).
Proof.
  intros Hrect. unfold extract_region.
  destruct (crop_box image c) as [[[x1 y1] x2] y2].
  split.
  - rewrite bitwise_and_rows; rewrite !slice2_rows; [done|].
    by rewrite circle_mask_rows.
  - apply bitwise_and_rect; apply slice2_cols; [done|].
    by apply circle_mask_rect.
Qed.
End ExtractFacts.

Section ExtractClaims.
Context `{cv : OpenCV}.

Lemma at2_circle_mask image x y r j i m :
  at2 (circle_mask image (x, y, r)) j i = Some m →
  m = if circle_raster (x, y) r (-1) (Z.of_nat i) (Z.of_nat j) then 255 else 0.
Proof.
  unfold circle_mask. rewrite at2_paint.
  destruct (at2 (np_zeros _ _) j i) as [z|] eqn:Hz; [|done]. simpl.
  intros [= <-]. unfold at2, np_zeros in Hz.
  destruct (replicate _ _ !! j) as [row|] eqn:Hrow; [|done]. simpl in Hz.
  apply lookup_replicate in Hrow as [-> _].
  apply lookup_replicate in Hz as [-> _]. done.
Qed.

(** C10. For a circle (x, y, r) with r >= 0 whose centre lies inside the
    image, the corners computed by [extract_circles] satisfy
    0 <= x1 <= x2 <= width and 0 <= y1 <= y2 <= height; the slice
    [y1:y2, x1:x2] is then taken as written, it has y2 - y1 rows of
    x2 - x1 pixels, and its pixel (j, i) is the source pixel
    (y1 + j, x1 + i), which lies inside the source array. *)
Theorem crop_box_in_bounds (image : Image) (w : nat) (x y r : Z) :
  rect w image →
  0 ≤ r → 0 ≤ x < shape1 image → 0 ≤ y < shape0 image →
  let '(x1, y1, x2, y2) := crop_box image (x, y, r) in
  (0 ≤ x1 ≤ x2 ∧ x2 ≤ shape1 image)
  ∧ (0 ≤ y1 ≤ y2 ∧ y2 ≤ shape0 image)
  ∧ length (slice2 image y1 y2 x1 x2) = Z.to_nat (y2 - y1)
  ∧ rect (Z.to_nat (x2 - x1)) (slice2 image y1 y2 x1 x2)
  ∧ ∀ j i p, at2 (slice2 image y1 y2 x1 x2) j i = Some p →
      at2 image (Z.to_nat y1 + j) (Z.to_nat x1 + i) = Some p
      ∧ y1 + Z.of_nat j < y2 ∧ x1 + Z.of_nat i < x2.
Proof.
  intros Hrect Hr Hx Hy. unfold crop_box.
  assert (image ≠ []) as Hne.
  { intros ->. unfold shape0 in Hy. simpl in Hy. lia. }
  pose proof (rect_shape1 _ _ Hrect Hne) as Hw.
  set (x1 := Z.max 0 (x - r)). set (y1 := Z.max 0 (y - r)).
  set (x2 := Z.min (shape1 image) (x + r)).
  set (y2 := Z.min (shape0 image) (y + r)).
  assert (0 ≤ x1 ≤ x2 ∧ x2 ≤ shape1 image) as Hbx by lia.
  assert (0 ≤ y1 ≤ y2 ∧ y2 ≤ shape0 image) as Hby by lia.
  assert (slice_start (length image) y1 = Z.to_nat y1) as Hsy.
  { unfold slice_start. rewrite slice_index_id; [done|]. unfold shape0 in Hby. lia. }
  assert (slice_start w x1 = Z.to_nat x1) as Hsx.
  { unfold slice_start. rewrite slice_index_id; [done|]. lia. }
  assert (slice_len (length image) y1 y2 = Z.to_nat (y2 - y1)) as Hly.
  { unfold slice_len. rewrite !slice_index_id; [done|..]; unfold shape0 in Hby; lia. }
  assert (slice_len w x1 x2 = Z.to_nat (x2 - x1)) as Hlx.
  { unfold slice_len. rewrite !slice_index_id; [done|..]; lia. }
  split_and!; [lia..| | |].
  - by rewrite slice2_rows.
  - rewrite <- Hlx. by apply slice2_cols.
  - intros j i p Hp.
    apply (slice2_lookup _ _ _ _ _ w) in Hp as (Hp & Hj & Hi); [|done].
    rewrite Hsy, Hsx in Hp. rewrite Hly in Hj. rewrite Hlx in Hi.
    split; [done|]. lia.
Qed.

(** The shape of the array written for a circle whose box
    [x - r, x + r] x [y - r, y + r] lies inside the image: the slice is
    half open, so it is 2r x 2r. *)
Lemma extract_region_inside (image : Image) (w : nat) (x y r : Z) :
  rect w image →
  0 ≤ r → 0 ≤ x - r → x + r < shape1 image → 0 ≤ y - r → y + r < shape0 image →
  length (extract_region image (x, y, r)) = Z.to_nat (2 * r)
  ∧ rect (Z.to_nat (2 * r)) (extract_region image (x, y, r)).
Proof.
  intros Hrect Hr Hx1 Hx2 Hy1 Hy2.
  assert (image ≠ []) as Hne.
  { intros ->. unfold shape0 in Hy2. simpl in Hy2. lia. }
  pose proof (rect_shape1 _ _ Hrect Hne) as Hw.
  pose proof (extract_region_shape image (x, y, r) w Hrect) as Hs.
  unfold crop_box in Hs. destruct Hs as [Hrows Hcols].
  rewrite Hrows.
  replace (slice_len (length image) _ _) with (Z.to_nat (2 * r)).
  2:{ unfold slice_len. rewrite !slice_index_id; unfold shape0 in *; lia. }
  replace (slice_len w _ _) with (Z.to_nat (2 * r)) in Hcols; [done|].
  unfold slice_len. rewrite !slice_index_id; lia.
Qed.

(** The shape of the array written for a circle whose centre lies inside
    the image, whatever its box: the box is clamped to the image. *)
Lemma extract_region_clamped (image : Image) (w : nat) (x y r : Z) :
  rect w image →
  0 ≤ r → 0 ≤ x < shape1 image → 0 ≤ y < shape0 image →
  length (extract_region image (x, y, r))
    = Z.to_nat (Z.min (shape0 image) (y + r) - Z.max 0 (y - r))
  ∧ rect (Z.to_nat (Z.min (shape1 image) (x + r) - Z.max 0 (x - r)))
         (extract_region image (x, y, r)).
Proof.
  intros Hrect Hr Hx Hy.
  assert (image ≠ []) as Hne.
  { intros ->. unfold shape0 in Hy. simpl in Hy. lia. }
  pose proof (rect_shape1 _ _ Hrect Hne) as Hw.
  pose proof (extract_region_shape image (x, y, r) w Hrect) as Hs.
  unfold crop_box in Hs. destruct Hs as [Hrows Hcols].
  rewrite Hrows. split.
  - unfold slice_len. rewrite !slice_index_id; unfold shape0 in *; lia.
  - replace (Z.to_nat _) with
      (slice_len w (Z.max 0 (x - r)) (Z.min (shape1 image) (x + r))); [done|].
    unfold slice_len. rewrite !slice_index_id; lia.
Qed.

(** C2. On the 5 x 5 image the circle (2, 2, 1) has its box
    [1, 3] x [1, 3] inside the image; the array written for it has
    2 rows of 2 pixels, not 2r + 1 = 3. *)
Theorem extract_region_5x5_is_2x2 :
  let out := extract_region Sample.image5 (2, 2, 1) in
  length out = 2%nat ∧ rect 2 out ∧ length out ≠ Z.to_nat (2 * 1 + 1).
Proof.
  pose proof (extract_region_inside Sample.image5 5 2 2 1) as H.
  destruct H as [Hrows Hcols]; try (vm_compute; congruence).
  { unfold rect, Sample.image5. simpl. by repeat constructor. }
  cbv zeta. rewrite Hrows. split_and!; [done|exact Hcols|lia].
Qed.

(** C6. Every pixel of the array written for a circle is the source
    pixel at the same place of the crop where the disc mask is set, and
    zero in every channel where it is not. *)
Theorem extract_region_masked (image : Image) (w : nat) (x y r : Z)
    (j i : nat) (p : Pixel) :
  rect w image →
  at2 (extract_region image (x, y, r)) j i = Some p →
  let '(x1, y1, x2, y2) := crop_box image (x, y, r) in
  let sj := (slice_start (length image) y1 + j)%nat in
  let si := (slice_start w x1 + i)%nat in
  let in_disc := circle_raster (x, y) r (-1) (Z.of_nat si) (Z.of_nat sj) in
  ∃ src,
    at2 image sj si = Some src
    ∧ at2 (circle_mask image (x, y, r)) sj si = Some (if in_disc then 255 else 0)
    ∧ p = if in_disc then src else (λ _, 0) <$> src.
Proof.
  intros Hrect Hp. unfold extract_region in Hp.
  destruct (crop_box image (x, y, r)) as [[[x1 y1] x2] y2]. cbv zeta.
  apply at2_bitwise_and in Hp as (s & m & Hs & Hm & ->).
  apply (slice2_lookup _ _ _ _ _ w) in Hs as (Hs & _ & _); [|done].
  apply (slice2_lookup _ _ _ _ _ w) in Hm as (Hm & _ & _);
    [|by apply circle_mask_rect].
  rewrite circle_mask_rows in Hm.
  pose proof (at2_circle_mask _ _ _ _ _ _ _ Hm) as Hv.
  exists s. split_and!; [done|by rewrite Hm, Hv|].
  rewrite Hv. by destruct (circle_raster _ _ _ _ _).
Qed.
End ExtractClaims.

(** ** Reading images *)

Lemma decode_unreadable fs path : unreadable fs path → decode fs path = None.
Proof.
  unfold decode. intros [-> | [[b ->] | (img & -> & Hz)]]; [done..|].
  by rewrite bool_decide_eq_true_2.
Qed.

Lemma decode_None fs path : decode fs path = None → unreadable fs path.
Proof.
  unfold decode, unreadable. destruct (fs !! path) as [[img|b]|] eqn:E; [|eauto..].
  case_bool_decide; [|done]. intros _. right; right. eauto.
Qed.

Lemma imread_None path w :
  decode (files w) path = None → imread path w = (Ok None, w).
Proof. unfold imread. by intros ->. Qed.

Lemma imread_Some path w img :
  decode (files w) path = Some img →
  imread path w
  = (Ok (Some (length (heap w))),
     mkWorld (files w) (dirs w) (heap w ++ [img]) (stdout w)).
Proof. unfold imread. by intros ->. Qed.

Lemma load_at l img (w : World) :
  heap w !! l = Some img → load l w = (Ok img, w).
Proof. unfold load. by intros ->. Qed.

Lemma load_app h img rest (w : World) :
  heap w = h ++ img :: rest → load (length h) w = (Ok img, w).
Proof. intros H. apply load_at. rewrite H. by apply list_lookup_middle. Qed.

Lemma lookup_second {A} (h : list A) a b : (h ++ [a; b]) !! S (length h) = Some b.
Proof. rewrite lookup_app_r by lia. by replace (S (length h) - length h)%nat with 1%nat by lia. Qed.

Lemma lookup_first {A} (h : list A) a rest : (h ++ a :: rest) !! length h = Some a.
Proof. by apply list_lookup_middle. Qed.

Section DetectClaims.
Context `{cv : OpenCV}.

Lemma detect_circles_run self path dp min_dist param1 param2 w :
  detect_circles self path dp min_dist param1 param2 w
  = match decode (files w) path with
    | None => (Raise (ValueError ("Cannot read image from " +:+ path)), w)
    | Some img =>
        (search self img dp min_dist param1 param2,
         mkWorld (files w) (dirs w) (heap w ++ [img]) (stdout w))
    end.
Proof.
  unfold detect_circles, bind at 1.
  destruct (decode (files w) path) as [img|] eqn:E.
  - rewrite (imread_Some _ _ _ E). unfold bind at 1.
    rewrite (load_app (heap w) img []); [|done].
    unfold search, bind, lift.
    destruct (HoughCircles _ _ _ _ _ _ _ _) as [[cs|]|e]; done.
  - by rewrite (imread_None _ _ E).
Qed.

(** C1 (as amended). With [dp <= 0] or [min_dist <= 0] the call of
    [detect_circles] fails on every image, though not by a check of its
    own and not before any computation.  When the image cannot be read it
    raises the error for the image and changes nothing.  When the image can
    be read, the image is loaded into a buffer, converted and blurred, and
    the parameters reach [cv.HoughCircles] as they are: the error raised
    is the one of that search.  No file is written on the way. *)
Theorem detect_circles_bad_parameters self path dp min_dist param1 param2 w :
  (dp <= 0)%Q ∨ min_dist ≤ 0 →
  let run := detect_circles self path dp min_dist param1 param2 w in
  (unreadable (files w) path →
   run = (Raise (ValueError ("Cannot read image from " +:+ path)), w))
  ∧ (∀ img, decode (files w) path = Some img →
       (∃ msg, run.1 = Raise (cv2_error msg))
       ∧ heap run.2 = heap w ++ [img]
       ∧ files run.2 = files w).
Proof.
  intros Hbad. cbv zeta. rewrite detect_circles_run. split.
  - intros H. by rewrite (decode_unreadable _ _ H).
  - intros img ->. cbn [fst snd heap files]. split_and!; [|done..].
    unfold search.
    destruct (HoughCircles_positive (medianBlur (cvtColor img COLOR_BGR2GRAY) 5)
                HOUGH_GRADIENT dp min_dist param1 param2
                (min_radius self) (max_radius self) Hbad) as [msg ->].
    by exists msg.
Qed.

(** C8. When the file is missing, does not decode, or has zero height or
    width, [detect_circles] raises the error for the image, before any
    search, and leaves the state as it was. *)
Theorem detect_circles_invalid_image self path dp min_dist param1 param2 w :
  unreadable (files w) path →
  detect_circles self path dp min_dist param1 param2 w
  = (Raise (ValueError ("Cannot read image from " +:+ path)), w).
Proof.
  intros H. rewrite detect_circles_run. by rewrite (decode_unreadable _ _ H).
Qed.

End DetectClaims.

(** C1. The detector of radii 50 to 10, with the default parameters, on
    the 5 x 5 image: the call returns, with nothing found. *)
Lemma detect_circles_bad_radii_no_error :
  min_radius (init 50 10) > max_radius (init 50 10)
  ∧ decode (files Sample.world5) "disc.png" = Some Sample.image5
  ∧ (detect_circles (cv := Sample.cv) (init 50 10) "disc.png" (12 # 10) 100 50 30
       Sample.world5).1
    = Ok None.
Proof. split_and!; [done|reflexivity|reflexivity]. Qed.

(** C1 on an explicit input: [dp = 0] on the 5 x 5 image. *)
Lemma detect_circles_bad_parameters_witness :
  let run := detect_circles (cv := Sample.cv) (init 10 200) "disc.png" 0 100 50 30
               Sample.world5 in
  (∃ msg, run.1 = Raise (cv2_error msg))
  ∧ heap run.2 = [Sample.image5]
  ∧ files run.2 = files Sample.world5.
Proof.
  cbv zeta.
  destruct (detect_circles_bad_parameters (cv := Sample.cv) (init 10 200) "disc.png"
              0 100 50 30 Sample.world5) as [_ Hread].
  - left. discriminate.
  - destruct (Hread Sample.image5 eq_refl) as (Hraise & Hheap & Hfiles).
    split_and!; [exact Hraise|exact Hheap|exact Hfiles].
Defined.

(** The sample search on the 5 x 5 image reports the circle (2.5, 2.5, 2.5);
    [np.round] takes each half to the even neighbour. *)
Example detect_circles_sample :
  (detect_circles (cv := Sample.cv) (init 1 200) "disc.png" (12 # 10) 100 50 30
     Sample.world5).1
  = Ok (Some [(2, 2, 2)]).
Proof. reflexivity. Qed.

(** C8 on an explicit input: a file of height 1 and width 0. *)
Lemma detect_circles_invalid_image_witness :
  detect_circles (cv := Sample.cv) (init 10 200) "flat.png" (12 # 10) 100 50 30
    (mkWorld {[ "flat.png" := Raster [[]] ]} ∅ [] [])
  = (Raise (ValueError "Cannot read image from flat.png"),
     mkWorld {[ "flat.png" := Raster [[]] ]} ∅ [] []).
Proof.
  apply (detect_circles_invalid_image (init 10 200) "flat.png").
  right; right. exists [[]]. split; [reflexivity|]. right. reflexivity.
Defined.

(** ** Annotation *)

Lemma paint_shape1 {A} hit (c : A) (a : ndarray A) : shape1 (paint hit c a) = shape1 a.
Proof.
  destruct a as [|row a]; [done|]. unfold shape1, paint. simpl.
  by rewrite length_imap.
Qed.

Lemma decode_not_empty fs path img : decode fs path = Some img → mat_empty img = false.
Proof.
  unfold decode, mat_empty. destruct (fs !! path) as [[src|]|]; try done.
  case_bool_decide as H; [done|]. intros [= <-]. by rewrite bool_decide_eq_false_2.
Qed.

Section DrawClaims.
Context `{cv : OpenCV}.

Lemma draw_one_run out c w :
  draw_one out c w
  = (Ok (), mkWorld (files w) (dirs w) (alter (annotate_one c) out (heap w)) (stdout w)).
Proof.
  destruct c as [[x y] r].
  unfold draw_one, cv_circle, cv_putText, modify, bind. simpl.
  by rewrite !list_alter_alter_eq.
Qed.

Lemma draw_loop_run circles out w :
  for_ circles (draw_one out) w
  = (Ok (), mkWorld (files w) (dirs w) (alter (annotated circles) out (heap w)) (stdout w)).
Proof.
  revert w. induction circles as [|c circles IH]; intros w; simpl.
  - unfold ret. rewrite list_alter_id; [by destruct w|done].
  - unfold bind. rewrite draw_one_run, IH. simpl.
    by rewrite list_alter_alter_eq.
Qed.

Lemma annotate_one_rows c buf : length (annotate_one c buf) = length buf.
Proof. destruct c as [[x y] r]. unfold annotate_one. by rewrite !paint_rows. Qed.

Lemma annotate_one_shape1 c buf : shape1 (annotate_one c buf) = shape1 buf.
Proof. destruct c as [[x y] r]. unfold annotate_one. by rewrite !paint_shape1. Qed.

Lemma annotated_rows rows img : length (annotated rows img) = length img.
Proof.
  revert img. induction rows as [|c rows IH]; intros img; [done|].
  unfold annotated in *. simpl. by rewrite IH, annotate_one_rows.
Qed.

Lemma annotated_shape1 rows img : shape1 (annotated rows img) = shape1 img.
Proof.
  revert img. induction rows as [|c rows IH]; intros img; [done|].
  unfold annotated in *. simpl. by rewrite IH, annotate_one_shape1.
Qed.

Lemma annotated_not_empty rows img :
  mat_empty img = false → mat_empty (annotated rows img) = false.
Proof. unfold mat_empty, shape0. by rewrite annotated_rows, annotated_shape1. Qed.

(** [cv.imwrite] on an array with pixels. *)
Lemma imwrite_run path img w :
  mat_empty img = false →
  imwrite path img w
  = match find_encoder path with
    | None => (Raise imwrite_no_writer, w)
    | Some codec =>
        if writable path
        then (Ok true,
              mkWorld (<[path := Raster (codec img)]> (files w))
                      (dirs w) (heap w) (stdout w))
        else (Ok false, w)
    end.
Proof. intros H. unfold imwrite. by rewrite H. Qed.

(** The state after [draw_circles] on a readable image and an array of
    circles: the buffer read from the file, then the annotated copy; the
    file and the line of output where an output path is given. *)
Lemma draw_circles_run_full image_path rows output_path w img :
  decode (files w) image_path = Some img →
  draw_circles image_path (Some rows) output_path w
  = match truthy output_path with
    | None =>
        (Ok (S (length (heap w))),
         mkWorld (files w) (dirs w) (heap w ++ [img; annotated rows img]) (stdout w))
    | Some p =>
        match find_encoder p with
        | None =>
            (Raise imwrite_no_writer,
             mkWorld (files w) (dirs w) (heap w ++ [img; annotated rows img])
                     (stdout w))
        | Some codec =>
            (Ok (S (length (heap w))),
             mkWorld (if writable p
                      then <[p := Raster (codec (annotated rows img))]> (files w)
                      else files w)
                     (dirs w) (heap w ++ [img; annotated rows img])
                     (stdout w ++ ["Output saved to " +:+ p]))
        end
    end.
Proof.
  intros Hdec. unfold draw_circles, bind at 1.
  rewrite (imread_Some _ _ _ Hdec).
  unfold bind at 1, ndarray_copy, deref, bind at 1.
  rewrite (load_app (heap w) img []); [|done].
  unfold alloc. simpl. rewrite length_app. simpl.
  replace (length (heap w) + 1)%nat with (S (length (heap w))) by lia.
  unfold bind at 1, iter, ret at 1.
  unfold bind at 1. rewrite draw_loop_run. simpl.
  replace (alter (annotated rows) (S (length (heap w))) ((heap w ++ [img]) ++ [img]))
    with (heap w ++ [img; annotated rows img]).
  2:{ rewrite <- app_assoc. simpl.
      rewrite (alter_app_r_alt _ (heap w)); [|lia].
      replace (S (length (heap w)) - length (heap w))%nat with 1%nat by lia.
      done. }
  destruct (truthy output_path) as [p|].
  - unfold bind at 1 2.
    rewrite (load_at _ (annotated rows img)) by apply lookup_second.
    unfold bind at 1.
    rewrite imwrite_run
      by (apply annotated_not_empty; by eapply decode_not_empty).
    destruct (find_encoder p) as [codec|]; [|done].
    destruct (writable p); unfold print, bind, ret; simpl; done.
  - unfold bind, ret. simpl. done.
Qed.

(** On [None] the copy is made, then the loop raises. *)
Lemma draw_circles_None_run image_path output_path w img :
  decode (files w) image_path = Some img →
  draw_circles image_path None output_path w
  = (Raise (TypeError "'NoneType' object is not iterable"),
     mkWorld (files w) (dirs w) (heap w ++ [img; img]) (stdout w)).
Proof.
  intros Hdec. unfold draw_circles, bind at 1.
  rewrite (imread_Some _ _ _ Hdec).
  unfold bind at 1, ndarray_copy, deref, bind at 1.
  rewrite (load_app (heap w) img []); [|done].
  unfold alloc, bind, iter, raise. simpl. by rewrite <- app_assoc.
Qed.

(** The buffers after [draw_circles] on an array of circles, whether the
    call returns or [cv.imwrite] raises. *)
Lemma draw_circles_heap image_path rows output_path w img :
  decode (files w) image_path = Some img →
  heap (draw_circles image_path (Some rows) output_path w).2
  = heap w ++ [img; annotated rows img].
Proof.
  intros Hdec. rewrite (draw_circles_run_full _ _ _ _ _ Hdec).
  destruct (truthy output_path) as [p|]; [|done].
  by destruct (find_encoder p).
Qed.

(** [draw_circles] returns exactly when no save fails for want of an
    encoder, and then it returns the copy. *)
Lemma draw_circles_result image_path rows output_path w img :
  decode (files w) image_path = Some img →
  (can_save output_path →
   (draw_circles image_path (Some rows) output_path w).1 = Ok (S (length (heap w))))
  ∧ (¬ can_save output_path →
     (draw_circles image_path (Some rows) output_path w).1 = Raise imwrite_no_writer).
Proof.
  intros Hdec. rewrite (draw_circles_run_full _ _ _ _ _ Hdec). unfold can_save.
  destruct (truthy output_path) as [p|]; [|split; [done|]].
  2:{ intros H. exfalso. apply H. done. }
  destruct (find_encoder p) as [codec|] eqn:E; split; try done.
  - intros H. exfalso. apply H. intros ? [= <-]. by rewrite E.
  - intros H. destruct (H p eq_refl) as [? ?]. congruence.
Qed.
End DrawClaims.

Section DrawTheorem.
Context `{cv : OpenCV}.

(** C7 (as amended). On a readable image [draw_circles] leaves the buffer
    read from the file and every older buffer as they were, whatever the
    detection result and the output path are.  For an array of circles the
    drawing is done on another buffer, the copy, and for an array without
    circles the copy holds exactly the pixels of the image.  The copy is
    what the call returns, and it returns unless an output path is given
    for which [cv.imwrite] finds no encoder: then it raises the error of
    [cv.imwrite], after the drawing. *)
Theorem draw_circles_copy image_path (circles : DetectionResult) output_path w img :
  decode (files w) image_path = Some img →
  let run := draw_circles image_path circles output_path w in
  let copy := S (length (heap w)) in
  heap run.2 !! length (heap w) = Some img
  ∧ (∀ l, (l < length (heap w))%nat → heap run.2 !! l = heap w !! l)
  ∧ ∀ rows, circles = Some rows →
      heap run.2 !! copy = Some (annotated rows img)
      ∧ (rows = [] → heap run.2 !! copy = Some img)
      ∧ (can_save output_path → run.1 = Ok copy)
      ∧ (¬ can_save output_path → run.1 = Raise imwrite_no_writer).
Proof.
  intros Hdec run copy. subst run copy. destruct circles as [rows|].
  - rewrite (draw_circles_heap _ _ _ _ _ Hdec). split_and!.
    + apply lookup_first.
    + intros l Hl. by rewrite lookup_app_l.
    + intros ? [= <-].
      destruct (draw_circles_result image_path rows output_path w img Hdec)
        as [Hok Hraise].
      split_and!; [apply lookup_second| |exact Hok|exact Hraise].
      intros ->. apply lookup_second.
  - rewrite (draw_circles_None_run image_path output_path w img Hdec).
    simpl. split_and!; [apply lookup_first| |done].
    intros l Hl. by rewrite lookup_app_l.
Qed.
End DrawTheorem.

(** C7 on an explicit input: the 5 x 5 image and an array without circles,
    saved as a PNG file. *)
Lemma draw_circles_copy_witness :
  let run := draw_circles (cv := Sample.cv) "disc.png" (Some []) (Some "out.png")
               Sample.world5 in
  heap run.2 !! 0%nat = Some Sample.image5
  ∧ heap run.2 !! 1%nat = Some Sample.image5
  ∧ run.1 = Ok 1%nat.
Proof.
  destruct (draw_circles_copy (cv := Sample.cv) "disc.png" (Some []) (Some "out.png")
              Sample.world5 Sample.image5) as (Hsrc & _ & Hrows).
  - reflexivity.
  - destruct (Hrows [] eq_refl) as (_ & Hcopy & Hok & _).
    split_and!; [exact Hsrc|by apply Hcopy|].
    apply Hok. intros p [= <-]. by eexists.
Defined.

(** C7. The empty result of [detect_circles] is [None]; on it
    [draw_circles] returns no image: the loop raises. *)
Lemma draw_circles_absent_result :
  num_circles None = 0%nat
  ∧ (draw_circles (cv := Sample.cv) "disc.png" None None Sample.world5).1
    = Raise (TypeError "'NoneType' object is not iterable").
Proof. split; reflexivity. Qed.

(** ** Extraction to files *)

Lemma list_ascii_app (s t : string) :
  String.list_ascii_of_string (s +:+ t)
  = String.list_ascii_of_string s ++ String.list_ascii_of_string t.
Proof. induction s as [|a s IH]; simpl; [done|]. by rewrite <- IH. Qed.

Lemma string_app_inj_r (s1 s2 t : string) : s1 +:+ t = s2 +:+ t → s1 = s2.
Proof.
  intros H. apply (f_equal String.list_ascii_of_string) in H.
  rewrite !list_ascii_app in H. apply app_inv_tail in H.
  rewrite <- (String.string_of_list_ascii_of_string s1),
          <- (String.string_of_list_ascii_of_string s2). by rewrite H.
Qed.

Lemma string_app_assoc (s t u : string) : (s +:+ t) +:+ u = s +:+ t +:+ u.
Proof.
  induction s as [|a s IH]; [done|].
  change ((String a s +:+ t) +:+ u) with (String a ((s +:+ t) +:+ u)).
  change (String a s +:+ t +:+ u) with (String a (s +:+ t +:+ u)).
  by rewrite IH.
Qed.

Lemma string_length_app (s t : string) :
  String.length (s +:+ t) = (String.length s + String.length t)%nat.
Proof.
  induction s as [|a s IH]; [done|].
  change (String a s +:+ t) with (String a (s +:+ t)). simpl. by rewrite IH.
Qed.

Lemma os_path_join_relative a b c :
  os_path_join a (String "c" b) = os_path_join a (String "c" c) → b = c.
Proof.
  unfold os_path_join.
  destruct (bool_decide (a = "") || endswith_sep a); intros H.
  - apply (inj (String.app a)) in H. by injection H.
  - apply (inj (String.app a)) in H.
    apply (inj (String.app "/")) in H. by injection H.
Qed.

Lemma rsplit_dot_no_dot (s : string) :
  contains "." s = false → rsplit_dot s = [s].
Proof.
  induction s as [|a s IH]; [done|]. simpl. intros H.
  apply orb_false_iff in H as [Ha Hs]. rewrite (IH Hs).
  by rewrite Ha.
Qed.

Lemma rsplit_dot_split (stem ext : string) :
  contains "." ext = false →
  rsplit_dot (stem +:+ "." +:+ ext) = [stem; ext].
Proof.
  intros H. induction stem as [|a stem IH].
  - change ("" +:+ "." +:+ ext) with (String "." ext). simpl.
    by rewrite (rsplit_dot_no_dot _ H).
  - change (String a stem +:+ "." +:+ ext) with (String a (stem +:+ "." +:+ ext)).
    simpl. by rewrite IH.
Qed.

Lemma contains_app (c : ascii) (s t : string) :
  contains c (s +:+ t) = contains c s || contains c t.
Proof.
  induction s as [|a s IH]; [done|].
  change (String a s +:+ t) with (String a (s +:+ t)). simpl.
  by rewrite IH, orb_assoc.
Qed.

(** A name with a "." splits at its last ".". *)
Lemma contains_dot_split (s : string) :
  contains "." s = true →
  ∃ stem ext, s = stem +:+ "." +:+ ext ∧ contains "." ext = false.
Proof.
  induction s as [|a s IH]; [done|]. simpl. intros H.
  destruct (contains "." s) eqn:Hs.
  - destruct (IH eq_refl) as (stem & ext & -> & Hext).
    by exists (String a stem), ext.
  - rewrite orb_false_r in H. apply bool_decide_eq_true in H as ->.
    by exists "", s.
Qed.

(** A file name that ends in ".png" is written by the PNG encoder. *)
Lemma imwrite_ext_png (stem : string) : imwrite_ext (stem +:+ ".png") = Some "png".
Proof.
  unfold imwrite_ext.
  assert ((String.length (stem +:+ ".png") <=? 1)%nat = false) as ->.
  { apply Nat.leb_gt. rewrite string_length_app. simpl. lia. }
  change (stem +:+ ".png") with (stem +:+ "." +:+ "png").
  rewrite rsplit_dot_split by done. reflexivity.
Qed.

Section ExtractFiles.
Context `{cv : OpenCV}.

Lemma find_encoder_png (stem : string) :
  find_encoder (stem +:+ ".png") = Some (λ img, img).
Proof. unfold find_encoder. rewrite imwrite_ext_png. simpl. apply encoder_png. Qed.

Lemma circle_file_inj dir i j : circle_file dir i = circle_file dir j → i = j.
Proof.
  unfold circle_file. intros H.
  change ("circle_" +:+ pretty (i + 1)%nat +:+ ".png")
    with (String "c" ("ircle_" +:+ pretty (i + 1)%nat +:+ ".png")) in H.
  change ("circle_" +:+ pretty (j + 1)%nat +:+ ".png")
    with (String "c" ("ircle_" +:+ pretty (j + 1)%nat +:+ ".png")) in H.
  apply os_path_join_relative in H.
  apply (inj (String.app "ircle_")) in H.
  apply string_app_inj_r in H. apply (inj pretty) in H. lia.
Qed.

Lemma circle_file_png dir i : ∃ stem, circle_file dir i = stem +:+ ".png".
Proof.
  unfold circle_file, os_path_join.
  change ("circle_" +:+ pretty (i + 1)%nat +:+ ".png")
    with (String "c" ("ircle_" +:+ pretty (i + 1)%nat +:+ ".png")).
  cbv iota.
  destruct (bool_decide (dir = "") || endswith_sep dir).
  - exists (dir +:+ "circle_" +:+ pretty (i + 1)%nat).
    by rewrite !string_app_assoc.
  - exists (dir +:+ "/" +:+ "circle_" +:+ pretty (i + 1)%nat).
    by rewrite !string_app_assoc.
Qed.

Lemma find_encoder_circle_file dir i :
  find_encoder (circle_file dir i) = Some (λ img, img).
Proof. destruct (circle_file_png dir i) as [stem ->]. apply find_encoder_png. Qed.

Lemma extract_one_run l img dir acc i c w :
  heap w !! l = Some img →
  extract_one (Some l) dir acc (i, c) w
  = if mat_empty (extract_region img c)
    then (Raise imwrite_empty, w)
    else (Ok (acc ++ [circle_file dir i]),
          mkWorld (if writable (circle_file dir i)
                   then <[circle_file dir i := Raster (extract_region img c)]> (files w)
                   else files w)
                  (dirs w) (heap w) (stdout w)).
Proof.
  intros H. unfold extract_one, deref, bind at 1.
  rewrite (load_at _ _ _ H). unfold bind, imwrite.
  destruct (mat_empty (extract_region img c)); [done|].
  rewrite find_encoder_circle_file.
  destruct (writable (circle_file dir i)); [done|]. by destruct w.
Qed.

Lemma written_cons img dir i c ics fs :
  written img dir ((i, c) :: ics) fs
  = written img dir ics
      (if writable (circle_file dir i)
       then <[circle_file dir i := Raster (extract_region img c)]> fs
       else fs).
Proof. reflexivity. Qed.

(** The loop of [extract_circles] stops at the first crop without
    pixels. *)
Lemma extract_loop_run l img dir ics acc w :
  heap w !! l = Some img →
  for_fold ics acc (extract_one (Some l) dir) w
  = (if all_crops img ics.*2
     then Ok (acc ++ ((λ ic, circle_file dir ic.1) <$> ics))
     else Raise imwrite_empty,
     mkWorld (written img dir (until_empty img ics) (files w))
             (dirs w) (heap w) (stdout w)).
Proof.
  revert acc w. induction ics as [|[i c] ics IH]; intros acc w H.
  - simpl. unfold ret. rewrite app_nil_r. by destruct w.
  - cbn [for_fold]. unfold bind. rewrite (extract_one_run _ _ _ _ _ _ _ H).
    cbn [fmap list_fmap all_crops forallb until_empty snd].
    destruct (mat_empty (extract_region img c)) eqn:E; cbn [negb andb].
    + by destruct w.
    + rewrite IH by exact H. rewrite written_cons. cbn [files dirs heap stdout].
      unfold all_crops. by rewrite <- app_assoc.
Qed.

Lemma until_empty_all img ics :
  all_crops img ics.*2 = true → until_empty img ics = ics.
Proof.
  induction ics as [|[i c] ics IH]; [done|].
  cbn [fmap list_fmap all_crops forallb until_empty snd].
  destruct (mat_empty (extract_region img c)); [done|].
  cbn [negb andb]. intros H. f_equal. by apply IH.
Qed.


Lemma all_crops_true img circles :
  all_crops img circles = true
  ↔ ∀ c, c ∈ circles → mat_empty (extract_region img c) = false.
Proof.
  unfold all_crops. rewrite forallb_forall. split.
  - intros H c Hc. apply negb_true_iff, H. by apply list_elem_of_In.
  - intros H c Hc. apply negb_true_iff, H. by apply list_elem_of_In.
Qed.

Lemma all_crops_false img circles c :
  c ∈ circles → mat_empty (extract_region img c) = true →
  all_crops img circles = false.
Proof.
  intros Hc He. destruct (all_crops img circles) eqn:E; [|done].
  rewrite all_crops_true in E. by rewrite (E c Hc) in He.
Qed.

Lemma written_other img dir ics fs i :
  i ∉ ics.*1 →
  written img dir ics fs !! circle_file dir i = fs !! circle_file dir i.
Proof.
  revert fs. induction ics as [|[j c] ics IH]; intros fs Hi; [done|].
  rewrite fmap_cons in Hi. apply not_elem_of_cons in Hi as [Hne Hi].
  rewrite written_cons, IH by done.
  destruct (writable (circle_file dir j)); [|done].
  apply lookup_insert_ne. intros Heq. apply circle_file_inj in Heq. done.
Qed.

Lemma written_lookup img dir ics fs i c :
  NoDup ics.*1 → (i, c) ∈ ics →
  writable (circle_file dir i) = true →
  written img dir ics fs !! circle_file dir i = Some (Raster (extract_region img c)).
Proof.
  revert fs. induction ics as [|[j d] ics IH]; intros fs Hnd Hin Hw.
  - by apply elem_of_nil in Hin.
  - rewrite fmap_cons in Hnd. apply NoDup_cons in Hnd as [Hj Hnd].
    rewrite written_cons.
    apply elem_of_cons in Hin as [[= -> ->]|Hin].
    + rewrite written_other by done. rewrite Hw. apply lookup_insert_eq.
    + by apply (IH _ Hnd Hin).
Qed.

Lemma written_frame img dir ics fs q :
  (∀ i, i ∈ ics.*1 → q ≠ circle_file dir i) →
  written img dir ics fs !! q = fs !! q.
Proof.
  revert fs. induction ics as [|[j c] ics IH]; intros fs Hq; [done|].
  rewrite written_cons, IH.
  - destruct (writable (circle_file dir j)); [|done].
    apply lookup_insert_ne. intros Heq. apply (Hq j); [|done].
    rewrite fmap_cons. apply list_elem_of_here.
  - intros i Hi. apply Hq. rewrite fmap_cons. by apply list_elem_of_further.
Qed.

Lemma enumerate_from_lookup (k : nat) (cs : list Circle) i :
  enumerate_from k cs !! i = (λ c, ((k + i)%nat, c)) <$> cs !! i.
Proof.
  revert k i. induction cs as [|c cs IH]; intros k [|i]; simpl; [done..| |].
  - by rewrite Nat.add_0_r.
  - rewrite IH. by replace (S k + i)%nat with (k + S i)%nat by lia.
Qed.

Lemma enumerate_from_fst (k : nat) (cs : list Circle) :
  (enumerate_from k cs).*1 = seq k (length cs).
Proof. revert k. induction cs as [|c cs IH]; intros k; simpl; [done|]. by rewrite IH. Qed.

Lemma enumerate_from_snd (k : nat) (cs : list Circle) : (enumerate_from k cs).*2 = cs.
Proof. revert k. induction cs as [|c cs IH]; intros k; simpl; [done|]. by rewrite IH. Qed.
End ExtractFiles.

Section ExtractTheorem.
Context `{cv : OpenCV}.

Lemma enumerate_length (cs : list Circle) : length (enumerate cs) = length cs.
Proof.
  unfold enumerate. rewrite <- (length_fmap fst), enumerate_from_fst.
  apply length_seq.
Qed.

Lemma enumerate_NoDup (cs : list Circle) : NoDup (enumerate cs).*1.
Proof. unfold enumerate. rewrite enumerate_from_fst. apply NoDup_seq. Qed.

Lemma enumerate_elem (cs : list Circle) i c :
  cs !! i = Some c → (i, c) ∈ enumerate cs.
Proof.
  intros H. apply list_elem_of_lookup. exists i.
  unfold enumerate. by rewrite enumerate_from_lookup, H.
Qed.

(** The state after [extract_circles] on a readable image and an array of
    circles: the call returns when every crop has pixels, and raises at
    the first crop without pixels otherwise, before the line is printed. *)
Lemma extract_circles_run_full image_path rows output_dir w img :
  decode (files w) image_path = Some img →
  extract_circles image_path (Some rows) output_dir w
  = if all_crops img rows
    then (Ok ((λ ic, circle_file output_dir ic.1) <$> enumerate rows),
          mkWorld (written img output_dir (enumerate rows) (files w))
                  ({[output_dir]} ∪ dirs w) (heap w ++ [img])
                  (stdout w ++ ["Extracted " +:+ pretty (length rows)
                                  +:+ " circles to " +:+ output_dir +:+ "/"]))
    else (Raise imwrite_empty,
          mkWorld (written img output_dir (until_empty img (enumerate rows)) (files w))
                  ({[output_dir]} ∪ dirs w) (heap w ++ [img]) (stdout w)).
Proof.
  intros Hdec. unfold extract_circles, bind at 1.
  rewrite (imread_Some _ _ _ Hdec).
  unfold bind at 1, mkdir. unfold bind at 1, iter, ret at 1. unfold bind at 1.
  rewrite (extract_loop_run (length (heap w)) img) by apply lookup_first.
  unfold enumerate at 1. rewrite enumerate_from_snd.
  destruct (all_crops img rows) eqn:E; [|done].
  rewrite until_empty_all by (unfold enumerate; by rewrite enumerate_from_snd).
  unfold print, bind, ret. simpl.
  by rewrite length_fmap, enumerate_length.
Qed.

(** Without circles the loop body never runs: for an empty array the
    result is the empty list even when the image cannot be read. *)
Lemma extract_circles_nil image_path output_dir w :
  (extract_circles image_path (Some []) output_dir w).1 = Ok [].
Proof.
  unfold extract_circles, bind at 1, imread.
  destruct (decode (files w) image_path); reflexivity.
Qed.

End ExtractTheorem.



(** What the sample run writes: the paths, and the first crop, two rows of
    two pixels with the disc cut at its right and lower edge. *)
Example extract_circles_sample :
  (extract_circles (cv := Sample.cv) "disc.png" (Some [(2, 2, 1); (0, 4, 2)]) "out"
     Sample.world5).1
  = Ok ["out/circle_1.png"; "out/circle_2.png"]
  ∧ extract_region (cv := Sample.cv) Sample.image5 (2, 2, 1)
    = [[[0; 0; 0]; [12; 1; 2]]; [[21; 1; 2]; [22; 1; 2]]].
Proof. split; vm_compute; reflexivity. Qed.

(** ** Statistics *)

(** C3. For a result without circles, [None] or an empty array,
    [get_circle_info] returns the dictionary whose only key is ["count"],
    with value 0: no mean, minimum, maximum or deviation is in it. *)
Theorem get_circle_info_empty (circles : DetectionResult) :
  num_circles circles = 0%nat →
  ∃ info,
    get_circle_info circles = Ok info
    ∧ info = {[ "count" := VInt 0 ]}
    ∧ info !! "count" = Some (VInt 0)
    ∧ (∀ k, k ≠ "count" → info !! k = None)
    ∧ dom info = {[ "count" ]}.
Proof.
  intros H. exists {[ "count" := VInt 0 ]}. split_and!.
  - destruct circles as [cs|]; [|done]. simpl in H.
    unfold get_circle_info. by rewrite bool_decide_eq_true_2.
  - done.
  - apply lookup_singleton_eq.
  - intros k Hk. by apply lookup_singleton_ne.
  - apply dom_singleton_L.
Qed.

(** C3 on an explicit input: the empty array. *)
Lemma get_circle_info_empty_witness :
  ∃ info,
    get_circle_info (Some []) = Ok info
    ∧ info = {[ "count" := VInt 0 ]}
    ∧ info !! "count" = Some (VInt 0)
    ∧ (∀ k, k ≠ "count" → info !! k = None)
    ∧ dom info = {[ "count" ]}.
Proof. apply (get_circle_info_empty (Some [])). reflexivity. Defined.

Section Stats.
Local Open Scope R_scope.

Lemma foldr_min_spec (x : Z) (xs : list Z) :
  foldr Z.min x xs ∈ x :: xs ∧ ∀ y, y ∈ x :: xs → (foldr Z.min x xs ≤ y)%Z.
Proof.
  induction xs as [|a xs [IHin IHle]]; simpl.
  - split; [apply list_elem_of_here|]. intros y Hy.
    apply list_elem_of_singleton in Hy as ->. lia.
  - split.
    + destruct (Z.min_spec a (foldr Z.min x xs)) as [[_ ->]|[_ ->]].
      * apply list_elem_of_further, list_elem_of_here.
      * apply elem_of_cons in IHin as [->|Hin];
          [apply list_elem_of_here|do 2 apply list_elem_of_further; done].
    + intros y Hy. apply elem_of_cons in Hy as [->|Hy].
      * pose proof (IHle x (list_elem_of_here _ _)). lia.
      * apply elem_of_cons in Hy as [->|Hy]; [lia|].
        pose proof (IHle y (list_elem_of_further _ _ _ Hy)). lia.
Qed.

Lemma foldr_max_spec (x : Z) (xs : list Z) :
  foldr Z.max x xs ∈ x :: xs ∧ ∀ y, y ∈ x :: xs → (y ≤ foldr Z.max x xs)%Z.
Proof.
  induction xs as [|a xs [IHin IHle]]; simpl.
  - split; [apply list_elem_of_here|]. intros y Hy.
    apply list_elem_of_singleton in Hy as ->. lia.
  - split.
    + destruct (Z.max_spec a (foldr Z.max x xs)) as [[_ ->]|[_ ->]].
      * apply elem_of_cons in IHin as [->|Hin];
          [apply list_elem_of_here|do 2 apply list_elem_of_further; done].
      * apply list_elem_of_further, list_elem_of_here.
    + intros y Hy. apply elem_of_cons in Hy as [->|Hy].
      * pose proof (IHle x (list_elem_of_here _ _)). lia.
      * apply elem_of_cons in Hy as [->|Hy]; [lia|].
        pose proof (IHle y (list_elem_of_further _ _ _ Hy)). lia.
Qed.

Lemma np_sum_bounds (a b : Z) (l : list Z) :
  (∀ r, r ∈ l → (a ≤ r ≤ b)%Z) →
  INR (length l) * IZR a <= np_sum (IZR <$> l) <= INR (length l) * IZR b.
Proof.
  induction l as [|r l IH]; intros H.
  - simpl. lra.
  - destruct IH as [IH1 IH2].
    { intros r' Hr'. apply H. by apply list_elem_of_further. }
    destruct (H r (list_elem_of_here _ _)) as [Ha Hb].
    apply IZR_le in Ha, Hb.
    change (length (r :: l)) with (S (length l)). rewrite S_INR.
    change (np_sum (IZR <$> r :: l)) with (IZR r + np_sum (IZR <$> l)).
    lra.
Qed.

Lemma np_mean_bounds (a b : Z) (l : list Z) :
  l ≠ [] → (∀ r, r ∈ l → (a ≤ r ≤ b)%Z) →
  IZR a <= np_mean l <= IZR b.
Proof.
  intros Hne H. destruct (np_sum_bounds a b l H) as [H1 H2].
  assert (0 < INR (length l)) as Hn.
  { apply lt_0_INR. destruct l; [done|simpl; lia]. }
  unfold np_mean. split.
  - apply (Rmult_le_reg_l (INR (length l))); [done|].
    replace (INR (length l) * (np_sum (IZR <$> l) / INR (length l)))
      with (np_sum (IZR <$> l)) by (field; lra). done.
  - apply (Rmult_le_reg_l (INR (length l))); [done|].
    replace (INR (length l) * (np_sum (IZR <$> l) / INR (length l)))
      with (np_sum (IZR <$> l)) by (field; lra). done.
Qed.

(** [np.std] with its default [ddof] is the population deviation. *)
Lemma np_std_population (l : list Z) : np_std l = population_std l.
Proof.
  unfold np_std, population_std, np_var. f_equal. f_equal.
  - f_equal. rewrite <- list_fmap_compose. apply list_fmap_ext.
    intros _ a _. simpl. reflexivity.
  - rewrite INR_IZR_INZ. f_equal. lia.
Qed.

Lemma np_std_nonneg (l : list Z) : 0 <= np_std l.
Proof. unfold np_std. apply sqrt_pos. Qed.
End Stats.

(** C4. For at least one circle [get_circle_info] returns the count, the
    mean of the radii as a float, their minimum and maximum as integers,
    the deviation as a float and the list of circles; the minimum and the
    maximum are radii of the input and bound every radius, the mean lies
    between them, the deviation is not negative and is the population
    deviation (squared deviations from the mean, summed and divided by N),
    and the i-th entry of the list is the i-th circle with its integer
    x, y and radius. *)
Theorem get_circle_info_stats (circles : list Circle) :
  (1 ≤ length circles)%nat →
  let radii := (λ c : Circle, c.2) <$> circles in
  ∃ info mn mx,
    get_circle_info (Some circles) = Ok info
    ∧ info !! "count" = Some (VInt (Z.of_nat (length circles)))
    ∧ info !! "average_radius" = Some (VFloat (np_mean radii))
    ∧ info !! "min_radius" = Some (VInt mn)
    ∧ info !! "max_radius" = Some (VInt mx)
    ∧ info !! "std_radius" = Some (VFloat (np_std radii))
    ∧ info !! "circles" = Some (VList (circle_entry <$> circles))
    ∧ (mn ∈ radii ∧ mx ∈ radii ∧ ∀ r, r ∈ radii → mn ≤ r ≤ mx)
    ∧ (IZR mn <= np_mean radii <= IZR mx)%R
    ∧ (0 <= np_std radii)%R
    ∧ np_std radii = population_std radii
    ∧ (∀ i x y r, circles !! i = Some (x, y, r) →
         (circle_entry <$> circles) !! i
         = Some (VDict (<["x" := VInt x]> (<["y" := VInt y]>
                          (<["radius" := VInt r]> ∅))))).
Proof.
  intros Hlen radii.
  destruct circles as [|c cs]; [simpl in Hlen; lia|].
  set (circles := c :: cs) in *.
  assert (radii = c.2 :: ((λ c : Circle, c.2) <$> cs)) as Hradii by done.
  pose proof (foldr_min_spec c.2 ((λ c : Circle, c.2) <$> cs)) as [Hmin_in Hmin].
  pose proof (foldr_max_spec c.2 ((λ c : Circle, c.2) <$> cs)) as [Hmax_in Hmax].
  rewrite <- Hradii in Hmin_in, Hmin, Hmax_in, Hmax.
  eexists _, (foldr Z.min c.2 ((λ c : Circle, c.2) <$> cs)),
             (foldr Z.max c.2 ((λ c : Circle, c.2) <$> cs)).
  split; [reflexivity|].
  assert (∀ r, r ∈ radii →
            foldr Z.min c.2 ((λ c : Circle, c.2) <$> cs) ≤ r
            ≤ foldr Z.max c.2 ((λ c : Circle, c.2) <$> cs)) as Hb.
  { intros r Hr. split; [by apply Hmin|by apply Hmax]. }
  destruct (np_mean_bounds _ _ radii ltac:(by rewrite Hradii) Hb) as [Hm1 Hm2].
  pose proof (np_std_nonneg radii) as Hstd.
  pose proof (np_std_population radii) as Hpop.
  split_and!; try (by simplify_map_eq); try done.
  intros i x y r Hi. exact (list_lookup_fmap_Some_2 circle_entry _ _ _ Hi).
Qed.

(** C4 on an explicit input: three circles of radius 3, 5 and 4. *)
Lemma get_circle_info_stats_witness :
  let circles : list Circle := [(10, 10, 3); (20, 5, 5); (7, 7, 4)] in
  let radii := (λ c : Circle, c.2) <$> circles in
  ∃ info mn mx,
    get_circle_info (Some circles) = Ok info
    ∧ info !! "count" = Some (VInt (Z.of_nat (length circles)))
    ∧ info !! "average_radius" = Some (VFloat (np_mean radii))
    ∧ info !! "min_radius" = Some (VInt mn)
    ∧ info !! "max_radius" = Some (VInt mx)
    ∧ info !! "std_radius" = Some (VFloat (np_std radii))
    ∧ info !! "circles" = Some (VList (circle_entry <$> circles))
    ∧ (mn ∈ radii ∧ mx ∈ radii ∧ ∀ r, r ∈ radii → mn ≤ r ≤ mx)
    ∧ (IZR mn <= np_mean radii <= IZR mx)%R
    ∧ (0 <= np_std radii)%R
    ∧ np_std radii = population_std radii
    ∧ (∀ i x y r, circles !! i = Some (x, y, r) →
         (circle_entry <$> circles) !! i
         = Some (VDict (<["x" := VInt x]> (<["y" := VInt y]>
                          (<["radius" := VInt r]> ∅))))).
Proof.
  apply (get_circle_info_stats [(10, 10, 3); (20, 5, 5); (7, 7, 4)]).
  simpl. lia.
Defined.

(** The integer fields of the statistics of these three circles. *)
Example get_circle_info_sample :
  ∃ info,
    get_circle_info (Some [(10, 10, 3); (20, 5, 5); (7, 7, 4)]) = Ok info
    ∧ info !! "count" = Some (VInt 3)
    ∧ info !! "min_radius" = Some (VInt 3)
    ∧ info !! "max_radius" = Some (VInt 5).
Proof. eexists. split; [reflexivity|]. split_and!; by simplify_map_eq. Qed.

(** C10 on an explicit input: the circle (0, 4, 2) at the lower left edge
    of the 5 x 5 image. *)
Lemma crop_box_in_bounds_witness :
  let '(x1, y1, x2, y2) := crop_box Sample.image5 (0, 4, 2) in
  (0 ≤ x1 ≤ x2 ∧ x2 ≤ shape1 Sample.image5)
  ∧ (0 ≤ y1 ≤ y2 ∧ y2 ≤ shape0 Sample.image5)
  ∧ length (slice2 Sample.image5 y1 y2 x1 x2) = Z.to_nat (y2 - y1)
  ∧ rect (Z.to_nat (x2 - x1)) (slice2 Sample.image5 y1 y2 x1 x2)
  ∧ ∀ j i p, at2 (slice2 Sample.image5 y1 y2 x1 x2) j i = Some p →
      at2 Sample.image5 (Z.to_nat y1 + j) (Z.to_nat x1 + i) = Some p
      ∧ y1 + Z.of_nat j < y2 ∧ x1 + Z.of_nat i < x2.
Proof.
  apply (crop_box_in_bounds Sample.image5 5 0 4 2).
  - unfold rect, Sample.image5. simpl. by repeat constructor.
  - lia.
  - vm_compute. split; congruence.
  - vm_compute. split; congruence.
Defined.

(** C6 on an explicit input: pixel (0, 1) of the crop of the circle
    (2, 2, 1) of the 5 x 5 image. *)
Lemma extract_region_masked_witness :
  let '(x1, y1, x2, y2) := crop_box Sample.image5 (2, 2, 1) in
  let sj := (slice_start (length Sample.image5) y1 + 0)%nat in
  let si := (slice_start 5 x1 + 1)%nat in
  let in_disc := circle_raster (OpenCV := Sample.cv) (2, 2) 1 (-1) (Z.of_nat si) (Z.of_nat sj) in
  ∃ src,
    at2 Sample.image5 sj si = Some src
    ∧ at2 (circle_mask (cv := Sample.cv) Sample.image5 (2, 2, 1)) sj si
      = Some (if in_disc then 255 else 0)
    ∧ [12; 1; 2] = if in_disc then src else (λ _, 0) <$> src.
Proof.
  apply (extract_region_masked (cv := Sample.cv) Sample.image5 5 2 2 1 0 1 [12; 1; 2]).
  - unfold rect, Sample.image5. simpl. by repeat constructor.
  - reflexivity.
Defined.

(** ** More on detection *)

Lemma np_round_near (q : Q) : (Qabs (inject_Z (np_round q) - q) <= 1 # 2)%Q.
Proof.
  unfold np_round.
  pose proof (Qfloor_le q) as Hlo. pose proof (Qlt_floor q) as Hhi.
  rewrite inject_Z_plus in Hhi. change (inject_Z 1) with 1%Q in Hhi.
  apply Qabs_Qle_condition.
  destruct (Qcompare (q - inject_Z (Qfloor q)) (1 # 2)) eqn:E.
  - apply Qeq_alt in E. destruct (Z.even (Qfloor q)).
    + split; Lqa.lra.
    + rewrite inject_Z_plus. change (inject_Z 1) with 1%Q. split; Lqa.lra.
  - apply Qlt_alt in E. split; Lqa.lra.
  - apply Qgt_alt in E. rewrite inject_Z_plus. change (inject_Z 1) with 1%Q.
    split; Lqa.lra.
Qed.

Lemma np_round_tie_even (q : Q) :
  (q - inject_Z (Qfloor q) == 1 # 2)%Q → Z.even (np_round q) = true.
Proof.
  intros H. unfold np_round. apply Qeq_alt in H. rewrite H.
  destruct (Z.even (Qfloor q)) eqn:E; [exact E|].
  rewrite Z.even_add, E. reflexivity.
Qed.

Lemma np_round_int (z : Z) : np_round (inject_Z z) = z.
Proof.
  unfold np_round. rewrite Qfloor_Z.
  replace (Qcompare (inject_Z z - inject_Z z) (1 # 2)) with Lt; [reflexivity|].
  symmetry. apply (proj1 (Qlt_alt _ _)). Lqa.lra.
Qed.

Section DetectMore.
Context `{cv : OpenCV}.

(** X1. When the search reports circles on a readable image,
    [detect_circles] returns as many rows, in the same order, and every
    x, y and radius of a row is an integer within one half of the value
    the search reported. *)
Theorem detect_circles_rounds self path dp min_dist param1 param2 w img found :
  decode (files w) path = Some img →
  HoughCircles (medianBlur (cvtColor img COLOR_BGR2GRAY) 5) HOUGH_GRADIENT
    dp min_dist param1 param2 (min_radius self) (max_radius self)
  = Ok (Some found) →
  ∃ rows,
    (detect_circles self path dp min_dist param1 param2 w).1 = Ok (Some rows)
    ∧ length rows = length found
    ∧ ∀ i x y r, found !! i = Some (x, y, r) →
        ∃ x' y' r',
          rows !! i = Some (x', y', r')
          ∧ (Qabs (inject_Z x' - x) <= 1 # 2)%Q
          ∧ (Qabs (inject_Z y' - y) <= 1 # 2)%Q
          ∧ (Qabs (inject_Z r' - r) <= 1 # 2)%Q.
Proof.
  intros Hdec Hfound. rewrite detect_circles_run, Hdec. unfold search.
  rewrite Hfound. simpl. eexists. split; [reflexivity|].
  split; [by rewrite length_fmap|].
  intros i x y r Hi. exists (np_round x), (np_round y), (np_round r).
  split; [|split_and!; apply np_round_near].
  rewrite list_lookup_fmap, Hi. done.
Qed.

(** X2. [detect_circles] writes no file, creates no directory and prints
    nothing, whether it returns or raises, and every buffer that existed
    before the call still holds the same array. *)
Theorem detect_circles_frame self path dp min_dist param1 param2 w :
  let w' := (detect_circles self path dp min_dist param1 param2 w).2 in
  files w' = files w ∧ dirs w' = dirs w ∧ stdout w' = stdout w
  ∧ ∀ l buf, heap w !! l = Some buf → heap w' !! l = Some buf.
Proof.
  cbv zeta. rewrite detect_circles_run.
  destruct (decode (files w) path) as [img|]; simpl; split_and!; try done.
  intros l buf Hl. rewrite lookup_app_l; [done|]. by eapply lookup_lt_Some.
Qed.
End DetectMore.

(** X1 on an explicit input: the sample search on the 5 x 5 image. *)
Lemma detect_circles_rounds_witness :
  ∃ rows,
    (detect_circles (cv := Sample.cv) (init 1 200) "disc.png" (12 # 10) 100 50 30
       Sample.world5).1 = Ok (Some rows)
    ∧ length rows = length [(5 # 2, 5 # 2, 5 # 2)%Q]
    ∧ ∀ i x y r, [(5 # 2, 5 # 2, 5 # 2)%Q] !! i = Some (x, y, r) →
        ∃ x' y' r',
          rows !! i = Some (x', y', r')
          ∧ (Qabs (inject_Z x' - x) <= 1 # 2)%Q
          ∧ (Qabs (inject_Z y' - y) <= 1 # 2)%Q
          ∧ (Qabs (inject_Z r' - r) <= 1 # 2)%Q.
Proof.
  apply (detect_circles_rounds (cv := Sample.cv) (init 1 200) "disc.png" (12 # 10)
           100 50 30 Sample.world5 Sample.image5); reflexivity.
Defined.

(** ** More on annotation *)

Section DrawMore.
Context `{cv : OpenCV}.

(** One circle: the label is drawn over the dot, the dot over the ring. *)
Lemma at2_annotate_one x y r buf j i :
  at2 (annotate_one (x, y, r) buf) j i
  = (λ p, if text_raster ("r=" +:+ pretty r) (x - 20, y - r - 10)
               FONT_HERSHEY_SIMPLEX (1 # 2) 2 (Z.of_nat i) (Z.of_nat j)
          then [255; 255; 255]
          else if circle_raster (x, y) 3 (-1) (Z.of_nat i) (Z.of_nat j)
          then [0; 0; 255]
          else if circle_raster (x, y) r 2 (Z.of_nat i) (Z.of_nat j)
          then [0; 255; 0]
          else p) <$> at2 buf j i.
Proof.
  unfold annotate_one. rewrite !at2_paint.
  destruct (at2 buf j i) as [p|]; [|done]. simpl. done.
Qed.

Lemma at2_annotate_one_cases c buf j i p :
  at2 (annotate_one c buf) j i = Some p →
  ∃ q, at2 buf j i = Some q
       ∧ (p = q ∨ p = [0; 255; 0] ∨ p = [0; 0; 255] ∨ p = [255; 255; 255])
       ∧ (touches c (Z.of_nat i) (Z.of_nat j) = false → p = q).
Proof.
  destruct c as [[x y] r]. rewrite at2_annotate_one. unfold touches.
  destruct (at2 buf j i) as [q|]; [|done]. simpl. intros [= <-]. exists q.
  split; [done|].
  destruct (text_raster _ _ _ _ _ _ _), (circle_raster (x, y) 3 (-1) _ _),
    (circle_raster (x, y) r 2 _ _); simpl; split; auto; done.
Qed.

Lemma at2_annotated_cases rows img j i p :
  at2 (annotated rows img) j i = Some p →
  ∃ orig, at2 img j i = Some orig
    ∧ (p = orig ∨ p = [0; 255; 0] ∨ p = [0; 0; 255] ∨ p = [255; 255; 255])
    ∧ ((∀ c, c ∈ rows → touches c (Z.of_nat i) (Z.of_nat j) = false) →
       p = orig).
Proof.
  revert img. induction rows as [|c rows IH]; intros img Hp.
  - exists p. split_and!; auto.
  - unfold annotated in Hp. simpl in Hp. fold (annotated rows (annotate_one c img)) in Hp.
    apply IH in Hp as (mid & Hmid & Hcol & Hun).
    apply at2_annotate_one_cases in Hmid as (orig & Horig & Hcol' & Hun').
    exists orig. split; [done|]. split.
    + destruct Hcol as [->|Hcol]; [done|]. by right.
    + intros Hno. rewrite Hun.
      * apply Hun'. apply Hno. apply list_elem_of_here.
      * intros c' Hc'. apply Hno. by apply list_elem_of_further.
Qed.

(** X3. On a readable image and an array of circles, [draw_circles] with an
    output path that is a non-empty string, for which [cv.imwrite] finds
    an encoder, prints one line naming the path and returns; where the
    file can be written it then holds the encoded annotated image, and
    where it cannot, no file is changed although the line is printed.
    When no encoder is found the call raises the error of [cv.imwrite],
    and nothing is stored or printed.  Without an output path, or with
    the empty string, no file is changed and nothing is printed.  No
    directory is ever created. *)
Theorem draw_circles_saves image_path rows output_path w img :
  decode (files w) image_path = Some img →
  let run := draw_circles image_path (Some rows) output_path w in
  dirs run.2 = dirs w
  ∧ (output_path = None ∨ output_path = Some "" →
     run.1 = Ok (S (length (heap w)))
     ∧ files run.2 = files w ∧ stdout run.2 = stdout w)
  ∧ (∀ p codec, output_path = Some p → p ≠ "" → find_encoder p = Some codec →
     run.1 = Ok (S (length (heap w)))
     ∧ stdout run.2 = stdout w ++ ["Output saved to " +:+ p]
     ∧ files run.2
       = if writable p
         then <[p := Raster (codec (annotated rows img))]> (files w)
         else files w)
  ∧ (∀ p, output_path = Some p → p ≠ "" → find_encoder p = None →
     run.1 = Raise imwrite_no_writer
     ∧ files run.2 = files w ∧ stdout run.2 = stdout w).
Proof.
  intros Hdec. cbv zeta. rewrite (draw_circles_run_full _ _ _ _ _ Hdec).
  split_and!.
  - destruct (truthy output_path) as [p|]; [|done]. by destruct (find_encoder p).
  - by intros [-> | ->].
  - intros p codec -> Hp Henc. destruct p as [|a p]; [done|].
    cbn [truthy]. rewrite Henc. done.
  - intros p -> Hp Henc. destruct p as [|a p]; [done|].
    cbn [truthy]. rewrite Henc. done.
Qed.

(** X4. When the output path of [draw_circles] is the path of the image
    itself, [cv.imwrite] finds an encoder for it and the file can be
    written, the source file is replaced by the encoded annotated image;
    for a PNG file name, reading the path afterwards yields the annotated
    image itself. *)
Theorem draw_circles_overwrites_source image_path rows w img codec :
  decode (files w) image_path = Some img →
  find_encoder image_path = Some codec →
  writable image_path = true →
  let w' := (draw_circles image_path (Some rows) (Some image_path) w).2 in
  files w' !! image_path = Some (Raster (codec (annotated rows img)))
  ∧ (imwrite_ext image_path = Some "png" →
     decode (files w') image_path = Some (annotated rows img)).
Proof.
  intros Hdec Henc Hw. cbv zeta. rewrite (draw_circles_run_full _ _ _ _ _ Hdec).
  destruct image_path as [|a s]; [done|]. cbn [truthy].
  rewrite Henc, Hw. cbn [snd files]. rewrite lookup_insert_eq. split; [done|].
  intros Hpng. unfold find_encoder in Henc. rewrite Hpng in Henc. simpl in Henc.
  rewrite encoder_png in Henc. injection Henc as <-.
  unfold decode. rewrite lookup_insert_eq.
  pose proof (annotated_not_empty rows img (decode_not_empty _ _ _ Hdec)) as Hne.
  unfold mat_empty in Hne. by rewrite Hne.
Qed.

(** X5. [draw_circles] does not test what [cv.imread] returned: on a path
    that holds no image it raises the attribute error of [None.copy()],
    whatever the circles and the output path are, and changes nothing. *)
Theorem draw_circles_unreadable image_path circles output_path w :
  unreadable (files w) image_path →
  draw_circles image_path circles output_path w
  = (Raise (AttributeError "'NoneType' object has no attribute 'copy'"), w).
Proof.
  intros H. apply decode_unreadable in H.
  unfold draw_circles, bind at 1. by rewrite (imread_None _ _ H).
Qed.

(** X6. When [draw_circles] returns, which it does unless an output
    path is given for which [cv.imwrite] finds no encoder, the image it
    returns has the height and width of the original, and each of its
    pixels is the original pixel at that place or one of the three
    drawing colours: green (outline), red (centre) or white (label). *)
Theorem draw_circles_colours image_path rows output_path w img :
  decode (files w) image_path = Some img →
  can_save output_path →
  ∃ out buf,
    (draw_circles image_path (Some rows) output_path w).1 = Ok out
    ∧ heap (draw_circles image_path (Some rows) output_path w).2 !! out = Some buf
    ∧ shape0 buf = shape0 img ∧ shape1 buf = shape1 img
    ∧ ∀ j i p, at2 buf j i = Some p →
        ∃ orig, at2 img j i = Some orig
          ∧ (p = orig ∨ p = [0; 255; 0] ∨ p = [0; 0; 255] ∨ p = [255; 255; 255]).
Proof.
  intros Hdec Hsave. rewrite (draw_circles_heap _ _ _ _ _ Hdec).
  exists (S (length (heap w))), (annotated rows img). split_and!.
  - by apply (draw_circles_result _ _ _ _ _ Hdec).
  - apply lookup_second.
  - unfold shape0. by rewrite annotated_rows.
  - apply annotated_shape1.
  - intros j i p Hp. apply at2_annotated_cases in Hp as (orig & ? & ? & _). eauto.
Qed.

(** X7. When [draw_circles] returns, which it does unless an output
    path is given for which [cv.imwrite] finds no encoder, a pixel that
    none of the drawing calls of any circle sets is, in the image
    returned, the pixel of the original. *)
Theorem draw_circles_untouched image_path rows output_path w img j i :
  decode (files w) image_path = Some img →
  can_save output_path →
  (∀ c, c ∈ rows → touches c (Z.of_nat i) (Z.of_nat j) = false) →
  ∃ out buf,
    (draw_circles image_path (Some rows) output_path w).1 = Ok out
    ∧ heap (draw_circles image_path (Some rows) output_path w).2 !! out = Some buf
    ∧ at2 buf j i = at2 img j i.
Proof.
  intros Hdec Hsave Hno. rewrite (draw_circles_heap _ _ _ _ _ Hdec).
  exists (S (length (heap w))), (annotated rows img). split_and!.
  - by apply (draw_circles_result _ _ _ _ _ Hdec).
  - apply lookup_second.
  - destruct (at2 (annotated rows img) j i) as [p|] eqn:Hp.
    + apply at2_annotated_cases in Hp as (orig & Horig & _ & Hun).
      rewrite Horig. f_equal. by apply Hun.
    + symmetry. unfold at2 in *.
      destruct (annotated rows img !! j) as [row|] eqn:Hrow.
      * simpl in Hp.
        destruct (img !! j) as [row'|] eqn:Hrow'; [|done]. simpl.
        destruct (row' !! i) as [q|] eqn:Hq; [|done]. exfalso.
        assert (length row = length row') as Hlen.
        { clear -Hrow Hrow'. revert img row row' Hrow Hrow'.
          induction rows as [|c rows IH]; intros img row row' Hrow Hrow'.
          - unfold annotated in Hrow. simpl in Hrow. congruence.
          - unfold annotated in Hrow. simpl in Hrow.
            fold (annotated rows (annotate_one c img)) in Hrow.
            destruct (annotate_one c img !! j) as [mid|] eqn:Hmid.
            + rewrite (IH _ _ _ Hrow Hmid). destruct c as [[x y] r].
              unfold annotate_one, paint in Hmid.
              rewrite !list_lookup_imap, Hrow' in Hmid. simpl in Hmid.
              injection Hmid as <-. by rewrite !length_imap.
            + apply lookup_ge_None in Hmid. rewrite annotate_one_rows in Hmid.
              apply lookup_lt_Some in Hrow'. lia. }
        apply lookup_ge_None in Hp. apply lookup_lt_Some in Hq. lia.
      * apply lookup_ge_None in Hrow. rewrite annotated_rows in Hrow.
        apply lookup_ge_None in Hrow. by rewrite Hrow.
Qed.
End DrawMore.

(** X3 on an explicit input: one circle on the 5 x 5 image, saved as a
    JPEG file, which the sample codec rounds down to even values. *)
Lemma draw_circles_saves_witness :
  let run := draw_circles (cv := Sample.cv) "disc.png" (Some [(2, 2, 1)])
               (Some "out.jpg") Sample.world5 in
  ∃ codec,
    Sample.codec "jpg" = Some codec
    ∧ run.1 = Ok 1%nat
    ∧ stdout run.2 = ["Output saved to out.jpg"]
    ∧ files run.2
      = <["out.jpg" := Raster (codec (annotated (cv := Sample.cv) [(2, 2, 1)]
                                        Sample.image5))]>
          (files Sample.world5).
Proof.
  cbv zeta.
  destruct (draw_circles_saves (cv := Sample.cv) "disc.png" [(2, 2, 1)]
              (Some "out.jpg") Sample.world5 Sample.image5) as (_ & _ & Hsave & _).
  - reflexivity.
  - destruct (Sample.codec "jpg") as [codec|] eqn:E; [|discriminate E].
    exists codec. split; [reflexivity|].
    destruct (Hsave "out.jpg" codec eq_refl) as (Hok & Hout & Hfiles);
      [done|exact E|].
    split_and!; [exact Hok|exact Hout|exact Hfiles].
Defined.

(** X4 on an explicit input. *)
Lemma draw_circles_overwrites_source_witness :
  decode (files (draw_circles (cv := Sample.cv) "disc.png" (Some [(2, 2, 1)])
                   (Some "disc.png") Sample.world5).2) "disc.png"
  = Some (annotated (cv := Sample.cv) [(2, 2, 1)] Sample.image5).
Proof.
  destruct (draw_circles_overwrites_source (cv := Sample.cv) "disc.png" [(2, 2, 1)]
              Sample.world5 Sample.image5 (λ img, img)) as [_ Hpng];
    [reflexivity..|].
  by apply Hpng.
Defined.

(** X5 on an explicit input: a path without a file. *)
Lemma draw_circles_unreadable_witness :
  draw_circles (cv := Sample.cv) "missing.png" (Some [(2, 2, 1)]) None Sample.world5
  = (Raise (AttributeError "'NoneType' object has no attribute 'copy'"),
     Sample.world5).
Proof.
  apply (draw_circles_unreadable (cv := Sample.cv) "missing.png").
  left. reflexivity.
Defined.

(** X6 on an explicit input. *)
Lemma draw_circles_colours_witness :
  ∃ out buf,
    (draw_circles (cv := Sample.cv) "disc.png" (Some [(2, 2, 1)]) None
       Sample.world5).1 = Ok out
    ∧ heap (draw_circles (cv := Sample.cv) "disc.png" (Some [(2, 2, 1)]) None
              Sample.world5).2 !! out = Some buf
    ∧ shape0 buf = shape0 Sample.image5 ∧ shape1 buf = shape1 Sample.image5
    ∧ ∀ j i p, at2 buf j i = Some p →
        ∃ orig, at2 Sample.image5 j i = Some orig
          ∧ (p = orig ∨ p = [0; 255; 0] ∨ p = [0; 0; 255] ∨ p = [255; 255; 255]).
Proof.
  apply (draw_circles_colours (cv := Sample.cv) "disc.png" [(2, 2, 1)] None
           Sample.world5 Sample.image5).
  - reflexivity.
  - intros p Hp. discriminate Hp.
Defined.

(** X7 on an explicit input: the circle (0, 0, 0) leaves the pixel in the
    lower right corner of the 5 x 5 image alone. *)
Lemma draw_circles_untouched_witness :
  ∃ out buf,
    (draw_circles (cv := Sample.cv) "disc.png" (Some [(0, 0, 0)]) None
       Sample.world5).1 = Ok out
    ∧ heap (draw_circles (cv := Sample.cv) "disc.png" (Some [(0, 0, 0)]) None
              Sample.world5).2 !! out = Some buf
    ∧ at2 buf 4 4 = at2 Sample.image5 4 4.
Proof.
  apply (draw_circles_untouched (cv := Sample.cv) "disc.png" [(0, 0, 0)] None
           Sample.world5 Sample.image5 4 4).
  - reflexivity.
  - intros p Hp. discriminate Hp.
  - intros c Hc. apply list_elem_of_singleton in Hc as ->. reflexivity.
Defined.

(** ** More on extraction *)

Section ExtractMore.
Context `{cv : OpenCV}.





(** X11. For a circle with r >= 0 whose centre lies inside the image, the
    crop computed by [extract_circles] has
    min(height, y + r) - max(0, y - r) rows of
    min(width, x + r) - max(0, x - r) pixels: the box is cut at the border
    of the image and nothing is padded.  With r >= 1 the crop has at least
    one pixel, so that [cv.imwrite] does not refuse it as empty; with
    r = 0 it has none. *)
Theorem extract_region_clamped_shape (image : Image) (w : nat) (x y r : Z) :
  rect w image →
  0 ≤ r → 0 ≤ x < shape1 image → 0 ≤ y < shape0 image →
  shape0 (extract_region image (x, y, r))
    = Z.min (shape0 image) (y + r) - Z.max 0 (y - r)
  ∧ rect (Z.to_nat (Z.min (shape1 image) (x + r) - Z.max 0 (x - r)))
         (extract_region image (x, y, r))
  ∧ (1 ≤ r → mat_empty (extract_region image (x, y, r)) = false)
  ∧ (r = 0 → mat_empty (extract_region image (x, y, r)) = true).
Proof.
  intros Hrect Hr Hx Hy.
  assert (image ≠ []) as Hne.
  { intros ->. unfold shape0 in Hy. simpl in Hy. lia. }
  pose proof (rect_shape1 _ _ Hrect Hne) as Hw.
  pose proof (extract_region_shape image (x, y, r) w Hrect) as Hs.
  unfold crop_box in Hs. destruct Hs as [Hrows Hcols].
  assert (length (extract_region image (x, y, r))
          = Z.to_nat (Z.min (shape0 image) (y + r) - Z.max 0 (y - r))) as Hlen.
  { rewrite Hrows. unfold slice_len.
    rewrite !slice_index_id; unfold shape0 in *; lia. }
  assert (rect (Z.to_nat (Z.min (shape1 image) (x + r) - Z.max 0 (x - r)))
            (extract_region image (x, y, r))) as Hrect'.
  { replace (Z.to_nat _) with
      (slice_len w (Z.max 0 (x - r)) (Z.min (shape1 image) (x + r))); [done|].
    unfold slice_len. rewrite !slice_index_id; lia. }
  split_and!.
  - unfold shape0 at 1. rewrite Hlen. lia.
  - exact Hrect'.
  - intros Hr1. unfold mat_empty. apply bool_decide_eq_false_2.
    assert (extract_region image (x, y, r) ≠ []) as Hne'.
    { intros H0. rewrite H0 in Hlen. simpl in Hlen. lia. }
    rewrite (rect_shape1 _ _ Hrect' Hne'). unfold shape0 at 1. rewrite Hlen. lia.
  - intros ->. unfold mat_empty. apply bool_decide_eq_true_2. left.
    unfold shape0 at 1. rewrite Hlen. lia.
Qed.

(** X12. For a circle that lies to the left of the image (x + r < 0, r >= 0,
    row of the centre inside the image) the upper column bound of the slice
    is negative and Python counts it from the right border: the array
    written is not empty but has width + (x + r) columns when that number
    is positive, and the usual number of rows. *)
Theorem extract_region_left_of_image (image : Image) (w : nat) (x y r : Z) :
  rect w image →
  0 ≤ r → x + r < 0 → 0 ≤ y < shape0 image →
  shape0 (extract_region image (x, y, r))
    = Z.min (shape0 image) (y + r) - Z.max 0 (y - r)
  ∧ rect (Z.to_nat (shape1 image + (x + r))) (extract_region image (x, y, r)).
Proof.
  intros Hrect Hr Hx Hy.
  assert (image ≠ []) as Hne.
  { intros ->. unfold shape0 in Hy. simpl in Hy. lia. }
  pose proof (rect_shape1 _ _ Hrect Hne) as Hw.
  pose proof (extract_region_shape image (x, y, r) w Hrect) as Hs.
  unfold crop_box in Hs. destruct Hs as [Hrows Hcols].
  split.
  - unfold shape0 at 1. rewrite Hrows. unfold slice_len.
    rewrite !slice_index_id; unfold shape0 in *; lia.
  - replace (Z.to_nat _) with
      (slice_len w (Z.max 0 (x - r)) (Z.min (shape1 image) (x + r))); [done|].
    unfold slice_len, slice_index.
    replace (Z.max 0 (x - r)) with 0 by lia.
    replace (Z.min (shape1 image) (x + r)) with (x + r) by lia.
    destruct (Z.ltb_spec (x + r) 0); [|lia].
    destruct (Z.ltb_spec 0 0); lia.
Qed.
End ExtractMore.




(** X11 on an explicit input: the circle (4, 0, 3) in the upper right
    corner of the 5 x 5 image. *)
Lemma extract_region_clamped_shape_witness :
  shape0 (extract_region (cv := Sample.cv) Sample.image5 (4, 0, 3))
    = Z.min (shape0 Sample.image5) (0 + 3) - Z.max 0 (0 - 3)
  ∧ rect (Z.to_nat (Z.min (shape1 Sample.image5) (4 + 3) - Z.max 0 (4 - 3)))
         (extract_region (cv := Sample.cv) Sample.image5 (4, 0, 3))
  ∧ (1 ≤ 3 → mat_empty (extract_region (cv := Sample.cv) Sample.image5 (4, 0, 3))
             = false)
  ∧ (3 = 0 → mat_empty (extract_region (cv := Sample.cv) Sample.image5 (4, 0, 3))
             = true).
Proof.
  apply (extract_region_clamped_shape (cv := Sample.cv) Sample.image5 5 4 0 3).
  - unfold rect, Sample.image5. simpl. by repeat constructor.
  - lia.
  - vm_compute. split; congruence.
  - vm_compute. split; congruence.
Defined.

(** X12 on an explicit input: the circle (-3, 2, 1) lies left of the 5 x 5
    image; the array written has 5 - 2 = 3 columns. *)
Lemma extract_region_left_of_image_witness :
  shape0 (extract_region (cv := Sample.cv) Sample.image5 (-3, 2, 1))
    = Z.min (shape0 Sample.image5) (2 + 1) - Z.max 0 (2 - 1)
  ∧ rect (Z.to_nat (shape1 Sample.image5 + (-3 + 1)))
         (extract_region (cv := Sample.cv) Sample.image5 (-3, 2, 1)).
Proof.
  apply (extract_region_left_of_image (cv := Sample.cv) Sample.image5 5 (-3) 2 1).
  - unfold rect, Sample.image5. simpl. by repeat constructor.
  - lia.
  - lia.
  - vm_compute. split; congruence.
Defined.

(** ** More on the statistics *)

(** X13. [get_circle_info] never raises: [np.min] and [np.max] are only
    reached with at least one radius.  Its result always has the key
    ["count"], whose value is the number of circles (0 for [None]). *)
Theorem get_circle_info_total (circles : DetectionResult) :
  ∃ info,
    get_circle_info circles = Ok info
    ∧ info !! "count" = Some (VInt (Z.of_nat (num_circles circles))).
Proof.
  destruct circles as [[|c cs]|].
  - eexists. split; [reflexivity|]. by simplify_map_eq.
  - eexists. split; [reflexivity|]. by simplify_map_eq.
  - eexists. split; [reflexivity|]. by simplify_map_eq.
Qed.

(** X14. For at least one circle the dictionary of [get_circle_info] has
    exactly the six keys count, average_radius, min_radius, max_radius,
    std_radius and circles, and the list under "circles" is as long as the
    count says. *)
Theorem get_circle_info_keys (circles : list Circle) :
  (1 ≤ length circles)%nat →
  ∃ info entries,
    get_circle_info (Some circles) = Ok info
    ∧ dom info = {[ "count"; "average_radius"; "min_radius"; "max_radius";
                    "std_radius"; "circles" ]}
    ∧ info !! "circles" = Some (VList entries)
    ∧ info !! "count" = Some (VInt (Z.of_nat (length entries))).
Proof.
  intros Hlen. destruct circles as [|c cs]; [simpl in Hlen; lia|].
  eexists _, (circle_entry <$> c :: cs). split; [reflexivity|]. split_and!.
  - rewrite !dom_insert_L, dom_empty_L. set_solver.
  - by simplify_map_eq.
  - rewrite lookup_insert_eq. do 3 f_equal. by rewrite length_fmap.
Qed.

Section StatsMore.
Local Open Scope R_scope.

Lemma np_sum_const (r : R) (l : list Z) :
  (∀ a, a ∈ l → IZR a = r) → np_sum (IZR <$> l) = INR (length l) * r.
Proof.
  induction l as [|a l IH]; intros H.
  - simpl. lra.
  - change (length (a :: l)) with (S (length l)). rewrite S_INR.
    change (np_sum (IZR <$> a :: l)) with (IZR a + np_sum (IZR <$> l)).
    rewrite IH, (H a (list_elem_of_here _ _)); [lra|].
    intros b Hb. apply H. by apply list_elem_of_further.
Qed.

Lemma np_mean_const (r : Z) (l : list Z) :
  l ≠ [] → (∀ a, a ∈ l → a = r) → np_mean l = IZR r.
Proof.
  intros Hne H. unfold np_mean.
  rewrite (np_sum_const (IZR r)); [|intros a Ha; by rewrite (H a Ha)].
  assert (0 < INR (length l)).
  { apply lt_0_INR. destruct l; [done|simpl; lia]. }
  field. lra.
Qed.

Lemma np_sum_squares_nonneg (m : R) (l : list Z) :
  0 <= np_sum ((λ d, d * d) <$> ((λ a, IZR a - m) <$> l)).
Proof.
  induction l as [|a l IH].
  - unfold np_sum. simpl. lra.
  - change (0 <= (IZR a - m) * (IZR a - m)
                 + np_sum ((λ d, d * d) <$> ((λ a, IZR a - m) <$> l))).
    pose proof (Rle_0_sqr (IZR a - m)) as H. unfold Rsqr in H. lra.
Qed.

Lemma np_sum_squares_zero (m : R) (l : list Z) :
  np_sum ((λ d, d * d) <$> ((λ a, IZR a - m) <$> l)) = 0 →
  ∀ a, a ∈ l → IZR a = m.
Proof.
  induction l as [|b l IH]; intros Hs a Ha.
  - by apply elem_of_nil in Ha.
  - change ((IZR b - m) * (IZR b - m)
            + np_sum ((λ d, d * d) <$> ((λ a, IZR a - m) <$> l)) = 0) in Hs.
    pose proof (Rle_0_sqr (IZR b - m)) as Hb. unfold Rsqr in Hb.
    pose proof (np_sum_squares_nonneg m l) as Hl.
    assert ((IZR b - m) * (IZR b - m) = 0) as Hb0 by lra.
    assert (np_sum ((λ d, d * d) <$> ((λ a, IZR a - m) <$> l)) = 0) as Hl0 by lra.
    apply elem_of_cons in Ha as [->|Ha].
    + apply Rmult_integral in Hb0. lra.
    + by apply IH.
Qed.

(** The deviation is 0 exactly when all radii are equal; the mean is then
    that radius. *)
Lemma np_std_zero_iff (radii : list Z) :
  radii ≠ [] →
  (np_std radii = 0 ↔ ∃ r, ∀ a, a ∈ radii → a = r)
  ∧ ∀ r, (∀ a, a ∈ radii → a = r) → np_mean radii = IZR r.
Proof.
  intros Hne.
  assert (0 < INR (length radii)) as Hn.
  { apply lt_0_INR. destruct radii; [done|simpl; lia]. }
  assert (IZR (Z.max (Z.of_nat (length radii) - 0) 0) = INR (length radii)) as Hd.
  { rewrite INR_IZR_INZ. f_equal. lia. }
  split; [split|].
  - intros Hstd. unfold np_std in Hstd.
    apply sqrt_eq_0 in Hstd.
    2:{ unfold np_var. rewrite Hd. apply Rmult_le_pos.
        - apply np_sum_squares_nonneg.
        - left. by apply Rinv_0_lt_compat. }
    unfold np_var in Hstd. rewrite Hd in Hstd.
    assert (np_sum ((λ d, d * d) <$> ((λ a, IZR a - np_mean radii) <$> radii)) = 0)
      as Hsum.
    { apply (Rmult_eq_reg_r (/ INR (length radii))).
      - rewrite Rmult_0_l. exact Hstd.
      - apply Rinv_neq_0_compat. lra. }
    pose proof (np_sum_squares_zero _ _ Hsum) as Hall.
    destruct radii as [|r0 rest]; [done|].
    exists r0. intros a Ha. apply eq_IZR.
    rewrite (Hall a Ha), (Hall r0 (list_elem_of_here _ _)). done.
  - intros [r Hr]. unfold np_std, np_var.
    rewrite (np_mean_const r) by done.
    replace (np_sum _) with 0; [unfold Rdiv; rewrite Rmult_0_l; apply sqrt_0|].
    clear -Hr. induction radii as [|a l IH]; [done|].
    change (0 = (IZR a - IZR r) * (IZR a - IZR r)
                + np_sum ((λ d, d * d) <$> ((λ a, IZR a - IZR r) <$> l))).
    rewrite <- IH.
    + rewrite (Hr a (list_elem_of_here _ _)). lra.
    + intros b Hb. apply Hr. by apply list_elem_of_further.
  - intros r Hr. by apply np_mean_const.
Qed.
End StatsMore.

(** X14 on an explicit input. *)
Lemma get_circle_info_keys_witness :
  ∃ info entries,
    get_circle_info (Some [(10, 10, 3); (20, 5, 5)]) = Ok info
    ∧ dom info = {[ "count"; "average_radius"; "min_radius"; "max_radius";
                    "std_radius"; "circles" ]}
    ∧ info !! "circles" = Some (VList entries)
    ∧ info !! "count" = Some (VInt (Z.of_nat (length entries))).
Proof.
  apply (get_circle_info_keys [(10, 10, 3); (20, 5, 5)]). simpl. lia.
Defined.

(** X15. For at least one circle, the deviation reported by
    [get_circle_info] is 0 exactly when all circles have the same radius,
    and the reported mean is then that radius. *)
Theorem get_circle_info_equal_radii (circles : list Circle) :
  (1 ≤ length circles)%nat →
  ∃ info mean std,
    get_circle_info (Some circles) = Ok info
    ∧ info !! "average_radius" = Some (VFloat mean)
    ∧ info !! "std_radius" = Some (VFloat std)
    ∧ (std = 0%R ↔ ∃ r, ∀ c : Circle, c ∈ circles → c.2 = r)
    ∧ (∀ r, (∀ c : Circle, c ∈ circles → c.2 = r) → mean = IZR r).
Proof.
  intros Hlen. destruct circles as [|c cs]; [simpl in Hlen; lia|].
  set (circles := c :: cs).
  set (radii := (λ c : Circle, c.2) <$> circles).
  assert (radii ≠ []) as Hne by done.
  destruct (np_std_zero_iff radii Hne) as [Hiff Hmean].
  assert (∀ r, (∀ a, a ∈ radii → a = r) ↔ (∀ c : Circle, c ∈ circles → c.2 = r))
    as Hall.
  { intros r. split.
    - intros H c' Hc'. apply H. subst radii.
      by apply (list_elem_of_fmap_2 (λ c : Circle, c.2)).
    - intros H a Ha. subst radii.
      apply list_elem_of_fmap in Ha as (c' & -> & Hc'). by apply H. }
  exists (<["count" := VInt (Z.of_nat (length circles))]>
         (<["average_radius" := VFloat (np_mean radii)]>
         (<["min_radius" := VInt (foldr Z.min c.2 ((λ c : Circle, c.2) <$> cs))]>
         (<["max_radius" := VInt (foldr Z.max c.2 ((λ c : Circle, c.2) <$> cs))]>
         (<["std_radius" := VFloat (np_std radii)]>
         (<["circles" := VList (circle_entry <$> circles)]> ∅)))))),
         (np_mean radii), (np_std radii).
  split_and!; [done|by simplify_map_eq|by simplify_map_eq| |].
  - rewrite Hiff. split; intros [r Hr]; exists r; by apply Hall.
  - intros r Hr. apply Hmean. by apply Hall.
Qed.

(** X15 on an explicit input: two circles of radius 4. *)
Lemma get_circle_info_equal_radii_witness :
  ∃ info mean std,
    get_circle_info (Some [(1, 2, 4); (9, 9, 4)]) = Ok info
    ∧ info !! "average_radius" = Some (VFloat mean)
    ∧ info !! "std_radius" = Some (VFloat std)
    ∧ (std = 0%R ↔ ∃ r, ∀ c : Circle, c ∈ [(1, 2, 4); (9, 9, 4)] → c.2 = r)
    ∧ (∀ r, (∀ c : Circle, c ∈ [(1, 2, 4); (9, 9, 4)] → c.2 = r) → mean = IZR r).
Proof.
  apply (get_circle_info_equal_radii [(1, 2, 4); (9, 9, 4)]). simpl. lia.
Defined.

(** ** File names *)

Example allowed_file_samples :
  Api.allowed_file "photo.PNG" = Done true
  ∧ Api.allowed_file "archive.tar.gz" = Done false
  ∧ Api.allowed_file "photo.png.exe" = Done false
  ∧ Api.allowed_file "png" = Done false
  ∧ Api.allowed_file "photo." = Done false
  ∧ Api.allowed_file ".bmp" = Done true
  ∧ App.allowed_file "notes.TXT" = Done true
  ∧ App.allowed_file "scan.bmp" = Done false.
Proof. vm_compute. repeat split. Qed.

Lemma allowed_in_split exts stem ext :
  contains "." ext = false →
  allowed_in exts (stem +:+ "." +:+ ext) = Done (bool_decide (lower ext ∈ exts)).
Proof.
  intros H. unfold allowed_in.
  rewrite contains_app. change (contains "." ("." +:+ ext)) with true.
  rewrite orb_true_r, (rsplit_dot_split _ _ H). done.
Qed.

Lemma allowed_in_spec exts filename :
  ∃ b, allowed_in exts filename = Done b
    ∧ (b = true ↔ ∃ stem ext, filename = stem +:+ "." +:+ ext
                    ∧ contains "." ext = false ∧ lower ext ∈ exts).
Proof.
  destruct (contains "." filename) eqn:Hdot.
  - destruct (contains_dot_split _ Hdot) as (stem & ext & -> & Hext).
    rewrite (allowed_in_split _ _ _ Hext). eexists. split; [done|].
    rewrite bool_decide_eq_true. split.
    + intros Hin. by exists stem, ext.
    + intros (stem' & ext' & Heq & Hext' & Hin).
      assert (rsplit_dot (stem +:+ "." +:+ ext) = [stem'; ext']) as H2.
      { rewrite Heq. by apply rsplit_dot_split. }
      rewrite (rsplit_dot_split _ _ Hext) in H2. by injection H2 as -> ->.
  - exists false. unfold allowed_in. rewrite Hdot. split; [done|].
    split; [done|]. intros (stem & ext & -> & _ & _).
    rewrite contains_app in Hdot. change (contains "." ("." +:+ ext)) with true in Hdot.
    by rewrite orb_true_r in Hdot.
Qed.

(** X16. [allowed_file] of circle_api.py never raises (the index 1 is
    only taken of a name with a "."), and it accepts a file name exactly
    when the name has a "." and the part after the last ".", in lower
    case, is png, jpg, jpeg, gif or bmp. *)
Theorem api_allowed_file_spec (filename : string) :
  ∃ b, Api.allowed_file filename = Done b
    ∧ (b = true ↔ ∃ stem ext, filename = stem +:+ "." +:+ ext
                    ∧ contains "." ext = false
                    ∧ lower ext ∈ Api.ALLOWED_EXTENSIONS).
Proof. apply allowed_in_spec. Qed.

Lemma lower_ascii_idemp (c : ascii) : lower_ascii (lower_ascii c) = lower_ascii c.
Proof. destruct c as [[] [] [] [] [] [] [] []]; reflexivity. Qed.

Lemma lower_ascii_dot (c : ascii) :
  bool_decide (lower_ascii c = "."%char) = bool_decide (c = "."%char).
Proof. destruct c as [[] [] [] [] [] [] [] []]; reflexivity. Qed.

Lemma lower_idemp (s : string) : lower (lower s) = lower s.
Proof. induction s as [|a s IH]; simpl; [done|]. by rewrite lower_ascii_idemp, IH. Qed.

Lemma contains_dot_lower (s : string) : contains "." (lower s) = contains "." s.
Proof. induction s as [|a s IH]; simpl; [done|]. by rewrite lower_ascii_dot, IH. Qed.

Lemma rsplit_dot_lower (s : string) : rsplit_dot (lower s) = lower <$> rsplit_dot s.
Proof.
  induction s as [|a s IH]; [done|]. simpl. rewrite IH, lower_ascii_dot.
  destruct (rsplit_dot s) as [|x [|y [|z l]]]; simpl; try done;
    by destruct (bool_decide (a = "."%char)).
Qed.

Lemma allowed_in_lower exts (s : string) : allowed_in exts (lower s) = allowed_in exts s.
Proof.
  unfold allowed_in. rewrite contains_dot_lower, rsplit_dot_lower.
  destruct (contains "." s); [|done]. unfold getitem1.
  rewrite list_lookup_fmap. destruct (rsplit_dot s !! 1%nat) as [ext|]; simpl; [|done].
  by rewrite lower_idemp.
Qed.

(** X17. Both [allowed_file] functions ignore the case of letters: two
    file names that differ only in case get the same answer. *)
Theorem allowed_file_case_insensitive (s t : string) :
  lower s = lower t →
  Api.allowed_file s = Api.allowed_file t ∧ App.allowed_file s = App.allowed_file t.
Proof.
  intros H. unfold Api.allowed_file, App.allowed_file.
  rewrite <- (allowed_in_lower _ s), <- (allowed_in_lower _ t), H.
  split; [done|].
  by rewrite <- (allowed_in_lower _ s), <- (allowed_in_lower _ t), H.
Qed.

Lemma allowed_file_case_insensitive_witness :
  Api.allowed_file "Photo.JPG" = Api.allowed_file "photo.jpg"
  ∧ App.allowed_file "Photo.JPG" = App.allowed_file "photo.jpg".
Proof. apply (allowed_file_case_insensitive "Photo.JPG" "photo.jpg"). reflexivity. Defined.

(** X18. The filters of circle_api.py and of app/app.py give different
    answers exactly for the names whose part after the last ".", in lower
    case, is txt, pdf (accepted by app/app.py only) or bmp (accepted by
    circle_api.py only). *)
Theorem allowed_file_filters_differ (filename : string) :
  Api.allowed_file filename ≠ App.allowed_file filename
  ↔ ∃ stem ext, filename = stem +:+ "." +:+ ext
      ∧ contains "." ext = false
      ∧ lower ext ∈ ({[ "txt"; "pdf"; "bmp" ]} : gset string).
Proof.
  unfold Api.allowed_file, App.allowed_file.
  destruct (contains "." filename) eqn:Hdot.
  - destruct (contains_dot_split _ Hdot) as (stem & ext & -> & Hext).
    rewrite !(allowed_in_split _ _ _ Hext).
    assert (∀ stem' ext', stem +:+ "." +:+ ext = stem' +:+ "." +:+ ext' →
              contains "." ext' = false → ext' = ext) as Huniq.
    { intros stem' ext' Heq Hext'.
      assert (rsplit_dot (stem +:+ "." +:+ ext) = [stem'; ext']) as H2.
      { rewrite Heq. by apply rsplit_dot_split. }
      rewrite (rsplit_dot_split _ _ Hext) in H2. by injection H2 as -> ->. }
    unfold Api.ALLOWED_EXTENSIONS, App.ALLOWED_EXTENSIONS. split.
    + intros Hne. exists stem, ext. split_and!; [done..|].
      destruct (decide (lower ext ∈ ({[ "txt"; "pdf"; "bmp" ]} : gset string)))
        as [|Hnot]; [done|].
      exfalso. apply Hne. f_equal. apply bool_decide_ext.
      set_unfold. tauto.
    + intros (stem' & ext' & Heq & Hext' & Hin).
      rewrite (Huniq _ _ Heq Hext') in Hin. set_unfold in Hin.
      destruct Hin as [[-> | ->] | ->]; by vm_compute.
  - unfold allowed_in. rewrite Hdot. split; [done|].
    intros (stem & ext & -> & _ & _).
    rewrite contains_app in Hdot. change (contains "." ("." +:+ ext)) with true in Hdot.
    by rewrite orb_true_r in Hdot.
Qed.

(** ** The command line *)

Section MainFacts.
Context `{cv : OpenCV} `{fmt : PyFormat}.

Lemma main_run args w :
  main args w
  = match decode (files w) (args_image args) with
    | None =>
        (Fail (Core (ValueError ("Cannot read image from " +:+ args_image args))),
         announced args w)
    | Some img =>
        let w1 := mkWorld (files w) (dirs w) (heap w ++ [img])
                    (stdout (announced args w)) in
        match search (init (args_min_radius args) (args_max_radius args)) img
                dp_default 100 50 30 with
        | Raise e => (Fail (Core e), w1)
        | Ok None => call (print "No circles detected!") w1
        | Ok (Some rows) =>
            (info <~ of_result (get_circle_info (Some rows)) ;;
             count <~ getitem info "count" ;;
             call (print (NL +:+ "Detected " +:+ fstr count +:+ " circles:")) ;;~
             average_radius <~ getitem info "average_radius" ;;
             call (print ("  Average radius: " +:+ format_1f average_radius)) ;;~
             min_r <~ getitem info "min_radius" ;;
             max_r <~ getitem info "max_radius" ;;
             call (print ("  Radius range: " +:+ fstr min_r +:+ " - " +:+ fstr max_r)) ;;~
             output <~ call (draw_circles (args_image args) (Some rows) (args_output args)) ;;
             (if args_extract args
              then call (extract_circles (args_image args) (Some rows) "extracted_circles") ;;~
                   pret ()
              else pret ()) ;;~
             if args_show args
             then highgui ;;~
                  call (print (NL +:+ "Press any key to close...")) ;;~
                  highgui ;;~
                  highgui
             else pret ()) w1
        end
    end.
Proof.
  unfold main. unfold pbind at 1. unfold call at 1, print at 1.
  fold (announced args w). unfold pbind at 1, call at 1.
  rewrite detect_circles_run.
  change (files (announced args w)) with (files w).
  destruct (decode (files w) (args_image args)) as [img|]; [|done].
  cbv zeta.
  change (dirs (announced args w)) with (dirs w).
  change (heap (announced args w)) with (heap w).
  destruct (search _ img _ _ _ _) as [[rows|]|e]; done.
Qed.

Lemma keeps_files_pret {A} (a : A) : keeps_files (pret a).
Proof. done. Qed.

Lemma keeps_files_pfail {A} e : keeps_files (@pfail World A e).
Proof. done. Qed.

Lemma keeps_files_pbind {A B} (m : P World A) (k : A → P World B) :
  keeps_files m → (∀ a, keeps_files (k a)) → keeps_files (pbind m k).
Proof.
  intros Hm Hk w. unfold pbind. destruct (Hm w) as [Hf Hd].
  destruct (m w) as [[a|e] w1]; simpl in *.
  - destruct (Hk a w1) as [Hf' Hd']. by rewrite Hf', Hd'.
  - done.
Qed.

Lemma keeps_files_print line : keeps_files (call (print line)).
Proof. done. Qed.

Lemma keeps_files_getitem d k : keeps_files (getitem d k).
Proof. unfold getitem. by destruct (d !! k). Qed.

Lemma keeps_files_of_result {A} (r : result A) : keeps_files (of_result r).
Proof. by destruct r. Qed.

Lemma keeps_files_detect self path dp min_dist param1 param2 :
  keeps_files (call (detect_circles self path dp min_dist param1 param2)).
Proof.
  intros w. unfold call. rewrite detect_circles_run.
  destruct (decode (files w) path) as [img|]; [|done].
  by destruct (search _ _ _ _ _ _) as [?|?].
Qed.

Lemma draw_circles_no_image image_path circles output_path w :
  decode (files w) image_path = None →
  draw_circles image_path circles output_path w
  = (Raise (AttributeError "'NoneType' object has no attribute 'copy'"), w).
Proof.
  intros H. unfold draw_circles, bind at 1. by rewrite (imread_None _ _ H).
Qed.

(** [draw_circles] without an output path writes nothing, on every image
    and every detection result. *)
Lemma keeps_files_draw path circles output_path :
  truthy output_path = None →
  keeps_files (call (draw_circles path circles output_path)).
Proof.
  intros Hout w. unfold call.
  destruct (decode (files w) path) as [img|] eqn:Hdec.
  - destruct circles as [rows|].
    + rewrite (draw_circles_run_full _ _ _ _ _ Hdec), Hout. done.
    + by rewrite (draw_circles_None_run _ _ _ _ Hdec).
  - by rewrite (draw_circles_no_image _ _ _ _ Hdec).
Qed.

(** X19. Without [--output] and without [--extract], [main] changes no
    file and creates no directory, whatever the image holds and whatever
    the search returns or raises. *)
Theorem main_writes_only_on_request args w :
  truthy (args_output args) = None →
  args_extract args = false →
  files (main args w).2 = files w ∧ dirs (main args w).2 = dirs w.
Proof.
  intros Hout Hext. revert w. change (keeps_files (main args)). unfold main.
  apply keeps_files_pbind; [apply keeps_files_print|]. intros _.
  apply keeps_files_pbind; [apply keeps_files_detect|]. intros [rows|].
  2:{ apply keeps_files_print. }
  apply keeps_files_pbind; [apply keeps_files_of_result|]. intros info.
  apply keeps_files_pbind; [apply keeps_files_getitem|]. intros count.
  apply keeps_files_pbind; [apply keeps_files_print|]. intros _.
  apply keeps_files_pbind; [apply keeps_files_getitem|]. intros average_radius.
  apply keeps_files_pbind; [apply keeps_files_print|]. intros _.
  apply keeps_files_pbind; [apply keeps_files_getitem|]. intros min_r.
  apply keeps_files_pbind; [apply keeps_files_getitem|]. intros max_r.
  apply keeps_files_pbind; [apply keeps_files_print|]. intros _.
  apply keeps_files_pbind; [by apply keeps_files_draw|]. intros output.
  rewrite Hext.
  apply keeps_files_pbind; [apply keeps_files_pret|]. intros _.
  destruct (args_show args); [|apply keeps_files_pret].
  apply keeps_files_pbind; [apply keeps_files_pret|]. intros _.
  apply keeps_files_pbind; [apply keeps_files_print|]. intros _.
  apply keeps_files_pbind; apply keeps_files_pret.
Qed.

(** X20. When the image cannot be read, [main] prints the line that
    announces the detection and then fails with the error of
    [detect_circles]; nothing else is printed or written. *)
Theorem main_unreadable args w :
  unreadable (files w) (args_image args) →
  main args w
  = (Fail (Core (ValueError ("Cannot read image from " +:+ args_image args))),
     mkWorld (files w) (dirs w) (heap w)
       (stdout w ++ ["Detecting circles in " +:+ args_image args +:+ "..."])).
Proof.
  intros H. rewrite main_run, (decode_unreadable _ _ H). done.
Qed.

(** X21. When the image can be read and the search finds no circle,
    [main] returns normally after printing two lines; it calls neither
    [draw_circles] nor [extract_circles]: no file is written, even with
    [--output] and [--extract]. *)
Theorem main_no_circles args w img :
  decode (files w) (args_image args) = Some img →
  HoughCircles (medianBlur (cvtColor img COLOR_BGR2GRAY) 5) HOUGH_GRADIENT
    dp_default 100 50 30 (args_min_radius args) (args_max_radius args) = Ok None →
  main args w
  = (Done (),
     mkWorld (files w) (dirs w) (heap w ++ [img])
       (stdout w ++ ["Detecting circles in " +:+ args_image args +:+ "...";
                     "No circles detected!"])).
Proof.
  intros Hdec Hnone. rewrite main_run, Hdec. cbv zeta. unfold search.
  simpl. rewrite Hnone. unfold call, print. simpl. by rewrite <- app_assoc.
Qed.



End MainFacts.

(** X19 on an explicit input: the 5 x 5 image, no option set. *)
Lemma main_writes_only_on_request_witness :
  let args := {| args_image := "disc.png"; args_output := None;
                 args_extract := false; args_min_radius := 1;
                 args_max_radius := 200; args_show := false |} in
  files (main (cv := Sample.cv) (fmt := Sample.fmt) args Sample.world5).2
  = files Sample.world5
  ∧ dirs (main (cv := Sample.cv) (fmt := Sample.fmt) args Sample.world5).2
    = dirs Sample.world5.
Proof.
  apply (main_writes_only_on_request (cv := Sample.cv) (fmt := Sample.fmt)
           {| args_image := "disc.png"; args_output := None;
              args_extract := false; args_min_radius := 1;
              args_max_radius := 200; args_show := false |} Sample.world5);
    reflexivity.
Defined.

(** X20 on an explicit input: a path without a file. *)
Lemma main_unreadable_witness :
  let args := {| args_image := "missing.png"; args_output := Some "out.png";
                 args_extract := true; args_min_radius := 10;
                 args_max_radius := 200; args_show := false |} in
  main (cv := Sample.cv) (fmt := Sample.fmt) args Sample.world5
  = (Fail (Core (ValueError ("Cannot read image from " +:+ args_image args))),
     mkWorld (files Sample.world5) (dirs Sample.world5) (heap Sample.world5)
       (stdout Sample.world5
          ++ ["Detecting circles in " +:+ args_image args +:+ "..."])).
Proof.
  apply (main_unreadable (cv := Sample.cv) (fmt := Sample.fmt)
           {| args_image := "missing.png"; args_output := Some "out.png";
              args_extract := true; args_min_radius := 10;
              args_max_radius := 200; args_show := false |} Sample.world5).
  left. reflexivity.
Defined.

(** X21 on an explicit input: radii from 10 on the 5 x 5 image, where the
    sample search finds nothing. *)
Lemma main_no_circles_witness :
  let args := {| args_image := "disc.png"; args_output := Some "out.png";
                 args_extract := true; args_min_radius := 10;
                 args_max_radius := 200; args_show := false |} in
  main (cv := Sample.cv) (fmt := Sample.fmt) args Sample.world5
  = (Done (),
     mkWorld (files Sample.world5) (dirs Sample.world5)
       (heap Sample.world5 ++ [Sample.image5])
       (stdout Sample.world5
          ++ ["Detecting circles in " +:+ args_image args +:+ "...";
              "No circles detected!"])).
Proof.
  apply (main_no_circles (cv := Sample.cv) (fmt := Sample.fmt)
           {| args_image := "disc.png"; args_output := Some "out.png";
              args_extract := true; args_min_radius := 10;
              args_max_radius := 200; args_show := false |}
           Sample.world5 Sample.image5); reflexivity.
Defined.


(** ** The web layer *)

Lemma decode_insert fs path f :
  decode (<[path := f]> fs) path = decode {[ path := f ]} path.
Proof. unfold decode. by rewrite lookup_insert_eq, lookup_singleton_eq. Qed.

Lemma decode_singleton p q f : decode {[ p := f ]} p = decode {[ q := f ]} q.
Proof. unfold decode. by rewrite !lookup_singleton_eq. Qed.

Lemma decode_upload fs path file :
  decode (<[path := content file]> fs) path = upload_image file.
Proof. rewrite decode_insert. apply decode_singleton. Qed.

Lemma decode_insert_ne fs p q f : p ≠ q → decode (<[q := f]> fs) p = decode fs p.
Proof. intros. unfold decode. by rewrite lookup_insert_ne. Qed.

Section Paths.
Context `{web : Web}.

Lemma upload_path_head (file : Upload) :
  ∃ t, upload_path file = String "u" t ∨ upload_path file = String "/" t.
Proof.
  unfold upload_path, os_path_join.
  destruct (secure_filename (filename file)) as [|a t] eqn:E.
  - eexists. left. reflexivity.
  - destruct (decide (a = "/"%char)) as [->|Hne].
    + eexists. by right.
    + eexists. left.
      destruct a as [[] [] [] [] [] [] [] []]; try done.
Qed.

Lemma result_path_eq (file : Upload) :
  result_path file = "outputs/result_" +:+ secure_filename (filename file).
Proof. reflexivity. Qed.

Lemma upload_path_ne_result (file : Upload) : upload_path file ≠ result_path file.
Proof.
  rewrite result_path_eq. destruct (upload_path_head file) as [t [-> | ->]]; done.
Qed.

Lemma circle_file_extracted i :
  circle_file (os_path_join "outputs" "extracted") i
  = "outputs/extracted/circle_" +:+ pretty (i + 1)%nat +:+ ".png".
Proof. reflexivity. Qed.

Lemma upload_path_ne_circle (file : Upload) i :
  upload_path file ≠ circle_file (os_path_join "outputs" "extracted") i.
Proof.
  rewrite circle_file_extracted. destruct (upload_path_head file) as [t [-> | ->]]; done.
Qed.

Lemma truthy_result_path (file : Upload) :
  truthy (Some (result_path file)) = Some (result_path file).
Proof. reflexivity. Qed.
End Paths.

Section DetectRoute.
Context `{cv : OpenCV} `{fmt : PyFormat} `{web : Web}.


Lemma detect_try_run req file s :
  let fp := upload_path file in
  let op := result_path file in
  let w := world s in
  let fs := <[fp := content file]> (files w) in
  Routes.detect_circles_try req file s
  = match upload_image file with
    | None =>
        (Fail (Core (ValueError ("Cannot read image from " +:+ fp))),
         mkServer (form_radii req) (mkWorld fs (dirs w) (heap w) (stdout w)))
    | Some img =>
        match search (form_radii req) img dp_default 100 50 30 with
        | Raise e =>
            (Fail (Core e),
             mkServer (form_radii req)
               (mkWorld fs (dirs w) (heap w ++ [img]) (stdout w)))
        | Ok None =>
            (Done no_circles_response,
             mkServer (form_radii req)
               (mkWorld fs (dirs w) (heap w ++ [img]) (stdout w)))
        | Ok (Some rows) =>
            match get_circle_info (Some rows), find_encoder op with
            | Ok info, Some codec =>
                (Done (detected_body rows img info, 200),
                 mkServer (form_radii req)
                   (mkWorld
                      (delete fp
                         (if writable op
                          then <[op := Raster (codec (annotated rows img))]> fs
                          else fs))
                      (dirs w) (heap w ++ [img; img; annotated rows img])
                      (stdout w ++ ["Output saved to " +:+ op])))
            | Ok info, None =>
                (Fail (Core imwrite_no_writer),
                 mkServer (form_radii req)
                   (mkWorld fs (dirs w) (heap w ++ [img; img; annotated rows img])
                      (stdout w)))
            | Raise e, _ => (Fail (Core e), s)
            end
        end
    end.
Proof.
  cbv zeta. unfold Routes.detect_circles_try.
  fold (upload_path file). fold (result_path file).
  unfold pbind at 1, save. unfold pbind at 1, set_radii.
  unfold pbind at 1, method, core. cbn [detector world set_files].
  fold (form_radii req).
  rewrite detect_circles_run. cbn [files dirs heap stdout].
  rewrite decode_upload.
  destruct (upload_image file) as [img|] eqn:Hup; [|done].
  destruct (search _ _ _ _ _ _) as [[rows|]|e] eqn:Hs; [| done | done].
  destruct (get_circle_info_total (Some rows)) as (info & Hinfo & Hcount).
  rewrite Hinfo. unfold pbind at 1. cbn [of_result pret].
  unfold pbind at 1. cbn [world detector].
  rewrite (draw_circles_run_full _ _ _ _ img)
    by (cbn [files]; rewrite decode_upload; done).
  rewrite truthy_result_path. cbn [files dirs heap stdout].
  destruct (find_encoder (result_path file)) as [codec|].
  2:{ by rewrite <- app_assoc. }
  unfold pbind at 1. cbn [world detector heap].
  rewrite (load_at _ (annotated rows img)) by apply lookup_second.
  unfold pbind at 1, os_remove. cbn [world files].
  assert ((if writable (result_path file)
           then <[result_path file := Raster (codec (annotated rows img))]>
                  (<[upload_path file := content file]> (files (world s)))
           else <[upload_path file := content file]> (files (world s)))
          !! upload_path file = Some (content file)) as ->.
  { destruct (writable (result_path file)).
    - rewrite lookup_insert_ne by (apply not_eq_sym, upload_path_ne_result).
      apply lookup_insert_eq.
    - apply lookup_insert_eq. }
  unfold pbind at 1, getitem. rewrite Hcount.
  cbn [pret fstr num_circles set_files world detector dirs heap stdout files].
  rewrite <- app_assoc. reflexivity.
Qed.
End DetectRoute.



Lemma removed_lookup paths fs q :
  removed paths fs !! q = if bool_decide (q ∈ paths) then None else fs !! q.
Proof.
  revert fs. induction paths as [|p paths IH]; intros fs; [done|].
  unfold removed in *. cbn [foldl]. rewrite IH.
  destruct (decide (q = p)) as [->|Hne].
  - rewrite lookup_delete_eq. rewrite (bool_decide_eq_true_2 (p ∈ p :: paths)) by left.
    by case_bool_decide.
  - rewrite lookup_delete_ne by done.
    case_bool_decide as H1; case_bool_decide as H2; try done.
    + exfalso. apply H2. by right.
    + exfalso. apply elem_of_cons in H2 as [?|?]; done.
Qed.

Lemma remove_loop_run paths (s : Server) :
  NoDup paths →
  (∀ p, p ∈ paths → is_Some (files (world s) !! p)) →
  pfor_fold paths () (λ _ path, os_remove path) s
  = (Done (), set_files (removed paths (files (world s))) s).
Proof.
  revert s. induction paths as [|p paths IH]; intros s Hnd Hin.
  - destruct s as [d [fs ds h out]]. reflexivity.
  - apply NoDup_cons in Hnd as [Hp Hnd].
    cbn [pfor_fold]. unfold pbind at 1, os_remove at 1.
    destruct (Hin p) as [f Hf]; [left|]. rewrite Hf.
    rewrite IH; [done|done|].
    intros q Hq. cbn [set_files world files].
    rewrite lookup_delete_ne; [apply Hin; by right|].
    intros ->. done.
Qed.

Lemma enumerate_from_paths {A B} (g : nat → B) (k : nat) (rows : list A) :
  enumerate_from k ((λ ic : nat * A, g ic.1) <$> enumerate_from k rows)
  = (λ ic : nat * A, (ic.1, g ic.1)) <$> enumerate_from k rows.
Proof.
  revert k. induction rows as [|c rows IH]; intros k; [done|].
  cbn [enumerate_from fmap list_fmap]. simpl. f_equal. apply IH.
Qed.

Lemma enumerate_paths {A B} (g : nat → B) (rows : list A) :
  enumerate ((λ ic : nat * A, g ic.1) <$> enumerate rows)
  = (λ ic : nat * A, (ic.1, g ic.1)) <$> enumerate rows.
Proof. apply enumerate_from_paths. Qed.

Section ExtractRoute.
Context `{cv : OpenCV} `{fmt : PyFormat} `{web : Web}.

Lemma entries_loop_run (rows : list Circle) img dir ics acc (s : Server) :
  (∀ i c, (i, c) ∈ ics →
     rows !! i = Some c
     ∧ files (world s) !! circle_file dir i = Some (Raster (extract_region img c))) →
  pfor_fold ((λ ic : nat * Circle, (ic.1, circle_file dir ic.1)) <$> ics) acc
    (Routes.extract_entry rows) s
  = (Done (acc ++ ((λ ic, circle_json img ic.1 ic.2) <$> ics)), s).
Proof.
  revert acc. induction ics as [|[i c] ics IH]; intros acc H.
  - simpl. by rewrite app_nil_r.
  - destruct (H i c) as [Hr Hf]; [left|].
    cbn [fmap list_fmap pfor_fold]. simpl.
    unfold pbind at 1. unfold Routes.extract_entry at 1.
    unfold pbind at 1, read_file. rewrite Hf.
    unfold circle_at. rewrite Hr. unfold pbind, pret. 
    specialize (IH (acc ++ [circle_json img i c])).
    unfold pbind, pret in IH. simpl in IH. 
    rewrite <- app_assoc in IH. simpl in IH. 
    rewrite <- IH; [reflexivity|]. intros j d Hj. apply H. by right.
Qed.

(** The body of the [try] of [/extract] up to the answers. *)
Lemma extract_try_run file s :
  let fp := upload_path file in
  let dir := os_path_join "outputs" "extracted" in
  let w := world s in
  let fs := <[fp := content file]> (files w) in
  Routes.extract_circles_try file s
  = match upload_image file with
    | None =>
        (Fail (Core (ValueError ("Cannot read image from " +:+ fp))),
         mkServer (detector s) (mkWorld fs (dirs w) (heap w) (stdout w)))
    | Some img =>
        match search (detector s) img dp_default 100 50 30 with
        | Raise e =>
            (Fail (Core e),
             mkServer (detector s)
               (mkWorld fs (dirs w) (heap w ++ [img]) (stdout w)))
        | Ok None =>
            (Done no_circles_response,
             mkServer (detector s)
               (mkWorld (delete fp fs) (dirs w) (heap w ++ [img]) (stdout w)))
        | Ok (Some rows) =>
            if all_crops img rows
            then Routes.extract_circles_try file s
            else
              (Fail (Core imwrite_empty),
               mkServer (detector s)
                 (mkWorld (written img dir (until_empty img (enumerate rows)) fs)
                    ({[dir]} ∪ dirs w) (heap w ++ [img; img]) (stdout w)))
        end
    end.
Proof.
  cbv zeta.
  destruct (upload_image file) as [img|] eqn:Hup.
  2:{ unfold Routes.extract_circles_try. fold (upload_path file).
      unfold pbind at 1, save.
      unfold pbind at 1, method, core at 1. cbn [detector world set_files].
      rewrite detect_circles_run. cbn [files dirs heap stdout].
      by rewrite decode_upload, Hup. }
  destruct (search _ _ _ _ _ _) as [[rows|]|e] eqn:Hs.
  - destruct (all_crops img rows) eqn:Hall; [done|].
    unfold Routes.extract_circles_try. fold (upload_path file).
    unfold pbind at 1, save.
    unfold pbind at 1, method, core at 1. cbn [detector world set_files].
    rewrite detect_circles_run. cbn [files dirs heap stdout].
    rewrite decode_upload, Hup, Hs.
    unfold pbind at 1, core at 1. cbn [world detector].
    rewrite (extract_circles_run_full _ _ _ _ img)
      by (cbn [files]; rewrite decode_upload; done).
    rewrite Hall. cbn [files dirs heap stdout]. by rewrite <- app_assoc.
  - unfold Routes.extract_circles_try. fold (upload_path file).
    unfold pbind at 1, save.
    unfold pbind at 1, method, core at 1. cbn [detector world set_files].
    rewrite detect_circles_run. cbn [files dirs heap stdout].
    rewrite decode_upload, Hup, Hs.
    unfold pbind at 1, os_remove. cbn [world files].
    rewrite lookup_insert_eq. reflexivity.
  - unfold Routes.extract_circles_try. fold (upload_path file).
    unfold pbind at 1, save.
    unfold pbind at 1, method, core at 1. cbn [detector world set_files].
    rewrite detect_circles_run. cbn [files dirs heap stdout].
    by rewrite decode_upload, Hup, Hs.
Qed.

(** The answer of [/extract] when every crop has pixels and every file of
    [outputs/extracted] can be written. *)
Lemma extract_try_found file s img rows :
  let fp := upload_path file in
  let dir := os_path_join "outputs" "extracted" in
  let w := world s in
  let fs := <[fp := content file]> (files w) in
  upload_image file = Some img →
  search (detector s) img dp_default 100 50 30 = Ok (Some rows) →
  all_crops img rows = true →
  (∀ i, writable (circle_file dir i) = true) →
  Routes.extract_circles_try file s
  = (Done (extracted_body rows img, 200),
     mkServer (detector s)
       (mkWorld
          (removed ((λ ic, circle_file dir ic.1) <$> enumerate rows)
             (delete fp (written img dir (enumerate rows) fs)))
          ({[dir]} ∪ dirs w) (heap w ++ [img; img])
          (stdout w ++ ["Extracted " +:+ pretty (length rows)
                          +:+ " circles to " +:+ dir +:+ "/"]))).
Proof.
  cbv zeta. intros Hup Hs Hall Hw. unfold Routes.extract_circles_try.
  fold (upload_path file).
  unfold pbind at 1, save.
  unfold pbind at 1, method, core at 1. cbn [detector world set_files].
  rewrite detect_circles_run. cbn [files dirs heap stdout].
  rewrite decode_upload, Hup, Hs.
  unfold pbind at 1, core at 1. cbn [world detector].
  rewrite (extract_circles_run_full _ _ _ _ img)
    by (cbn [files]; rewrite decode_upload; done).
  rewrite Hall. cbn [files dirs heap stdout].
  unfold pbind at 1.
  rewrite (enumerate_paths (circle_file (os_path_join "outputs" "extracted"))).
  rewrite (entries_loop_run rows img).
  2:{ intros i c Hic. cbn [world files]. split.
      - apply list_elem_of_lookup in Hic as [k Hk].
        unfold enumerate in Hk. rewrite enumerate_from_lookup in Hk.
        destruct (rows !! k) as [c'|] eqn:Hc; [|done].
        simpl in Hk. by injection Hk as <- <-.
      - apply written_lookup; [apply enumerate_NoDup|done|apply Hw]. }
  rewrite app_nil_l.
  unfold pbind at 1, os_remove at 1. cbn [world files].
  rewrite written_frame by (intros i _; apply upload_path_ne_circle).
  rewrite lookup_insert_eq.
  unfold pbind at 1.
  rewrite remove_loop_run.
  - cbn [set_files world files dirs heap stdout detector].
    unfold pret, extracted_body. rewrite !length_fmap, enumerate_length.
    rewrite <- app_assoc. reflexivity.
  - replace ((λ ic : nat * Circle, circle_file (os_path_join "outputs" "extracted") ic.1)
               <$> enumerate rows)
      with (circle_file (os_path_join "outputs" "extracted") <$> (enumerate rows).*1)
      by (by rewrite <- list_fmap_compose).
    unfold enumerate. rewrite enumerate_from_fst.
    apply NoDup_fmap_2; [|apply NoDup_seq].
    intros i j Hij. by apply circle_file_inj in Hij.
  - intros p Hp. cbn [set_files world files].
    apply list_elem_of_fmap in Hp as [[i c] [-> Hic]]. cbn [fst].
    rewrite lookup_delete_ne by apply upload_path_ne_circle.
    eexists. apply written_lookup; [apply enumerate_NoDup|exact Hic|apply Hw].
Qed.

(** Every step of the [try] of [/extract] leaves the detector alone, and
    each answer it builds has status 200. *)
Lemma keeps_detector_pret {A} (a : A) (post : A → Prop) :
  post a → keeps_detector (pret a) post.
Proof. intros H s. split; [done|]. by intros ? [= <-]. Qed.

Lemma keeps_detector_pfail {A} e (post : A → Prop) :
  keeps_detector (@pfail Server A e) post.
Proof. intros s. split; done. Qed.

Lemma keeps_detector_pbind {A B} (m : P Server A) (k : A → P Server B)
    (pre : A → Prop) (post : B → Prop) :
  keeps_detector m pre →
  (∀ a, pre a → keeps_detector (k a) post) →
  keeps_detector (pbind m k) post.
Proof.
  intros Hm Hk s. unfold pbind. destruct (Hm s) as [Hd Hpre].
  destruct (m s) as [[a|e] s1]; simpl in *.
  - destruct (Hk a (Hpre a eq_refl) s1) as [Hd' Hpost]. split; [congruence|done].
  - split; done.
Qed.

Lemma keeps_detector_core {A} (m : M A) : keeps_detector (core m) (λ _, True).
Proof. intros s. unfold core. by destruct (m (world s)) as [[a|e] w']. Qed.

Lemma keeps_detector_method {A} (f : CircleDetector → M A) :
  keeps_detector (method f) (λ _, True).
Proof. intros s. unfold method. apply keeps_detector_core. Qed.

Lemma keeps_detector_save file path : keeps_detector (save file path) (λ _, True).
Proof. intros s. done. Qed.

Lemma keeps_detector_os_remove path : keeps_detector (os_remove path) (λ _, True).
Proof. intros s. unfold os_remove. by destruct (files (world s) !! path). Qed.

Lemma keeps_detector_read_file path : keeps_detector (read_file path) (λ _, True).
Proof. intros s. unfold read_file. by destruct (files (world s) !! path). Qed.

Lemma keeps_detector_circle_at circles i :
  keeps_detector (@circle_at Server circles i) (λ _, True).
Proof. intros s. unfold circle_at. by destruct (circles !! i). Qed.

Lemma keeps_detector_pfor_fold {A B} (l : list A) (b : B) (body : B → A → P Server B) :
  (∀ b x, keeps_detector (body b x) (λ _, True)) →
  keeps_detector (pfor_fold l b body) (λ _, True).
Proof.
  intros Hbody. revert b. induction l as [|x l IH]; intros b.
  - by apply keeps_detector_pret.
  - cbn [pfor_fold]. eapply keeps_detector_pbind; [apply Hbody|]. intros b' _. apply IH.
Qed.

Lemma extract_try_keeps file :
  keeps_detector (Routes.extract_circles_try file) (λ r, r.2 = 200).
Proof.
  unfold Routes.extract_circles_try.
  eapply keeps_detector_pbind; [apply keeps_detector_save|]. intros _ _.
  eapply keeps_detector_pbind; [apply keeps_detector_method|]. intros [rows|] _.
  - eapply keeps_detector_pbind; [apply keeps_detector_core|]. intros paths _.
    eapply keeps_detector_pbind.
    { apply keeps_detector_pfor_fold. intros acc [i path].
      unfold Routes.extract_entry.
      eapply keeps_detector_pbind; [apply keeps_detector_read_file|]. intros f _.
      eapply keeps_detector_pbind; [apply keeps_detector_circle_at|]. intros c2 _.
      eapply keeps_detector_pbind; [apply keeps_detector_circle_at|]. intros c0 _.
      eapply keeps_detector_pbind; [apply keeps_detector_circle_at|]. intros c1 _.
      by apply keeps_detector_pret. }
    intros entries _.
    eapply keeps_detector_pbind; [apply keeps_detector_os_remove|]. intros _ _.
    eapply keeps_detector_pbind.
    { apply keeps_detector_pfor_fold. intros _ path. apply keeps_detector_os_remove. }
    intros _ _. by apply keeps_detector_pret.
  - eapply keeps_detector_pbind; [apply keeps_detector_os_remove|]. intros _ _.
    by apply keeps_detector_pret.
Qed.
End ExtractRoute.

Lemma api_allowed_file_total fn : ∃ b, Api.allowed_file fn = Done b.
Proof. destruct (allowed_in_spec Api.ALLOWED_EXTENSIONS fn) as (b & H & _). by exists b. Qed.

Lemma not_rejected req file :
  req_files req !! "image" = Some file → ¬ rejected req →
  filename file ≠ "" ∧ Api.allowed_file (filename file) = Done true.
Proof.
  intros Hf Hr. unfold rejected in Hr. rewrite Hf in Hr.
  split; [tauto|].
  destruct (api_allowed_file_total (filename file)) as [[] Hb]; [done|tauto].
Qed.

Section RouteFacts.
Context `{cv : OpenCV} `{fmt : PyFormat} `{web : Web}.

Lemma detect_accepted_run req file s :
  req_files req !! "image" = Some file → ¬ rejected req →
  Routes.detect_circles req s
  = try_except (Routes.detect_circles_try req file)
      (λ e, pret (error_response (str_exn e) 500)) s.
Proof.
  intros Hf Hr. destruct (not_rejected _ _ Hf Hr) as [Hne Hal].
  unfold Routes.detect_circles. rewrite Hf.
  rewrite bool_decide_eq_false_2 by done.
  unfold pbind. rewrite Hal. reflexivity.
Qed.

Lemma detect_rejected_run req s :
  rejected req →
  ∃ msg, Routes.detect_circles req s = (Done (error_response msg 400), s).
Proof.
  unfold rejected, Routes.detect_circles.
  destruct (req_files req !! "image") as [file|]; [|by eexists].
  case_bool_decide as Hn; [by eexists|].
  intros [?|Hal]; [done|].
  unfold pbind. rewrite Hal. by eexists.
Qed.

Lemma extract_accepted_run req file s :
  req_files req !! "image" = Some file → ¬ rejected req →
  Routes.extract_circles req s
  = try_except (Routes.extract_circles_try file)
      (λ e, pret (error_response (str_exn e) 500)) s.
Proof.
  intros Hf Hr. destruct (not_rejected _ _ Hf Hr) as [Hne Hal].
  unfold Routes.extract_circles. rewrite Hf.
  unfold pbind. rewrite Hal. reflexivity.
Qed.

Lemma extract_rejected_run req s :
  rejected req →
  ∃ msg, Routes.extract_circles req s = (Done (error_response msg 400), s).
Proof.
  unfold rejected, Routes.extract_circles.
  destruct (req_files req !! "image") as [file|]; [|by eexists].
  intros [Hn|Hal].
  - rewrite Hn. by eexists.
  - unfold pbind. rewrite Hal. by eexists.
Qed.

Lemma rejected_dec req : rejected req ∨ ¬ rejected req.
Proof.
  unfold rejected. destruct (req_files req !! "image") as [file|]; [|by left].
  destruct (decide (filename file = "")) as [?|Hn]; [left; by left|].
  destruct (api_allowed_file_total (filename file)) as [[] Hb].
  - right. intros [?|?]; [done|congruence].
  - left. by right.
Qed.

Lemma not_rejected_file req : ¬ rejected req → ∃ file, req_files req !! "image" = Some file.
Proof.
  unfold rejected. destruct (req_files req !! "image") as [file|]; [by eexists|tauto].
Qed.

(** X23. [/detect] answers every request: no exception leaves the route.
    The status is 400 exactly when the request has no part "image", the
    file has an empty name or its extension is not allowed, and then
    nothing is changed: no file is stored and the detector keeps its
    radii.  Every other request is answered with 200 or 500. *)
Theorem api_detect_answers req s :
  ∃ body status,
    (Routes.detect_circles req s).1 = Done (body, status)
    ∧ (status = 200 ∨ status = 400 ∨ status = 500)
    ∧ (status = 400 ↔ rejected req)
    ∧ (rejected req → (Routes.detect_circles req s).2 = s).
Proof.
  destruct (rejected_dec req) as [Hr|Hr].
  - destruct (detect_rejected_run req s Hr) as [msg ->].
    eexists _, _. split; [reflexivity|]. split_and!; [by right; left|done|done].
  - destruct (not_rejected_file _ Hr) as [file Hf].
    rewrite (detect_accepted_run _ _ _ Hf Hr).
    unfold try_except. rewrite detect_try_run. cbv zeta.
    destruct (upload_image file) as [img|].
    2:{ eexists _, _. split; [reflexivity|]. split_and!; [by right; right|done|done]. }
    destruct (search _ _ _ _ _ _) as [[rows|]|e].
    + destruct (get_circle_info_total (Some rows)) as (info & -> & _).
      destruct (find_encoder (result_path file)) as [codec|].
      * eexists _, _. split; [reflexivity|]. split_and!; [by left|done|done].
      * eexists _, _. split; [reflexivity|].
        split_and!; [by right; right|done|done].
    + eexists _, _. split; [reflexivity|]. split_and!; [by left|done|done].
    + eexists _, _. split; [reflexivity|]. split_and!; [by right; right|done|done].
Qed.

(** X27. [/extract] answers every request as well, with 400 for exactly
    the requests [/detect] rejects (an empty file name fails the test of
    the extension), without any change of the state, and with 200 or 500
    otherwise. *)
Theorem api_extract_answers req s :
  ∃ body status,
    (Routes.extract_circles req s).1 = Done (body, status)
    ∧ (status = 200 ∨ status = 400 ∨ status = 500)
    ∧ (status = 400 ↔ rejected req)
    ∧ (rejected req → (Routes.extract_circles req s).2 = s).
Proof.
  destruct (rejected_dec req) as [Hr|Hr].
  - destruct (extract_rejected_run req s Hr) as [msg ->].
    eexists _, _. split; [reflexivity|]. split_and!; [by right; left|done|done].
  - destruct (not_rejected_file _ Hr) as [file Hf].
    rewrite (extract_accepted_run _ _ _ Hf Hr).
    unfold try_except. destruct (extract_try_keeps file s) as [_ H200].
    destruct (Routes.extract_circles_try file s) as [[[body status]|e] s'].
    + specialize (H200 _ eq_refl). simpl in H200. subst status.
      eexists _, _. split; [reflexivity|]. split_and!; [by left|done|done].
    + eexists _, _. split; [reflexivity|].
      split_and!; [by right; right|done|done].
Qed.
End RouteFacts.

Section RouteTheorems.
Context `{cv : OpenCV} `{fmt : PyFormat} `{web : Web}.

Lemma detect_detector req s :
  ¬ rejected req → detector (Routes.detect_circles req s).2 = form_radii req.
Proof.
  intros Hr. destruct (not_rejected_file _ Hr) as [file Hf].
  rewrite (detect_accepted_run _ _ _ Hf Hr).
  unfold try_except. rewrite detect_try_run. cbv zeta.
  destruct (upload_image file) as [img|]; [|done].
  destruct (search _ _ _ _ _ _) as [[rows|]|e]; [|done|done].
  destruct (get_circle_info_total (Some rows)) as (info & -> & _).
  by destruct (find_encoder (result_path file)).
Qed.

Lemma extract_detector req s :
  detector (Routes.extract_circles req s).2 = detector s.
Proof.
  destruct (rejected_dec req) as [Hr|Hr].
  - by destruct (extract_rejected_run req s Hr) as [msg ->].
  - destruct (not_rejected_file _ Hr) as [file Hf].
    rewrite (extract_accepted_run _ _ _ Hf Hr).
    unfold try_except. destruct (extract_try_keeps file s) as [Hd _].
    by destruct (Routes.extract_circles_try file s) as [[r|e] s'].
Qed.

(** X24. The radii of a request to [/detect] outlive it.  Every request
    that is not rejected stores the radii of its form (10 and 200 where
    the form has none, or no integer) in the detector shared by all
    requests, whatever the request ends in, and [/extract], which reads
    no radii, leaves them there: it searches with the radii of the last
    [/detect]. *)
Theorem api_radii_outlive_request req req' s :
  ¬ rejected req →
  let s1 := (Routes.detect_circles req s).2 in
  detector s1 = form_radii req
  ∧ detector (Routes.extract_circles req' s1).2 = form_radii req.
Proof.
  intros Hr. cbv zeta. rewrite extract_detector. split; by apply detect_detector.
Qed.

(** X25. Unless circles are found, [/detect] leaves the upload on disk.
    For a request that is not rejected and an upload in which the search
    finds no circle, fails, or which cannot be read as an image, the only
    change of the files is the upload stored under [uploads]; the
    answer is the body "No circles detected" with status 200 in the
    first case and the text of the exception with status 500 in the
    others. *)
Theorem api_detect_leaves_upload req file s :
  req_files req !! "image" = Some file →
  ¬ rejected req →
  (∀ img rows, upload_image file = Some img →
     search (form_radii req) img dp_default 100 50 30 ≠ Ok (Some rows)) →
  let r := Routes.detect_circles req s in
  files (world r.2) = <[upload_path file := content file]> (files (world s))
  ∧ dirs (world r.2) = dirs (world s)
  ∧ stdout (world r.2) = stdout (world s)
  ∧ (upload_image file = None →
     r.1 = Done (error_response
                   ("Cannot read image from " +:+ upload_path file) 500))
  ∧ (∀ img, upload_image file = Some img →
       search (form_radii req) img dp_default 100 50 30 = Ok None →
       r.1 = Done no_circles_response)
  ∧ (∀ img e, upload_image file = Some img →
       search (form_radii req) img dp_default 100 50 30 = Raise e →
       r.1 = Done (error_response (str_exn (Core e)) 500)).
Proof.
  intros Hf Hr Hnone. cbv zeta.
  rewrite (detect_accepted_run _ _ _ Hf Hr).
  unfold try_except. rewrite detect_try_run. cbv zeta.
  destruct (upload_image file) as [img|] eqn:Hup.
  2:{ split_and!; try done. }
  specialize (Hnone img).
  destruct (search _ _ _ _ _ _) as [[rows|]|e] eqn:Hs.
  - by destruct (Hnone rows).
  - split_and!; try done. intros ? ? [= <-] Hs'. congruence.
  - split_and!; try done.
    + intros ? [= <-] Hs'. congruence.
    + intros ? e' [= <-] Hs'. cbn [fst]. rewrite Hs in Hs'. by injection Hs' as ->.
Qed.

(** X26. When circles are found and [cv.imwrite] has an encoder for the
    name [outputs/result_<name>], [/detect] answers with status 200, the
    number of circles, the dictionary of [get_circle_info] and the encoded
    annotated image.  Afterwards no file is left at the path of the
    upload (also when one was there before the request), the encoded
    annotated image stays under [outputs/result_<name>] where that file
    can be written, and no other file is changed.  When there is no
    encoder for that name, [/detect] answers with status 500 and the
    upload is left on disk. *)
Theorem api_detect_success req file s img rows :
  req_files req !! "image" = Some file →
  ¬ rejected req →
  upload_image file = Some img →
  search (form_radii req) img dp_default 100 50 30 = Ok (Some rows) →
  let r := Routes.detect_circles req s in
  (∀ codec, find_encoder (result_path file) = Some codec →
     ∃ info,
       get_circle_info (Some rows) = Ok info
       ∧ r.1 = Done (detected_body rows img info, 200)
       ∧ files (world r.2) !! upload_path file = None
       ∧ (writable (result_path file) = true →
          files (world r.2) !! result_path file
          = Some (Raster (codec (annotated rows img))))
       ∧ ∀ q, q ≠ upload_path file → q ≠ result_path file →
           files (world r.2) !! q = files (world s) !! q)
  ∧ (find_encoder (result_path file) = None →
     (∃ msg, r.1 = Done (error_response msg 500))
     ∧ files (world r.2) = <[upload_path file := content file]> (files (world s))).
Proof.
  intros Hf Hr Hup Hs. cbv zeta.
  rewrite (detect_accepted_run _ _ _ Hf Hr).
  unfold try_except. rewrite detect_try_run. cbv zeta. rewrite Hup, Hs.
  destruct (get_circle_info_total (Some rows)) as (info & Hinfo & _).
  rewrite Hinfo. split.
  - intros codec ->. exists info. cbn [fst snd world files].
    split_and!; [done|done| | |].
    + apply lookup_delete_eq.
    + intros ->. rewrite lookup_delete_ne by (apply upload_path_ne_result).
      apply lookup_insert_eq.
    + intros q Hq1 Hq2. rewrite lookup_delete_ne by done.
      destruct (writable (result_path file)).
      * rewrite lookup_insert_ne by done. by rewrite lookup_insert_ne.
      * by rewrite lookup_insert_ne.
  - intros ->. cbn [fst snd world files]. split; [by eexists|done].
Qed.

(** X28. When circles are found, every crop has pixels and the files of
    [outputs/extracted] can be written, [/extract] answers with status 200
    and one entry for each circle, in the order of the detection: entry
    number i (from 0) has the id i + 1, the radius and the centre of
    circle i, and the encoded content of the file written for it, which
    is the masked crop of that circle.  The search runs with the radii
    the detector holds when the request arrives.  When a crop has no
    pixel, [cv.imwrite] raises and the answer has status 500. *)
Theorem api_extract_success req file s img rows :
  req_files req !! "image" = Some file →
  ¬ rejected req →
  upload_image file = Some img →
  search (detector s) img dp_default 100 50 30 = Ok (Some rows) →
  ((∀ c, c ∈ rows → mat_empty (extract_region img c) = false) →
   (∀ i, writable (circle_file (os_path_join "outputs" "extracted") i) = true) →
   ∃ entries,
     (Routes.extract_circles req s).1
     = Done (JObj (<["success" := JBool true]>
                  (<["message" := JStr ("Extracted " +:+ pretty (length rows)
                                        +:+ " circles")]>
                  (<["count" := JInt (Z.of_nat (length rows))]>
                  (<["circles" := JList entries]> ∅)))), 200)
     ∧ length entries = length rows
     ∧ ∀ i x y r, rows !! i = Some (x, y, r) →
         entries !! i
         = Some (JObj (<["id" := JInt (Z.of_nat i + 1)]>
                      (<["radius" := JInt r]>
                      (<["center" := JObj (<["x" := JInt x]> (<["y" := JInt y]> ∅))]>
                      (<["image" := JStr ("data:image/png;base64,"
                           +:+ read_base64 (Raster (extract_region img (x, y, r))))]>
                       ∅))))))
  ∧ (∀ c, c ∈ rows → mat_empty (extract_region img c) = true →
     ∃ msg, (Routes.extract_circles req s).1 = Done (error_response msg 500)).
Proof.
  intros Hf Hr Hup Hs.
  rewrite (extract_accepted_run _ _ _ Hf Hr). unfold try_except. split.
  - intros Hall Hw. apply all_crops_true in Hall.
    rewrite (extract_try_found file s img rows Hup Hs Hall Hw).
    eexists. split; [reflexivity|]. split.
    + by rewrite length_fmap, enumerate_length.
    + intros i x y r Hi. rewrite list_lookup_fmap.
      unfold enumerate. rewrite enumerate_from_lookup.
      change (rows !! i = Some (x, y, r)) in Hi.
      first [ rewrite Hi | unfold Circle in *; rewrite Hi ]. reflexivity.
  - intros c Hc He. rewrite extract_try_run. cbv zeta. rewrite Hup, Hs.
    rewrite (all_crops_false _ _ _ Hc He). by eexists.
Qed.

(** X29. [/extract] cleans up when the search finds nothing, and when it
    finds circles whose crops all have pixels and the files of
    [outputs/extracted] can be written: afterwards no file is left at the
    path of the upload nor at the path of any circle (also where such a
    file existed before the request), and every other file is as before.
    When the upload cannot be read, the search fails, or a crop has no
    pixel, so that [cv.imwrite] raises, the upload stays on disk. *)
Theorem api_extract_cleanup req file s :
  req_files req !! "image" = Some file →
  ¬ rejected req →
  let s' := (Routes.extract_circles req s).2 in
  let dir := os_path_join "outputs" "extracted" in
  (∀ img found,
     upload_image file = Some img →
     search (detector s) img dp_default 100 50 30 = Ok found →
     (∀ rows c, found = Some rows → c ∈ rows →
        mat_empty (extract_region img c) = false) →
     (∀ i, writable (circle_file dir i) = true) →
     files (world s') !! upload_path file = None
     ∧ (∀ i, (i < num_circles found)%nat →
          files (world s') !! circle_file dir i = None)
     ∧ (∀ q, q ≠ upload_path file →
          (∀ i, (i < num_circles found)%nat → q ≠ circle_file dir i) →
          files (world s') !! q = files (world s) !! q))
  ∧ (upload_image file = None
     ∨ (∃ img e, upload_image file = Some img
          ∧ search (detector s) img dp_default 100 50 30 = Raise e)
     ∨ (∃ img rows c, upload_image file = Some img
          ∧ search (detector s) img dp_default 100 50 30 = Ok (Some rows)
          ∧ c ∈ rows ∧ mat_empty (extract_region img c) = true) →
     files (world s') !! upload_path file = Some (content file)).
Proof.
  intros Hf Hr. cbv zeta.
  rewrite (extract_accepted_run _ _ _ Hf Hr).
  unfold try_except. split.
  - intros img found Hup Hs Hall Hw. destruct found as [rows|].
    + assert (all_crops img rows = true) as Hall'.
      { apply all_crops_true. intros c Hc. by apply (Hall rows). }
      rewrite (extract_try_found file s img rows Hup Hs Hall' Hw).
      cbn [snd world files num_circles].
      assert (∀ q, q ∈ (λ ic : nat * Circle,
                 circle_file (os_path_join "outputs" "extracted") ic.1) <$> enumerate rows
               ↔ ∃ i, (i < length rows)%nat
                      ∧ q = circle_file (os_path_join "outputs" "extracted") i) as Hin.
      { intros q. rewrite list_elem_of_fmap. split.
        - intros [[i c] [-> Hic]]. exists i. split; [|done].
          assert (i ∈ (enumerate rows).*1) as Hi.
          { apply list_elem_of_fmap. by exists (i, c). }
          unfold enumerate in Hi. rewrite enumerate_from_fst in Hi.
          apply elem_of_seq in Hi. lia.
        - intros (i & Hi & ->).
          destruct (lookup_lt_is_Some_2 rows i Hi) as [c Hc].
          exists (i, c). split; [done|]. by apply enumerate_elem. }
      split_and!.
      * rewrite removed_lookup. case_bool_decide; [done|]. apply lookup_delete_eq.
      * intros i Hi. rewrite removed_lookup.
        rewrite bool_decide_eq_true_2; [done|]. apply Hin. by exists i.
      * intros q Hq1 Hq2. rewrite removed_lookup.
        rewrite bool_decide_eq_false_2.
        2:{ intros Hq. apply Hin in Hq as (i & Hi & ->). by apply (Hq2 i). }
        rewrite lookup_delete_ne by done.
        rewrite written_frame.
        -- by rewrite lookup_insert_ne.
        -- intros i Hi. apply Hq2.
           unfold enumerate in Hi. rewrite enumerate_from_fst in Hi.
           apply elem_of_seq in Hi. lia.
    + rewrite extract_try_run. cbv zeta. rewrite Hup, Hs.
      cbn [snd world files num_circles].
      split_and!; [apply lookup_delete_eq| intros; lia |].
      intros q Hq _. rewrite lookup_delete_ne by done. by rewrite lookup_insert_ne.
  - rewrite extract_try_run. cbv zeta.
    intros [Hup | [(img & e & Hup & Hs) | (img & rows & c & Hup & Hs & Hc & He)]].
    + rewrite Hup. cbn [snd world files]. apply lookup_insert_eq.
    + rewrite Hup, Hs. cbn [snd world files]. apply lookup_insert_eq.
    + rewrite Hup, Hs, (all_crops_false _ _ _ Hc He). cbn [snd world files pret].
      rewrite written_frame by (intros i _; apply upload_path_ne_circle).
      apply lookup_insert_eq.
Qed.
End RouteTheorems.

Section UploadFacts.
Context {S : Type} `{pil : Pillow}.


Lemma rejections_cons f files errors :
  rejections (f :: files) errors
  = rejections files (if accepted f then errors
                      else <[filename f := JStr "File type is not allowed"]> errors).
Proof. reflexivity. Qed.

Lemma check_file_run success errors file (s : S) :
  App.check_file (success, errors) file s
  = (Done (if accepted file then (true, errors)
           else (success, <[filename file := JStr "File type is not allowed"]> errors)), s).
Proof.
  unfold App.check_file, accepted, pbind.
  case_bool_decide as Hn; [done|].
  destruct (allowed_in_spec App.ALLOWED_EXTENSIONS (filename file)) as (b & Hb & _).
  unfold App.allowed_file. rewrite Hb. by destruct b.
Qed.

Lemma check_loop_run files success errors (s : S) :
  pfor_fold files (success, errors) App.check_file s
  = (Done (success || existsb accepted files, rejections files errors), s).
Proof.
  revert success errors. induction files as [|f files IH]; intros success errors.
  - simpl. by rewrite orb_false_r.
  - cbn [pfor_fold]. unfold pbind. rewrite check_file_run.
    rewrite rejections_cons. cbn [existsb].
    destruct (accepted f) eqn:Hf; rewrite IH.
    + by rewrite orb_true_r.
    + done.
Qed.

Lemma rejections_size files errors :
  size (rejections files errors) = 0%nat
  ↔ size errors = 0%nat ∧ forallb accepted files = true.
Proof.
  revert errors. induction files as [|f files IH]; intros errors.
  - simpl. tauto.
  - rewrite rejections_cons, IH. cbn [forallb].
    destruct (accepted f) eqn:Hf; [simpl; tauto|].
    split; [|intros [_ ?]; done]. intros [H _].
    apply map_size_empty_iff in H. by apply insert_non_empty in H.
Qed.

Lemma forallb_existsb_accepted (files : list Upload) :
  files ≠ [] → forallb accepted files = true → existsb accepted files = true.
Proof. destruct files as [|f files]; [done|]. simpl. intros _ H. apply andb_prop in H as [-> _]. done. Qed.

(** X30. [upload_file] of app/app.py never answers 201.  Without files it
    answers 400; when a file has an empty name or an extension that is
    not allowed it answers 500; and when every file is accepted it ends
    in an exception: that of Pillow for a stream that holds no image,
    otherwise that of [cv.imread], which is given a stream where it
    takes a path.  The names [h] and [w] of the answer with 201 are
    bound nowhere.  The state is never changed. *)
Theorem upload_file_never_created (files : list Upload) (s : S) :
  let r := App.upload_file files s in
  r.2 = s
  ∧ (∀ body status, r.1 = Done (body, status) → status = 400 ∨ status = 500)
  ∧ (files = [] → ∃ body, r.1 = Done (body, 400))
  ∧ (files ≠ [] → forallb accepted files = false → ∃ body, r.1 = Done (body, 500))
  ∧ (files ≠ [] → forallb accepted files = true →
     ∃ file, last files = Some file
       ∧ r.1 = Fail (match Image_open (content file) with
                     | Some _ => Core imread_not_a_path
                     | None => UnidentifiedImageError "cannot identify image file"
                     end)).
Proof.
  cbv zeta. destruct files as [|f files].
  { split_and!; try done.
    - intros body status [= <- <-]. by left.
    - by eexists. }
  unfold App.upload_file. cbv iota.
  assert (f :: files ≠ []) as Hne by done.
  generalize dependent (f :: files). intros fs Hne.
  unfold pbind. rewrite check_loop_run. cbn [orb].
  destruct (forallb accepted fs) eqn:Hall.
  - rewrite (forallb_existsb_accepted fs) by done.
    rewrite bool_decide_eq_true_2 by (by apply rejections_size).
    cbn [andb negb].
    destruct (last fs) as [file|] eqn:Hlast.
    2:{ by apply last_None in Hlast. }
    unfold pbind, App.PIL_Image_open, App.imread_stream.
    destruct (Image_open (content file)) as [wh|] eqn:Him.
    + split_and!; try done. intros _ _. exists file. by rewrite Him.
    + split_and!; try done. intros _ _. exists file. by rewrite Him.
  - assert (size (rejections fs ∅) ≠ 0%nat) as Hsz.
    { intros H. apply rejections_size in H as [_ H]. congruence. }
    rewrite (bool_decide_eq_false_2 _ Hsz). cbn [negb]. rewrite andb_true_r.
    destruct (existsb accepted fs).
    + split_and!; try done.
      * intros body status [= <- <-]. by right.
      * intros _ _. by eexists.
    + split_and!; try done.
      * intros body status [= <- <-]. by right.
      * intros _ _. by eexists.
Qed.
End UploadFacts.

(** X24 on an explicit input: a request with [min_radius] 1 to a server
    that has handled no request, followed by a request to [/extract]. *)
Lemma api_radii_outlive_request_witness :
  let req := Sample.request5 {[ "min_radius" := "1" ]} in
  let s1 := (Routes.detect_circles (cv := Sample.cv) (fmt := Sample.fmt)
               (web := Sample.web) req Sample.server0).2 in
  detector s1 = init 1 200
  ∧ detector (Routes.extract_circles (cv := Sample.cv) (web := Sample.web)
                (Sample.request5 ∅) s1).2 = init 1 200.
Proof.
  change (init 1 200)
    with (form_radii (web := Sample.web) (Sample.request5 {[ "min_radius" := "1" ]})).
  apply (api_radii_outlive_request (cv := Sample.cv) (fmt := Sample.fmt)
           (web := Sample.web) (Sample.request5 {[ "min_radius" := "1" ]})
           (Sample.request5 ∅) Sample.server0).
  intros H. vm_compute in H. destruct H as [H|H]; discriminate H.
Defined.

(** X25 on an explicit input: the 5 x 5 image with the radii 10 and 200,
    where the sample search finds nothing. *)
Lemma api_detect_leaves_upload_witness :
  let req := Sample.request5 ∅ in
  let r := Routes.detect_circles (cv := Sample.cv) (fmt := Sample.fmt)
             (web := Sample.web) req Sample.server0 in
  r.1 = Done no_circles_response
  ∧ files (world r.2) = {[ "uploads/disc.png" := Raster Sample.image5 ]}.
Proof.
  destruct (api_detect_leaves_upload (cv := Sample.cv) (fmt := Sample.fmt)
              (web := Sample.web) (Sample.request5 ∅) Sample.upload5 Sample.server0)
    as (Hfiles & _ & _ & _ & Hnone & _).
  - reflexivity.
  - intros H. vm_compute in H. destruct H as [H|H]; discriminate H.
  - intros img rows Himg. vm_compute in Himg. injection Himg as <-.
    vm_compute. discriminate.
  - split.
    + apply (Hnone Sample.image5); reflexivity.
    + rewrite Hfiles. reflexivity.
Defined.

(** X26 on an explicit input: the 5 x 5 image with [min_radius] 1, where
    the sample search finds the circle (2, 2, 2). *)
Lemma api_detect_success_witness :
  let req := Sample.request5 {[ "min_radius" := "1" ]} in
  let r := Routes.detect_circles (cv := Sample.cv) (fmt := Sample.fmt)
             (web := Sample.web) req Sample.server0 in
  (∃ body, r.1 = Done (body, 200))
  ∧ files (world r.2) !! "uploads/disc.png" = None
  ∧ files (world r.2) !! "outputs/result_disc.png"
    = Some (Raster (annotated (cv := Sample.cv) [(2, 2, 2)] Sample.image5)).
Proof.
  cbv zeta.
  destruct (api_detect_success (cv := Sample.cv) (fmt := Sample.fmt)
              (web := Sample.web) (Sample.request5 {[ "min_radius" := "1" ]})
              Sample.upload5 Sample.server0 Sample.image5 [(2, 2, 2)])
    as [Hok _].
  - reflexivity.
  - intros H. vm_compute in H. destruct H as [H|H]; discriminate H.
  - reflexivity.
  - reflexivity.
  - destruct (Hok (λ img, img) eq_refl) as (info & _ & Hr & Hup & Hres & _).
    split_and!; [by eexists|exact Hup|exact (Hres eq_refl)].
Defined.

(** X28 on an explicit input: the 5 x 5 image sent to a server whose
    detector holds the radii 1 and 200. *)
Lemma api_extract_success_witness :
  let s := mkServer (init 1 200) Sample.empty_world in
  ∃ entries,
    (Routes.extract_circles (cv := Sample.cv) (web := Sample.web)
       (Sample.request5 ∅) s).1
    = Done (JObj (<["success" := JBool true]>
                 (<["message" := JStr "Extracted 1 circles"]>
                 (<["count" := JInt 1]>
                 (<["circles" := JList entries]> ∅)))), 200)
    ∧ length entries = 1%nat.
Proof.
  cbv zeta.
  destruct (api_extract_success (cv := Sample.cv) (web := Sample.web)
              (Sample.request5 ∅) Sample.upload5
              (mkServer (init 1 200) Sample.empty_world) Sample.image5 [(2, 2, 2)])
    as [Hok _].
  - reflexivity.
  - intros H. vm_compute in H. destruct H as [H|H]; discriminate H.
  - reflexivity.
  - reflexivity.
  - destruct Hok as (entries & Hr & Hlen & _).
    + intros c Hc. apply list_elem_of_singleton in Hc as ->. reflexivity.
    + intros i. reflexivity.
    + exists entries. split; [exact Hr|exact Hlen].
Defined.

(** X29 on an explicit input: the same request; afterwards neither the
    upload nor the crop is on disk. *)
Lemma api_extract_cleanup_witness :
  let s := mkServer (init 1 200) Sample.empty_world in
  let s' := (Routes.extract_circles (cv := Sample.cv) (web := Sample.web)
               (Sample.request5 ∅) s).2 in
  files (world s') !! "uploads/disc.png" = None
  ∧ files (world s') !! "outputs/extracted/circle_1.png" = None.
Proof.
  cbv zeta.
  destruct (api_extract_cleanup (cv := Sample.cv) (web := Sample.web)
              (Sample.request5 ∅) Sample.upload5
              (mkServer (init 1 200) Sample.empty_world))
    as [Hclean _].
  - reflexivity.
  - intros H. vm_compute in H. destruct H as [H|H]; discriminate H.
  - destruct (Hclean Sample.image5 (Some [(2, 2, 2)])) as (Hup & Hcirc & _).
    + reflexivity.
    + reflexivity.
    + intros rows c [= <-] Hc. apply list_elem_of_singleton in Hc as ->. reflexivity.
    + intros i. reflexivity.
    + split; [exact Hup|]. apply (Hcirc 0%nat). simpl. lia.
Defined.
